(** * F2P/P2P analysis engine: classifier, validator, registry, runners

    A shallow embedding of the parts of the test-verification package that
    decide the classification of tests into FAIL_TO_PASS / PASS_TO_PASS /
    PASS_TO_FAIL / FAIL_TO_FAIL, the validation of that classification, the
    selection of a test runner and the error field of a test run; then of
    what surrounds them: the verdict and the exit status of an analysis, the
    package loop and its helpers, the pre-flight check, the look-up of
    runners, the version check and the line parsers of two runners.

    Modelling conventions
    - a Python [str] is a [string]; read as UTF-8, the byte-wise
      lexicographic order of [String.compare] is the code-point order Python
      uses to compare strings;
    - a [Dict[str, str]] is a [gmap string string]; [test in d] is
      [d !! test <> None], [d.get(test)] is [d !! test];
    - a Python [set] of strings is a [gset string]; iterating over a set is
      [elements], whose order is fixed by the implementation and carries no
      meaning, as in Python;
    - a Python [int] is a [Z]; [Optional[T]] is [option T]. *)

From Stdlib Require Import String Ascii ZArith List Sorted Permutation DecimalString.
From stdpp Require Import gmap strings list fin_maps sorting.

Local Open Scope string_scope.
Local Open Scope Z_scope.

(** ** base.py *)

Module Base.

(** [TestResult]: the outcome of one test run.  [duration_seconds] is a
    float that no decision reads; it is left out. *)
Module TestResult.
Record t := mk {
  passed : list string;
  failed : list string;
  skipped : list string;
  error : option string;
  raw_output : option string;
}.

Definition total_tests (r : t) : nat :=
  (length (passed r) + length (failed r) + length (skipped r))%nat.

(** [TestResult(error=msg)]: every other field at its default. *)
Definition of_error (msg : string) : t := mk [] [] [] (Some msg) None.
End TestResult.

(** [F2PP2PResult], without the PR identifiers and the three per-stage
    [TestResult] copies, which are reporting data only. *)
Module F2PP2PResult.
Record t := mk {
  f2p_tests : list string;
  p2p_tests : list string;
  f2f_tests : list string;
  p2f_tests : list string;
  success : bool;
  error : option string;
  error_code : option string;
  rejection_reason : option string;
  has_new_test_file : bool;
}.

(** The dataclass defaults, with [has_new_test_file] as given. *)
Definition initial (has_new : bool) : t :=
  mk [] [] [] [] false None None None has_new.

Definition with_error (r : t) (msg : option string) (code : string) : t :=
  mk (f2p_tests r) (p2p_tests r) (f2f_tests r) (p2f_tests r)
     (success r) msg (Some code) (rejection_reason r) (has_new_test_file r).

Definition has_valid_f2p (r : t) : bool := (0 <? length (f2p_tests r))%nat.
Definition has_valid_p2p (r : t) : bool := (0 <? length (p2p_tests r))%nat.

(** [self.error_code == code] *)
Definition error_code_is (r : t) (code : string) : bool :=
  bool_decide (error_code r = Some code).

(** The [verdict] property.  [if self.rejection_reason] holds for a reason
    that is a string and is not empty. *)
Definition verdict (r : t) : string :=
  match rejection_reason r with
  | Some (String _ _ as reason) => "REJECTED:" ++ reason
  | _ =>
      if negb (success r) then
        if error_code_is r "BUILD_FAILED" then "BUILD_FAILED"
        else if error_code_is r "TIMEOUT" then "TIMEOUT"
        else if error_code_is r "NO_TESTS" then "NO_TESTS"
        else "UNKNOWN"
      else if has_valid_f2p r && has_valid_p2p r then "VALID"
      else if negb (has_valid_f2p r) then "NO_F2P"
      else "NO_P2P"
  end.
End F2PP2PResult.

(** [TestRunner]: the version check shared by the runners that do not
    override it. *)
Module TestRunner.

(** [s.split(sep)] for a separator of one character. *)
Fixpoint split (sep : ascii) (s : string) : list string :=
  match s with
  | EmptyString => [EmptyString]
  | String c rest =>
      if Ascii.eqb c sep then EmptyString :: split sep rest
      else match split sep rest with
           | [] => [String c EmptyString]
           | part :: parts => String c part :: parts
           end
  end.

(** [_versions_compatible].  An index out of range raises [IndexError],
    which the [except] clause turns into [True]; [and] evaluates its right
    operand only when the first components are equal. *)
Definition _versions_compatible (required current : string) : bool :=
  let req_parts := split "." required in
  let cur_parts := split "." current in
  match req_parts !! 0%nat with
  | None => true
  | Some req0 =>
  match cur_parts !! 0%nat with
  | None => true
  | Some cur0 =>
      if String.eqb req0 cur0 then
        match req_parts !! 1%nat with
        | None => true
        | Some req1 =>
        match cur_parts !! 1%nat with
        | None => true
        | Some cur1 => String.eqb req1 cur1
        end end
      else false
  end end.

(** [check_version_compatible], on what [get_required_version] and
    [get_current_version] return for the repository. *)
Definition check_version_compatible (language : string)
    (required current : option string) : bool * option string :=
  match required with
  | None | Some EmptyString => (true, None)
  | Some required =>
      match current with
      | None | Some EmptyString =>
          (false, Some (language ++ " runtime not installed"))
      | Some current =>
          if negb (_versions_compatible required current) then
            (false, Some ("Repo requires " ++ language ++ " " ++ required
                          ++ ", but " ++ current ++ " is installed"))
          else (true, None)
      end
  end.

End TestRunner.

End Base.

(** ** The regular expressions of [UNSTABLE_PATTERNS]

    [re.search(pattern, s, re.IGNORECASE)] only asks whether some substring
    of [s] belongs to the language of [pattern]; the patterns use no
    back-reference, look-around or anchor, so a matcher by derivatives
    decides it.  Characters are bytes: the model is exact on identifiers
    made of ASCII characters; Python also lets [\d] and [\s] match the
    decimal digits and white space outside ASCII. *)

Module Regex.

Inductive regex : Type :=
  | Never                         (* no string *)
  | Empty                         (* the empty string *)
  | Class (p : ascii -> bool)     (* one character satisfying [p] *)
  | Cat (r1 r2 : regex)
  | Alt (r1 r2 : regex)
  | Star (r : regex).

Fixpoint nullable (r : regex) : bool :=
  match r with
  | Never => false
  | Empty => true
  | Class _ => false
  | Cat r1 r2 => nullable r1 && nullable r2
  | Alt r1 r2 => nullable r1 || nullable r2
  | Star _ => true
  end.

Fixpoint deriv (c : ascii) (r : regex) : regex :=
  match r with
  | Never => Never
  | Empty => Never
  | Class p => if p c then Empty else Never
  | Cat r1 r2 =>
      if nullable r1 then Alt (Cat (deriv c r1) r2) (deriv c r2)
      else Cat (deriv c r1) r2
  | Alt r1 r2 => Alt (deriv c r1) (deriv c r2)
  | Star r1 => Cat (deriv c r1) (Star r1)
  end.

(** [re.fullmatch]: the whole of [s] is in the language of [r]. *)
Fixpoint fullmatch (r : regex) (s : string) : bool :=
  match s with
  | EmptyString => nullable r
  | String c s' => fullmatch (deriv c r) s'
  end.

(** [re.match] as a test: some prefix of [s] is in the language of [r]. *)
Fixpoint match_prefix (r : regex) (s : string) : bool :=
  nullable r ||
  match s with
  | EmptyString => false
  | String c s' => match_prefix (deriv c r) s'
  end.

(** [re.search] as a test: some substring of [s] is in the language. *)
Fixpoint search (r : regex) (s : string) : bool :=
  match_prefix r s ||
  match s with
  | EmptyString => false
  | String _ s' => search r s'
  end.

(** The language of a regular expression: [Matches r s] when the whole of
    [s] is matched by [r]. *)
Inductive Matches : regex → string → Prop :=
  | M_Empty : Matches Empty ""
  | M_Class p c : p c = true → Matches (Class p) (String c "")
  | M_Cat r1 r2 s1 s2 :
      Matches r1 s1 → Matches r2 s2 → Matches (Cat r1 r2) (s1 ++ s2)
  | M_Alt_l r1 r2 s : Matches r1 s → Matches (Alt r1 r2) s
  | M_Alt_r r1 r2 s : Matches r2 s → Matches (Alt r1 r2) s
  | M_Star_nil r : Matches (Star r) ""
  | M_Star_app r s1 s2 :
      Matches r s1 → Matches (Star r) s2 → Matches (Star r) (s1 ++ s2).

(** [s] has a substring in the language of [r]. *)
Definition has_match (r : regex) (s : string) : Prop :=
  ∃ before mid after, s = before ++ mid ++ after ∧ Matches r mid.

(** *** Pattern syntax *)

Definition code (c : ascii) : N := N_of_ascii c.

Definition in_range (lo hi : ascii) (c : ascii) : bool :=
  (code lo <=? code c)%N && (code c <=? code hi)%N.

(** ASCII lower-casing, as [str.lower] acts on ASCII letters. *)
Definition ascii_lower (c : ascii) : ascii :=
  if in_range "A" "Z" c then ascii_of_N (code c + 32) else c.

Fixpoint lower (s : string) : string :=
  match s with
  | EmptyString => EmptyString
  | String c s' => String (ascii_lower c) (lower s')
  end.

(** A literal character, case-sensitive. *)
Definition chr (c : ascii) : regex := Class (Ascii.eqb c).

(** A literal character under [re.IGNORECASE]. *)
Definition lit (c : ascii) : regex :=
  Class (fun x => Ascii.eqb (ascii_lower x) (ascii_lower c)).

(** A literal string under [re.IGNORECASE]. *)
Fixpoint str (s : string) : regex :=
  match s with
  | EmptyString => Empty
  | String c s' => Cat (lit c) (str s')
  end.

(** [\d] *)
Definition is_digit (c : ascii) : bool := in_range "0" "9" c.
Definition digit : regex := Class is_digit.

(** [[a-f0-9]] under [re.IGNORECASE] *)
Definition is_hex (c : ascii) : bool :=
  in_range "a" "f" (ascii_lower c) || in_range "0" "9" c.
Definition hex : regex := Class is_hex.

(** [\s]: the ASCII white space of Python, code points 9-13 and 28-32. *)
Definition is_space (c : ascii) : bool :=
  ((9 <=? code c)%N && (code c <=? 13)%N)
  || ((28 <=? code c)%N && (code c <=? 32)%N).
Definition space : regex := Class is_space.

Definition opt (r : regex) : regex := Alt Empty r.     (* r? *)
Definition plus (r : regex) : regex := Cat r (Star r). (* r+ *)

(** [r{n}] *)
Fixpoint rep (n : nat) (r : regex) : regex :=
  match n with
  | O => Empty
  | S n' => Cat r (rep n' r)
  end.

(** [r{n,m}] and [r{n,}] *)
Definition rep_range (n m : nat) (r : regex) : regex :=
  Cat (rep n r) (rep (m - n) (opt r)).
Definition rep_min (n : nat) (r : regex) : regex :=
  Cat (rep n r) (Star r).

(** [r1 r2 ... rn] *)
Fixpoint cats (rs : list regex) : regex :=
  match rs with
  | [] => Empty
  | r :: rs' => Cat r (cats rs')
  end.

End Regex.

(** ** analyzer.py: the classifier *)

Module Analyzer.

Definition PASSED_STATUSES : gset string := {[ "PASSED"; "XFAIL" ]}.
Definition FAILED_STATUSES : gset string := {[ "FAILED"; "ERROR" ]}.

(** [s in STATUSES] where [s] may be [None] (the result of [dict.get]). *)
Definition status_in (o : option string) (statuses : gset string) : bool :=
  match o with
  | Some s => bool_decide (s ∈ statuses)
  | None => false
  end.

(** [{t for t, s in d.items() if s in statuses}] *)
Definition tests_with_status (statuses : gset string)
    (d : gmap string string) : gset string :=
  dom (filter (λ ts : string * string, ts.2 ∈ statuses) d).

(** [any(s in statuses for s in d.values())] *)
Definition any_value_in (statuses : gset string)
    (d : gmap string string) : bool :=
  existsb (λ ts : string * string, bool_decide (ts.2 ∈ statuses))
          (map_to_list d).

(** [_test_passed] and [_test_failed] *)
Definition _test_passed (test : string) (status_map : gmap string string) : bool :=
  match status_map !! test with
  | Some s => bool_decide (s ∈ PASSED_STATUSES)
  | None => false
  end.

Definition _test_failed (test : string) (status_map : gmap string string) : bool :=
  match status_map !! test with
  | Some s => bool_decide (s ∈ FAILED_STATUSES)
  | None => true
  end.

Record Report := mkReport {
  FAIL_TO_PASS : list string;
  PASS_TO_PASS : list string;
  PASS_TO_FAIL : list string;
  FAIL_TO_FAIL : list string;
}.

(** The loop
<<
    for t in moved:
        if t not in seen:
            target.append(t)
            seen.add(t)
>>
    returning the final [target]. *)
Fixpoint append_unseen (target : list string) (seen : gset string)
    (moved : list string) : list string :=
  match moved with
  | [] => target
  | t :: rest =>
      if decide (t ∈ seen) then append_unseen target seen rest
      else append_unseen (target ++ [t]) ({[ t ]} ∪ seen) rest
  end.

(** One reclassification block of Rule A: the tests of [source] that are in
    [trigger] leave [source] and are appended to [target].  Returns the new
    [(source, target)]. *)
Definition reclassify (trigger : gset string)
    (source target : list string) : list string * list string :=
  let moved := filter (λ t, t ∈ trigger) source in
  match moved with
  | [] => (source, target)
  | _ :: _ =>
      (filter (λ t, t ∉ moved) source,
       append_unseen target (list_to_set target) moved)
  end.

Definition has_mixed_before (tests_before : gmap string string) : bool :=
  any_value_in PASSED_STATUSES tests_before
  && any_value_in FAILED_STATUSES tests_before.

(** The body of the Rule B loop for one test. *)
Definition classify_transition (tests_before tests_after : gmap string string)
    (result : Report) (test : string) : Report :=
  let status_before := tests_before !! test in
  let status_after := tests_after !! test in
  if status_in status_before FAILED_STATUSES
     && status_in status_after PASSED_STATUSES then
    mkReport (FAIL_TO_PASS result ++ [test]) (PASS_TO_PASS result)
             (PASS_TO_FAIL result) (FAIL_TO_FAIL result)
  else if status_in status_before PASSED_STATUSES
          && status_in status_after PASSED_STATUSES then
    mkReport (FAIL_TO_PASS result) (PASS_TO_PASS result ++ [test])
             (PASS_TO_FAIL result) (FAIL_TO_FAIL result)
  else if status_in status_before PASSED_STATUSES
          && status_in status_after FAILED_STATUSES then
    mkReport (FAIL_TO_PASS result) (PASS_TO_PASS result)
             (PASS_TO_FAIL result ++ [test]) (FAIL_TO_FAIL result)
  else if status_in status_before FAILED_STATUSES
          && status_in status_after FAILED_STATUSES then
    mkReport (FAIL_TO_PASS result) (PASS_TO_PASS result)
             (PASS_TO_FAIL result) (FAIL_TO_FAIL result ++ [test])
  else result.

Definition generate_test_report
    (tests_base tests_before tests_after : gmap string string)
    (has_new_test_file : bool) : Report :=
  let result := mkReport [] [] [] [] in
  if has_new_test_file || negb (has_mixed_before tests_before) then
    let base_passing := tests_with_status PASSED_STATUSES tests_base in
    let after_passing := tests_with_status PASSED_STATUSES tests_after in
    let fail_to_pass :=
      filter (λ t, t ∉ base_passing) (elements after_passing) in
    let pass_to_pass :=
      filter (λ t, t ∈ base_passing) (elements after_passing) in
    let before_passing := tests_with_status PASSED_STATUSES tests_before in
    let '(fail_to_pass, pass_to_pass) :=
      reclassify before_passing fail_to_pass pass_to_pass in
    let before_failing := tests_with_status FAILED_STATUSES tests_before in
    let '(pass_to_pass, fail_to_pass) :=
      reclassify before_failing pass_to_pass fail_to_pass in
    mkReport fail_to_pass pass_to_pass [] []
  else
    let all_tests := dom tests_before ∪ dom tests_after in
    foldl (classify_transition tests_before tests_after) result
          (elements all_tests).

(** *** The validator *)

(** [UNSTABLE_PATTERNS], each compiled with [re.IGNORECASE]. *)
Definition UNSTABLE_PATTERNS : list Regex.regex :=
  let fraction := Regex.opt (Regex.Cat (Regex.lit ".") (Regex.plus Regex.digit)) in
  [ (* \d{10,13} *)
    Regex.rep_range 10 13 Regex.digit;
    (* \d{4}-\d{2}-\d{2}T\d{2}:\d{2}:\d{2} *)
    Regex.cats [Regex.rep 4 Regex.digit; Regex.lit "-";
                Regex.rep 2 Regex.digit; Regex.lit "-";
                Regex.rep 2 Regex.digit; Regex.lit "T";
                Regex.rep 2 Regex.digit; Regex.lit ":";
                Regex.rep 2 Regex.digit; Regex.lit ":";
                Regex.rep 2 Regex.digit];
    (* built in \d+(\.\d+)?s *)
    Regex.cats [Regex.str "built in "; Regex.plus Regex.digit; fraction;
                Regex.lit "s"];
    (* in \d+(\.\d+)?\s*(ms|s|sec|seconds) *)
    Regex.cats [Regex.str "in "; Regex.plus Regex.digit; fraction;
                Regex.Star Regex.space;
                Regex.Alt (Regex.str "ms")
                  (Regex.Alt (Regex.str "s")
                     (Regex.Alt (Regex.str "sec") (Regex.str "seconds")))];
    (* [a-f0-9]{8}-[a-f0-9]{4}-[a-f0-9]{4}-[a-f0-9]{4}-[a-f0-9]{12} *)
    Regex.cats [Regex.rep 8 Regex.hex; Regex.lit "-";
                Regex.rep 4 Regex.hex; Regex.lit "-";
                Regex.rep 4 Regex.hex; Regex.lit "-";
                Regex.rep 4 Regex.hex; Regex.lit "-";
                Regex.rep 12 Regex.hex];
    (* 0x[a-f0-9]{8,} *)
    Regex.cats [Regex.str "0x"; Regex.rep_min 8 Regex.hex] ].

Definition _has_unstable_pattern (test_name : string) : bool :=
  existsb (λ pattern, Regex.search pattern test_name) UNSTABLE_PATTERNS.

(** [language and language.lower() in ('javascript', 'typescript', 'c++', 'cpp')].
    Lower-casing is done on ASCII letters, which decides this membership
    as [str.lower] does: no character outside ASCII lower-cases to a letter
    of these four words. *)
Definition checks_unstable_names (language : option string) : bool :=
  match language with
  | None => false
  | Some l =>
      negb (String.eqb l "")
      && bool_decide (Regex.lower l ∈ ["javascript"; "typescript"; "c++"; "cpp"])
  end.

(** [test in d] *)
Definition in_dict (test : string) (d : gmap string string) : bool :=
  bool_decide (is_Some (d !! test)).

(** A loop [for test in tests: if cond(test): return code]; [None] when the
    loop runs to its end. *)
Fixpoint reject_if (cond : string → bool) (code : string)
    (tests : list string) : option string :=
  match tests with
  | [] => None
  | test :: rest => if cond test then Some code else reject_if cond code rest
  end.

(** Sequencing of checks: the first rejection is returned. *)
Definition or_else (check rest : option string) : option string :=
  match check with
  | Some code => Some code
  | None => rest
  end.
Infix ";;;" := or_else (at level 100, right associativity, only parsing).

(** [sum([test in tests_base, test in tests_before, test in tests_after])] *)
Definition ran_count (tests_base tests_before tests_after : gmap string string)
    (test : string) : nat :=
  (Nat.b2n (in_dict test tests_base) + Nat.b2n (in_dict test tests_before)
   + Nat.b2n (in_dict test tests_after))%nat.

(** The last loop of the validator ("Test didn't run in all 3 stages"). *)
Fixpoint reject_not_in_all_stages
    (tests_base tests_before tests_after : gmap string string)
    (tests : list string) : option string :=
  match tests with
  | [] => None
  | test :: rest =>
      if negb (in_dict test tests_base) && negb (in_dict test tests_before)
         && negb (in_dict test tests_after)
      then Some "test_not_in_all_stages"
      else if (ran_count tests_base tests_before tests_after test <? 3)%nat then
        let in_new_test_file := negb (in_dict test tests_base) in
        if negb in_new_test_file then Some "test_not_in_all_stages"
        else reject_not_in_all_stages tests_base tests_before tests_after rest
      else reject_not_in_all_stages tests_base tests_before tests_after rest
  end.

(** The blocks of the validator, one per comment of the source; each gives
    the rejection it returns, or [None] when it falls through. *)

(* Unstable test names (JS/TS/C++ only) *)
Definition check_unstable_names (language : option string)
    (all_f2p_p2p : list string) : option string :=
  if checks_unstable_names language
  then reject_if _has_unstable_pattern "unstable_test_name" all_f2p_p2p
  else None.

(* Duplicate test names *)
Definition check_duplicates (all_f2p_p2p : list string) : option string :=
  if bool_decide (length all_f2p_p2p
                  ≠ size (list_to_set all_f2p_p2p : gset string))
  then Some "duplicate_test_names" else None.

(* Failed test in base present in P2P *)
Definition check_failed_base (tests_base : gmap string string)
    (p2p_tests : list string) : option string :=
  let base_failed := tests_with_status FAILED_STATUSES tests_base in
  reject_if (λ test, bool_decide (test ∈ base_failed))
            "failed_base_in_p2p" p2p_tests.

(* Failed or missing test in after present in F2P/P2P *)
Definition check_failed_after (tests_after : gmap string string)
    (all_f2p_p2p : list string) : option string :=
  let after_failed := tests_with_status FAILED_STATUSES tests_after in
  let after_all := dom tests_after in
  reject_if (λ test, bool_decide (test ∈ after_failed)
                     || bool_decide (test ∉ after_all))
            "failed_after_in_f2p_p2p" all_f2p_p2p.

(* P2P missing in base, not passing in before *)
Definition check_p2p_missing_base (tests_base tests_before : gmap string string)
    (p2p_tests : list string) : option string :=
  let base_all := dom tests_base in
  let before_passed := tests_with_status PASSED_STATUSES tests_before in
  reject_if (λ test, bool_decide (test ∉ base_all)
                     && bool_decide (test ∉ before_passed))
            "p2p_missing_base_not_passing_before" p2p_tests.

Definition validate_f2p_p2p_result
    (f2p_tests p2p_tests : list string)
    (tests_base tests_before tests_after : gmap string string)
    (language : option string) : option string :=
  match f2p_tests, p2p_tests with
  | [], _ => Some "empty_f2p"
  | _ :: _, [] => Some "empty_p2p"
  | _ :: _, _ :: _ =>
      let all_f2p_p2p := (f2p_tests ++ p2p_tests)%list in
      check_unstable_names language all_f2p_p2p ;;;
      check_duplicates all_f2p_p2p ;;;
      check_failed_base tests_base p2p_tests ;;;
      check_failed_after tests_after all_f2p_p2p ;;;
      check_p2p_missing_base tests_base tests_before p2p_tests ;;;
      (* Test didn't run in all 3 stages *)
      reject_not_in_all_stages tests_base tests_before tests_after all_f2p_p2p
  end.

(** *** The orchestrator: [F2PP2PAnalyzer.analyze] from the package loop on

    Everything the loop obtains from git, the registry and the runner of a
    package is an input: which runner was found, the two runtime checks and
    the [TestResult] of [_run_at_commit] at each of the three stages. *)

Import Base.

Record PackageRun := mkPackageRun {
  (* path relative to the repository; [None]: the repository root itself *)
  pkg_rel : option string;
  (* [(runner.name, runner.language)] of [_get_runner_for_package] *)
  pkg_runner : option (string * string);
  check_runtime : bool * string;
  check_version_compatible : bool * option string;
  base_result : TestResult.t;
  before_result : TestResult.t;
  after_result : TestResult.t;
}.

Definition pkg_name (pkg : PackageRun) : string :=
  match pkg_rel pkg with Some rel => rel | None => "." end.

Definition pkg_prefix (pkg : PackageRun) : string :=
  match pkg_rel pkg with
  | Some _ => "[" ++ pkg_name pkg ++ "] "
  | None => ""
  end.

Record LoopState := mkLoopState {
  all_tests_base : gmap string string;
  all_tests_before : gmap string string;
  all_tests_after : gmap string string;
  errors : list string;
  packages_tested : nat;
  packages_no_runner : list string;
}.

Definition initial_state : LoopState := mkLoopState ∅ ∅ ∅ [] 0 [].

(** [needle in s] for strings *)
Fixpoint contains (needle s : string) : bool :=
  String.prefix needle s ||
  match s with
  | EmptyString => false
  | String _ s' => contains needle s'
  end.

(** [r.error and "checkout" in r.error.lower()] *)
Definition is_checkout_error (r : TestResult.t) : bool :=
  match TestResult.error r with
  | Some e => negb (String.eqb e "") && contains "checkout" (Regex.lower e)
  | None => false
  end.

(** [r.error] as a condition *)
Definition has_error (r : TestResult.t) : bool :=
  match TestResult.error r with
  | Some e => negb (String.eqb e "")
  | None => false
  end.

(** [f"{e}"] for an optional string *)
Definition show_error (e : option string) : string :=
  match e with Some e => e | None => "None" end.

(** The two loops
<<
    for t in r.passed: d[prefix + t] = "PASSED"
    for t in r.failed: d[prefix + t] = "FAILED"
>> *)
Definition record_outcomes (prefix : string) (r : TestResult.t)
    (d : gmap string string) : gmap string string :=
  let d := foldl (λ d t, <[prefix ++ t := "PASSED"]> d) d (TestResult.passed r) in
  foldl (λ d t, <[prefix ++ t := "FAILED"]> d) d (TestResult.failed r).

Definition add_error (st : LoopState) (msg : string) : LoopState :=
  mkLoopState (all_tests_base st) (all_tests_before st) (all_tests_after st)
              (errors st ++ [msg])%list (packages_tested st) (packages_no_runner st).

(** One iteration of the package loop: [inl msg] is the early return with
    [RUNTIME_VERSION_MISMATCH], [inr st] the state at the end of the
    iteration (by [continue] or by reaching its last statement). *)
Definition analyze_package (st : LoopState) (pkg : PackageRun)
    : option string + LoopState :=
  match pkg_runner pkg with
  | None =>
      inr (mkLoopState (all_tests_base st) (all_tests_before st)
             (all_tests_after st) (errors st) (packages_tested st)
             (packages_no_runner st ++ [pkg_name pkg])%list)
  | Some _ =>
      let '(runtime_ok, runtime_msg) := check_runtime pkg in
      if negb runtime_ok then
        inr (add_error st
               (pkg_name pkg ++ ": Runtime not available - " ++ runtime_msg))
      else
      let '(version_ok, version_msg) := check_version_compatible pkg in
      if negb version_ok then inl version_msg
      else
      let prefix := pkg_prefix pkg in
      (* Run 1 *)
      if is_checkout_error (base_result pkg) then
        inr (add_error st (pkg_name pkg ++ " base: "
                           ++ show_error (TestResult.error (base_result pkg))))
      else
      let st1 := mkLoopState
        (record_outcomes prefix (base_result pkg) (all_tests_base st))
        (all_tests_before st) (all_tests_after st)
        (errors st) (packages_tested st) (packages_no_runner st) in
      (* Run 2 *)
      if is_checkout_error (before_result pkg) then
        inr (add_error st1 (pkg_name pkg ++ " before: "
                            ++ show_error (TestResult.error (before_result pkg))))
      else
      let st2 := mkLoopState (all_tests_base st1)
        (record_outcomes prefix (before_result pkg) (all_tests_before st1))
        (all_tests_after st1)
        (errors st1) (packages_tested st1) (packages_no_runner st1) in
      (* Run 3 *)
      if is_checkout_error (after_result pkg) then
        inr (add_error st2 (pkg_name pkg ++ " after: "
                            ++ show_error (TestResult.error (after_result pkg))))
      else
      let st3 := mkLoopState (all_tests_base st2) (all_tests_before st2)
        (record_outcomes prefix (after_result pkg) (all_tests_after st2))
        (errors st2) (S (packages_tested st2)) (packages_no_runner st2) in
      if has_error (base_result pkg) && has_error (before_result pkg)
         && has_error (after_result pkg)
      then inr (add_error st3 (pkg_name pkg ++ ": Tests failed at all commits"))
      else inr st3
  end.

Fixpoint analyze_packages (st : LoopState) (pkgs : list PackageRun)
    : option string + LoopState :=
  match pkgs with
  | [] => inr st
  | pkg :: rest =>
      match analyze_package st pkg with
      | inl msg => inl msg
      | inr st' => analyze_packages st' rest
      end
  end.

(** Python's [sorted] on a list of strings. *)
Definition string_le (a b : string) : Prop := String.leb a b = true.
#[global] Instance string_le_dec a b : Decision (string_le a b).
Proof. unfold string_le. apply _. Defined.

Definition sorted (l : list string) : list string := merge_sort string_le l.

Definition supported : string :=
  "JavaScript/TypeScript, Python, Go, Rust, Ruby, Java, .NET, C/C++, Scala".

(** [analyze], from the package loop to the end.  [language] is the
    [language] attribute of the runner detected for the first affected
    package after the loop, [None] when no runner is detected.  The two
    returns that precede the loop (NO_CHANGED_FILES, NO_TEST_FILES) leave
    the four lists of the result empty, like the early returns below. *)
Definition analyze (has_new_test_file : bool) (affected_packages : list PackageRun)
    (language : option string) : F2PP2PResult.t :=
  let result := F2PP2PResult.initial has_new_test_file in
  match analyze_packages initial_state affected_packages with
  | inl version_msg =>
      F2PP2PResult.with_error result version_msg "RUNTIME_VERSION_MISMATCH"
  | inr st =>
      if (packages_tested st =? 0)%nat then
        match packages_no_runner st, errors st with
        | _ :: _, _ =>
            F2PP2PResult.with_error result
              (Some ("No supported test runner found for: "
                     ++ String.concat ", " (packages_no_runner st)
                     ++ ". Supported: " ++ supported))
              "NO_TEST_RUNNER"
        | [], _ :: _ =>
            F2PP2PResult.with_error result
              (Some (String.concat "; " (errors st))) "BUILD_FAILED"
        | [], [] =>
            F2PP2PResult.with_error result
              (Some ("No test runner detected. Supported languages: "
                     ++ supported))
              "NO_TEST_RUNNER"
        end
      else if bool_decide (all_tests_after st = ∅)
              && negb (bool_decide (errors st = [])) then
        F2PP2PResult.with_error result
          (Some (String.concat "; " (errors st))) "BUILD_FAILED"
      else
        let report := generate_test_report (all_tests_base st)
                        (all_tests_before st) (all_tests_after st)
                        has_new_test_file in
        let f2p := sorted (FAIL_TO_PASS report) in
        let p2p := sorted (PASS_TO_PASS report) in
        let f2f := sorted (FAIL_TO_FAIL report) in
        let p2f := sorted (PASS_TO_FAIL report) in
        let rejection := validate_f2p_p2p_result f2p p2p (all_tests_base st)
                           (all_tests_before st) (all_tests_after st)
                           language in
        match rejection with
        | Some (String _ _ as reason) =>
            F2PP2PResult.mk f2p p2p f2f p2f false None None (Some reason)
                            has_new_test_file
        | _ =>
            F2PP2PResult.mk f2p p2p f2f p2f true None None None
                            has_new_test_file
        end
  end.

(** *** The helpers around the loop *)

(** [_result_to_status_map]: three loops of assignments into one dict. *)
Definition _result_to_status_map (result : TestResult.t) : gmap string string :=
  let status_map : gmap string string := ∅ in
  let status_map :=
    foldl (λ d t, <[t := "PASSED"]> d) status_map (TestResult.passed result) in
  let status_map :=
    foldl (λ d t, <[t := "FAILED"]> d) status_map (TestResult.failed result) in
  foldl (λ d t, <[t := "SKIPPED"]> d) status_map (TestResult.skipped result).

(** [_filter_test_files].  [language_config] is [None] when
    [self.language_config] is empty (no language hint, or no configuration
    for it); otherwise it carries [is_test_file_path(., config)], a function
    of another package.  Lower-casing is done on ASCII letters, which
    decides the three containments as [str.lower] does: no character
    outside ASCII lower-cases to a letter of the needles. *)
Definition _filter_test_files (language_config : option (string → bool))
    (changed_files : list string) : list string :=
  List.filter
    (λ f, match language_config with
          | Some is_test_file_path => is_test_file_path f
          | None =>
              existsb (λ p, contains p (Regex.lower f))
                      ["test"; "spec"; "__tests__"]
          end)
    changed_files.

(** [_get_new_files].  [added] is the set of paths that [git diff
    --diff-filter=A] lists, [None] when the command fails or raises. *)
Definition _get_new_files (added : option (gset string))
    (test_files : list string) : list string :=
  match added with
  | Some added => List.filter (λ f, bool_decide (f ∈ added)) test_files
  | None => []
  end.

(** [_run_at_commit].  [checkout] is [Some e] when [_git_checkout] raises
    an exception whose text is [e]; [install] and [run] are what
    [runner.install_deps] and [runner.run_tests] do. *)
Inductive InstallOutcome : Type :=
  | Installed (success : bool) (error_msg : string)
  | InstallTimedOut (e : string)
  | InstallRaised (e : string).

Inductive RunOutcome : Type :=
  | Ran (result : TestResult.t)
  | RunTimedOut (e : string)
  | RunRaised (e : string).

Definition _run_at_commit (checkout : option string) (install : InstallOutcome)
    (run : RunOutcome) : TestResult.t :=
  match checkout with
  | Some e => TestResult.of_error ("Checkout failed: " ++ e)
  | None =>
      match install with
      | Installed false error_msg =>
          TestResult.of_error ("Install failed: " ++ error_msg)
      | InstallTimedOut e => TestResult.of_error ("Install timeout: " ++ e)
      | InstallRaised e => TestResult.of_error ("Install error: " ++ e)
      | Installed true _ =>
          match run with
          | Ran result => result
          | RunTimedOut e => TestResult.of_error ("Test timeout: " ++ e)
          | RunRaised e => TestResult.of_error ("Test error: " ++ e)
          end
      end
  end.

(** [F2PP2PAnalyzer.analyze] as a whole: the two returns that precede the
    package loop, then [analyze].  [changed_files] is [pr_files], or the
    result of [_get_all_changed_files] when [pr_files] is empty. *)
Definition F2PP2PAnalyzer_analyze (changed_files : list string)
    (language_config : option (string → bool)) (added : option (gset string))
    (affected_packages : list PackageRun) (language : option string)
    : F2PP2PResult.t :=
  let result := F2PP2PResult.initial false in
  match changed_files with
  | [] =>
      F2PP2PResult.with_error result
        (Some "Could not get changed files from PR") "NO_CHANGED_FILES"
  | _ :: _ =>
      let test_files := _filter_test_files language_config changed_files in
      match test_files with
      | [] =>
          F2PP2PResult.with_error result
            (Some "No test files changed in PR") "NO_TEST_FILES"
      | _ :: _ =>
          let new_test_files := _get_new_files added test_files in
          let has_new_test_file := (0 <? length new_test_files)%nat in
          analyze has_new_test_file affected_packages language
      end
  end.

(** [INSTALL_INSTRUCTIONS] *)
Definition INSTALL_INSTRUCTIONS : gmap string string :=
  let python := "Install Python: https://python.org/downloads/ or 'sudo apt install python3' / 'brew install python'" in
  let node := "Install Node.js: https://nodejs.org/ or 'sudo apt install nodejs' / 'brew install node'" in
  let ruby := "Install Ruby: https://www.ruby-lang.org/en/downloads/ or 'sudo apt install ruby' / 'brew install ruby'" in
  let cmake := "Install CMake: https://cmake.org/download/ or 'sudo apt install cmake' / 'brew install cmake'" in
  list_to_map
    [ ("pytest", python); ("unittest", python);
      ("jest", node); ("vitest", node); ("mocha", node);
      ("go test", "Install Go: https://go.dev/dl/ or 'sudo apt install golang' / 'brew install go'");
      ("cargo test", "Install Rust: https://rustup.rs/ or 'curl --proto '=https' --tlsv1.2 -sSf https://sh.rustup.rs | sh'");
      ("maven", "Install Maven & Java: 'sudo apt install maven' / 'brew install maven'");
      ("gradle", "Install Gradle & Java: 'sudo apt install gradle' / 'brew install gradle'");
      ("sbt", "Install sbt: https://www.scala-sbt.org/download.html or 'brew install sbt'");
      ("rspec", ruby); ("minitest", ruby);
      ("cmake", cmake);
      ("make", "Install Make: 'sudo apt install build-essential' / 'xcode-select --install' (macOS)");
      ("googletest", cmake);
      ("dotnet test", "Install .NET SDK: https://dotnet.microsoft.com/download or 'sudo apt install dotnet-sdk-8.0'") ].

End Analyzer.


(** ** registry.py *)

Module Registry.

(** The runner classes. *)
Inductive RunnerClass : Set :=
  | PytestRunner | UnittestRunner
  | VitestRunner | JestRunner | MochaRunner | NodeTestRunner
  | GoTestRunner
  | CargoRunner
  | GradleRunner | MavenRunner | SbtRunner
  | RSpecRunner | MinitestRunner
  | GoogleTestRunner | CMakeRunner | MakeRunner
  | DotNetRunner.

#[global] Instance RunnerClass_eq_dec : EqDecision RunnerClass.
Proof. solve_decision. Defined.

(** The [name] and [language] class attributes. *)
Definition name (r : RunnerClass) : string :=
  match r with
  | PytestRunner => "pytest" | UnittestRunner => "unittest"
  | VitestRunner => "vitest" | JestRunner => "jest"
  | MochaRunner => "mocha" | NodeTestRunner => "node:test"
  | GoTestRunner => "go test"
  | CargoRunner => "cargo test"
  | GradleRunner => "gradle" | MavenRunner => "maven" | SbtRunner => "sbt"
  | RSpecRunner => "rspec" | MinitestRunner => "minitest"
  | GoogleTestRunner => "gtest" | CMakeRunner => "cmake" | MakeRunner => "make"
  | DotNetRunner => "dotnet"
  end.

Definition language (r : RunnerClass) : string :=
  match r with
  | PytestRunner | UnittestRunner => "Python"
  | VitestRunner | JestRunner | MochaRunner | NodeTestRunner => "JavaScript"
  | GoTestRunner => "Go"
  | CargoRunner => "Rust"
  | GradleRunner | MavenRunner => "Java"
  | SbtRunner => "Scala"
  | RSpecRunner | MinitestRunner => "Ruby"
  | GoogleTestRunner | CMakeRunner | MakeRunner => "C++"
  | DotNetRunner => "C#"
  end.

Definition ALL_RUNNERS : list RunnerClass :=
  [ PytestRunner; UnittestRunner;
    VitestRunner; JestRunner; MochaRunner; NodeTestRunner;
    GoTestRunner;
    CargoRunner;
    GradleRunner; MavenRunner; SbtRunner;
    RSpecRunner; MinitestRunner;
    GoogleTestRunner; CMakeRunner; MakeRunner;
    DotNetRunner ].

Definition LANGUAGE_RUNNERS : gmap string (list RunnerClass) :=
  list_to_map
    [ ("Python", [PytestRunner; UnittestRunner]);
      ("JavaScript", [VitestRunner; JestRunner; MochaRunner; NodeTestRunner]);
      ("TypeScript", [VitestRunner; JestRunner; MochaRunner; NodeTestRunner]);
      ("Go", [GoTestRunner]);
      ("Rust", [CargoRunner]);
      ("Java", [GradleRunner; MavenRunner]);
      ("Scala", [SbtRunner; GradleRunner]);
      ("Kotlin", [GradleRunner; MavenRunner]);
      ("Ruby", [RSpecRunner; MinitestRunner]);
      ("C++", [GoogleTestRunner; CMakeRunner; MakeRunner]);
      ("C", [CMakeRunner; MakeRunner]);
      ("C#", [DotNetRunner]) ].


(** [get_runner_by_name].  Both names are lower-cased on their ASCII
    letters, which is what [str.lower] does on an ASCII name. *)
Definition get_runner_by_name (runner_name : string) : option RunnerClass :=
  let name_lower := Regex.lower runner_name in
  List.find (λ runner_class,
               String.eqb (Regex.lower (name runner_class)) name_lower)
            ALL_RUNNERS.


Section Detection.

(** The repository under inspection enters through two observations:
    whether its path exists, and what [runner_class().detect(repo_path)]
    gives for each class: [Some score], or [None] when the call raises. *)
Variable repo_exists : bool.
Variable detect : RunnerClass → option Z.

(** The candidate list of [get_runner]. *)
Definition candidates (language_hint : option string) : list RunnerClass :=
  let candidates :=
    match language_hint with
    | Some hint =>
        match LANGUAGE_RUNNERS !! hint with
        | Some runners => runners
        | None => []
        end
    | None => []
    end in
  candidates ++ filter (λ r, r ∉ candidates) ALL_RUNNERS.

(** The body of the detection loop on [(best_runner, best_score)]. *)
Definition consider (best : option RunnerClass * Z) (runner_class : RunnerClass)
    : option RunnerClass * Z :=
  match detect runner_class with
  | Some score =>
      if best.2 <? score then (Some runner_class, score) else best
  | None => best
  end.

Definition get_runner (language_hint : option string) : option RunnerClass :=
  if negb repo_exists then None
  else
    let '(best_runner, best_score) :=
      foldl consider (None, 0) (candidates language_hint) in
    match best_runner with
    | Some runner => if 30 <=? best_score then Some runner else None
    | None => None
    end.

(** [sorted(results, key=lambda x: x[1], reverse=True)]: a stable sort by
    decreasing score. *)
Fixpoint insert_by_score (x : RunnerClass * Z) (l : list (RunnerClass * Z))
    : list (RunnerClass * Z) :=
  match l with
  | [] => [x]
  | y :: l' => if x.2 <? y.2 then y :: insert_by_score x l' else x :: y :: l'
  end.

Definition sorted_by_score_desc (l : list (RunnerClass * Z))
    : list (RunnerClass * Z) :=
  foldr insert_by_score [] l.

(** The loop of [get_all_detected_runners]. *)
Definition collect (results : list (RunnerClass * Z)) (runner_class : RunnerClass)
    : list (RunnerClass * Z) :=
  match detect runner_class with
  | Some score =>
      if 0 <? score then results ++ [(runner_class, score)] else results
  | None => results
  end.

Definition get_all_detected_runners : list (RunnerClass * Z) :=
  sorted_by_score_desc (foldl collect [] ALL_RUNNERS).

End Detection.

End Registry.

(** ** analyzer.py: [preflight_check] *)

Module Preflight.

Import Registry.

Record Blocker := mkBlocker {
  code : string;
  message : string;
  install_hint : option string;
}.

(** The [detected] dict: a key that is not set is [None]. *)
Record Detected := mkDetected {
  framework : option string;
  detected_language : option string;
  confidence : option Z;
  runtime : option string;
}.

Record t := mk {
  can_run : bool;
  blockers : list Blocker;
  warnings : list (string * string);   (* (code, message) *)
  detected : Detected;
}.

Definition lock_files : list string :=
  [ "package-lock.json"; "yarn.lock"; "pnpm-lock.yaml"; "Pipfile.lock";
    "poetry.lock"; "Cargo.lock"; "Gemfile.lock" ].

Section Check.

(** The repository enters through [repo_path] as printed, whether it
    exists, the detection scores as in [Registry], [check_runtime] of each
    runner, and [file_exists name] for [(repo_path / name).exists()]. *)
Variable repo_path : string.
Variable repo_exists : bool.
Variable detect : RunnerClass → option Z.
Variable check_runtime : RunnerClass → bool * string.
Variable file_exists : string → bool.

Definition preflight_check (language_hint : option string) : t :=
  if negb repo_exists then
    mk false
       [mkBlocker "REPO_NOT_FOUND" ("Repository not found: " ++ repo_path) None]
       [] (mkDetected None None None None)
  else
    let runners := get_all_detected_runners detect in
    let '(blockers, detected) :=
      match runners with
      | [] =>
          ([mkBlocker "NO_TEST_FRAMEWORK" "No test framework detected" None],
           mkDetected None None None None)
      | (best_runner, best_score) :: _ =>
          let '(runtime_ok, runtime_msg) := check_runtime best_runner in
          if negb runtime_ok then
            let install_hint :=
              match Analyzer.INSTALL_INSTRUCTIONS !! name best_runner with
              | Some hint => hint
              | None => "Please install " ++ language best_runner ++ " runtime"
              end in
            ([mkBlocker "MISSING_RUNTIME"
                (language best_runner ++ " runtime not found: " ++ runtime_msg)
                (Some install_hint)],
             mkDetected (Some (name best_runner)) (Some (language best_runner))
                        (Some best_score) None)
          else
            ([],
             mkDetected (Some (name best_runner)) (Some (language best_runner))
                        (Some best_score) (Some runtime_msg))
      end in
    let warnings : list (string * string) := [] in
    let warnings :=
      if negb (existsb file_exists lock_files)
      then (warnings ++ [("NO_LOCK_FILE", "No lock file found")])%list
      else warnings in
    let warnings :=
      if file_exists "docker-compose.yml" || file_exists "docker-compose.yaml"
      then (warnings ++ [("DOCKER_REQUIRED", "docker-compose.yml found")])%list
      else warnings in
    let warnings :=
      if file_exists ".env.example" || file_exists ".env.sample"
      then (warnings
            ++ [("ENV_VARS_NEEDED", "Environment variables may be required")])%list
      else warnings in
    mk (length blockers =? 0)%nat blockers warnings detected.

End Check.

End Preflight.

(** ** javascript.py: the error field of a test run *)

Module Javascript.

Import Base.

(** What [self._run_command(cmd, cwd, timeout)] does: it returns
    [(returncode, stdout, stderr)] or raises [TestTimeoutError(message)].
    (A command that is not found raises [RuntimeNotFoundError], which
    [run_tests] lets through: no [TestResult] is returned then.) *)
Inductive CommandOutcome : Type :=
  | Completed (returncode : Z) (stdout stderr : string)
  | TimedOut (message : string).

(** [str(n)] for an integer *)
Definition str_of_int (n : Z) : string :=
  DecimalString.NilZero.string_of_int (Z.to_int n).

Definition newline : string := String (ascii_of_nat 10) EmptyString.

Definition is_empty {A} (l : list A) : bool :=
  match l with [] => true | _ :: _ => false end.

(** *** [NodeTestRunner._parse_tap_output]

    Lines are byte strings read as UTF-8.  The model is exact on output
    whose white space and digits are ASCII; Python's [\s], [\d] and
    [str.strip] also know the white space and digits outside ASCII. *)

(** [output.split('\n')] *)
Fixpoint split_lines (output : string) : list string :=
  match output with
  | EmptyString => [EmptyString]
  | String c rest =>
      if Ascii.eqb c (ascii_of_nat 10) then EmptyString :: split_lines rest
      else match split_lines rest with
           | [] => [String c EmptyString]
           | line :: lines => String c line :: lines
           end
  end.

(** [s.strip()] *)
Fixpoint lstrip (s : string) : string :=
  match s with
  | EmptyString => EmptyString
  | String c s' => if Regex.is_space c then lstrip s' else s
  end.

Fixpoint rstrip (s : string) : string :=
  match s with
  | EmptyString => EmptyString
  | String c s' =>
      match rstrip s' with
      | EmptyString => if Regex.is_space c then EmptyString else String c EmptyString
      | r => String c r
      end
  end.

Definition strip (s : string) : string := rstrip (lstrip s).

(** [s] without the prefix [p], when it starts with [p]. *)
Fixpoint strip_prefix (p s : string) : option string :=
  match p, s with
  | EmptyString, _ => Some s
  | String a p', String b s' =>
      if Ascii.eqb a b then strip_prefix p' s' else None
  | String _ _, EmptyString => None
  end.

(** The longest prefix of characters satisfying [f], and what follows. *)
Fixpoint span (f : ascii → bool) (s : string) : string * string :=
  match s with
  | EmptyString => (EmptyString, EmptyString)
  | String c s' =>
      if f c then let '(taken, rest) := span f s' in (String c taken, rest)
      else (EmptyString, s)
  end.

(** [\s+\(\d+\.?\d*m?s\)], case-sensitive *)
Definition duration : Regex.regex :=
  Regex.cats [Regex.plus Regex.space; Regex.chr "("; Regex.plus Regex.digit;
              Regex.opt (Regex.chr "."); Regex.Star Regex.digit;
              Regex.opt (Regex.chr "m"); Regex.chr "s"; Regex.chr ")"].

(** Group 1 of [(.+?)(?:\s+\(\d+\.?\d*m?s\))?$] on the non-empty text
    [String c rest]: the shortest non-empty prefix followed by a duration
    and the end, or by the end. *)
Fixpoint lazy_name (c : ascii) (rest : string) : string :=
  if Regex.fullmatch duration rest then String c EmptyString
  else match rest with
       | EmptyString => String c EmptyString
       | String c' rest' => String c (lazy_name c' rest')
       end.

(** [re.match(mark + r'\s+(.+?)(?:\s+\(\d+\.?\d*m?s\))?$', line)], giving
    [group(1).strip()].  The greedy [\s+] takes all the white space after
    the mark; it gives one character back to the group only when nothing
    follows the white space. *)
Definition match_mark (mark line : string) : option string :=
  match strip_prefix mark line with
  | None => None
  | Some text =>
      match span Regex.is_space text with
      | (EmptyString, _) => None
      | (String _ EmptyString, EmptyString) => None
      | (String _ (String _ _ as spaces), EmptyString) =>
          Some (strip (String.substring (String.length spaces - 1) 1 spaces))
      | (String _ _, String c rest) => Some (strip (lazy_name c rest))
      end
  end.

(** [re.match(word + r' \d+ - (.+)', line)], giving [group(1).strip()],
    for [word] = "ok" or "not ok". *)
Definition match_numbered (word line : string) : option string :=
  match strip_prefix (word ++ " ") line with
  | None => None
  | Some text =>
      match span Regex.is_digit text with
      | (EmptyString, _) => None
      | (String _ _, rest) =>
          match strip_prefix " - " rest with
          | Some (String _ _ as name) => Some (strip name)
          | _ => None
          end
      end
  end.

(** The body of the loop of [_parse_tap_output] on
    [(passed, failed, skipped)]. *)
Definition parse_tap_line (acc : list string * list string * list string)
    (line : string) : list string * list string * list string :=
  let '(passed, failed, skipped) := acc in
  let line := strip line in
  match match_mark "✔" line with
  | Some name => ((passed ++ [name])%list, failed, skipped)
  | None =>
  match match_mark "✖" line with
  | Some name => (passed, (failed ++ [name])%list, skipped)
  | None =>
  match match_mark "⊘" line with
  | Some name => (passed, failed, (skipped ++ [name])%list)
  | None =>
  match match_numbered "ok" line with
  | Some name => ((passed ++ [name])%list, failed, skipped)
  | None =>
  match match_numbered "not ok" line with
  | Some name => (passed, (failed ++ [name])%list, skipped)
  | None => acc
  end end end end end.

Definition _parse_tap_output (output : string)
    : list string * list string * list string :=
  foldl parse_tap_line ([], [], []) (split_lines output).

Definition NodeTestRunner_run_tests (outcome : CommandOutcome) : TestResult.t :=
  match outcome with
  | Completed returncode stdout stderr =>
      let output := stdout ++ newline ++ stderr in
      let '(passed, failed, skipped) := _parse_tap_output output in
      let result := TestResult.mk passed failed skipped None (Some output) in
      if negb (returncode =? 0) && is_empty failed then
        TestResult.mk passed failed skipped
          (Some ("node --test failed with exit code " ++ str_of_int returncode))
          (Some output)
      else result
  | TimedOut message => TestResult.of_error message
  end.

Section JestRunner.

(** The two structured sources of [JestRunner.run_tests]:
    - [json_file]: [Some lists] when the [--outputFile] exists, is not empty
      and [parse_jest_json] returns normally, the lists being its
      [(passed, failed, skipped)];
    - [_parse_jest_stdout]: [Some lists] when [json.loads(stdout)] succeeds,
      the lists being those of [self._parse_jest_stdout]. *)
Variable json_file : option (list string * list string * list string).
Variable _parse_jest_stdout :
  string → option (list string * list string * list string).

Definition JestRunner_run_tests (outcome : CommandOutcome) : TestResult.t :=
  match outcome with
  | Completed returncode stdout stderr =>
      let output := stdout ++ newline ++ stderr in
      match json_file with
      | Some (passed, failed, skipped) =>
          TestResult.mk passed failed skipped None (Some output)
      | None =>
          match _parse_jest_stdout stdout with
          | Some (passed, failed, skipped) =>
              TestResult.mk passed failed skipped None (Some output)
          | None =>
              if negb (returncode =? 0) then
                TestResult.mk [] [] []
                  (Some ("Jest failed with exit code " ++ str_of_int returncode))
                  (Some output)
              else TestResult.mk [] [] [] None (Some output)
          end
      end
  | TimedOut message => TestResult.of_error message
  end.

End JestRunner.

Section VitestRunner.

(** [_parse_vitest_output]: [Some lists] when [json.loads(stdout)]
    succeeds, the lists being those of [self._parse_vitest_output]. *)
Variable _parse_vitest_output :
  string → option (list string * list string * list string).

Definition VitestRunner_run_tests (outcome : CommandOutcome) : TestResult.t :=
  match outcome with
  | Completed returncode stdout stderr =>
      let output := stdout ++ newline ++ stderr in
      match _parse_vitest_output stdout with
      | Some (passed, failed, skipped) =>
          TestResult.mk passed failed skipped None (Some output)
      | None =>
          if negb (returncode =? 0) then
            TestResult.mk [] [] []
              (Some ("Vitest failed with exit code " ++ str_of_int returncode))
              (Some output)
          else TestResult.mk [] [] [] None (Some output)
      end
  | TimedOut message => TestResult.of_error message
  end.

End VitestRunner.

Section MochaRunner.

(** As for Jest: the reporter's output file read by [parse_mocha_json],
    then [json.loads(stdout)] read by [self._parse_mocha_stdout]. *)
Variable json_file : option (list string * list string * list string).
Variable _parse_mocha_stdout :
  string → option (list string * list string * list string).

Definition MochaRunner_run_tests (outcome : CommandOutcome) : TestResult.t :=
  match outcome with
  | Completed returncode stdout stderr =>
      let output := stdout ++ newline ++ stderr in
      match json_file with
      | Some (passed, failed, skipped) =>
          TestResult.mk passed failed skipped None (Some output)
      | None =>
          match _parse_mocha_stdout stdout with
          | Some (passed, failed, skipped) =>
              TestResult.mk passed failed skipped None (Some output)
          | None =>
              if negb (returncode =? 0) then
                TestResult.mk [] [] []
                  (Some ("Mocha failed with exit code " ++ str_of_int returncode))
                  (Some output)
              else TestResult.mk [] [] [] None (Some output)
          end
      end
  | TimedOut message => TestResult.of_error message
  end.

End MochaRunner.

End Javascript.

(** ** rust.py and parsers.py: [cargo test] *)

Module Rust.

Import Base Javascript.

(** [\w] on ASCII: letters, digits and the underscore. *)
Definition is_word (c : ascii) : bool :=
  Regex.in_range "a" "z" c || Regex.in_range "A" "Z" c
  || Regex.in_range "0" "9" c || Ascii.eqb c "_".

Inductive Status : Set := ok | FAILED | ignored.

(** [re.match(r'^test\s+([\w:]+)\s+\.\.\.\s+(ok|FAILED|ignored)', line)],
    giving [(group(1), group(2))].  Each greedy run is followed by a
    character outside its class, so the match takes every run whole. *)
Definition match_cargo_line (line : string) : option (string * Status) :=
  match strip_prefix "test" line with
  | None => None
  | Some text =>
  match span Regex.is_space text with
  | (EmptyString, _) => None
  | (String _ _, text) =>
  match span (λ c, is_word c || Ascii.eqb c ":") text with
  | (EmptyString, _) => None
  | (String _ _ as test_name, text) =>
  match span Regex.is_space text with
  | (EmptyString, _) => None
  | (String _ _, text) =>
  match strip_prefix "..." text with
  | None => None
  | Some text =>
  match span Regex.is_space text with
  | (EmptyString, _) => None
  | (String _ _, text) =>
      if String.prefix "ok" text then Some (test_name, ok)
      else if String.prefix "FAILED" text then Some (test_name, FAILED)
      else if String.prefix "ignored" text then Some (test_name, ignored)
      else None
  end end end end end end.

(** The body of the loop of [parse_cargo_test_output]. *)
Definition parse_cargo_line (acc : list string * list string * list string)
    (line : string) : list string * list string * list string :=
  let '(passed, failed, skipped) := acc in
  match match_cargo_line (strip line) with
  | Some (test_name, ok) => ((passed ++ [test_name])%list, failed, skipped)
  | Some (test_name, FAILED) => (passed, (failed ++ [test_name])%list, skipped)
  | Some (test_name, ignored) => (passed, failed, (skipped ++ [test_name])%list)
  | None => acc
  end.

Definition parse_cargo_test_output (output : string)
    : list string * list string * list string :=
  foldl parse_cargo_line ([], [], []) (split_lines output).

Definition CargoRunner_run_tests (outcome : CommandOutcome) : TestResult.t :=
  match outcome with
  | Completed returncode stdout stderr =>
      let output := stdout ++ newline ++ stderr in
      let '(passed, failed, skipped) := parse_cargo_test_output output in
      let result := TestResult.mk passed failed skipped None (Some output) in
      if (TestResult.total_tests result =? 0)%nat then
        if Analyzer.contains "0 passed" output
           && Analyzer.contains "0 failed" output then
          TestResult.mk passed failed skipped (Some "No tests found")
                        (Some output)
        else if negb (returncode =? 0) then
          TestResult.mk passed failed skipped
            (Some ("cargo test failed with exit code " ++ str_of_int returncode))
            (Some output)
        else result
      else result
  | TimedOut message => TestResult.of_error message
  end.

End Rust.

(** ** cli.py: the exit status of an analysis *)

Module Cli.

Import Base.

(** What the last part of [main] does once [analyze_f2p_p2p] has returned
    [result]: it prints, then returns the exit status.  Printing leaves no
    trace here, except that the text report of a failed analysis reads
    [result.suggested_action], an attribute that [F2PP2PResult] does not
    have: that access raises [AttributeError]. *)
Inductive Outcome : Set :=
  | Return (status : Z)
  | AttributeError.

Definition exit_status (result : F2PP2PResult.t) : Z :=
  if F2PP2PResult.success result && F2PP2PResult.has_valid_f2p result
     && F2PP2PResult.has_valid_p2p result
  then 0 else 1.

Definition main_analysis (json : bool) (result : F2PP2PResult.t) : Outcome :=
  if json then Return (exit_status result)
  else if F2PP2PResult.success result then Return (exit_status result)
  else AttributeError.

End Cli.

(** ** The specification's vocabulary

    The notions the specification is written in, stated on the outcome maps
    themselves; the theorems below compare the code with them. *)

Module Spec.

(** [P(M)]: tests whose status in [M] is PASSED or XFAIL; [F(M)]: tests
    whose status is FAILED or ERROR. *)
Definition P (M : gmap string string) (t : string) : Prop :=
  M !! t = Some "PASSED" ∨ M !! t = Some "XFAIL".
Definition F (M : gmap string string) (t : string) : Prop :=
  M !! t = Some "FAILED" ∨ M !! t = Some "ERROR".

(** "mixed": at least one passing and at least one failing entry. *)
#[global] Instance P_dec M t : Decision (P M t).
Proof. unfold P. apply _. Defined.
#[global] Instance F_dec M t : Decision (F M t).
Proof. unfold F. apply _. Defined.

Definition mixed (M : gmap string string) : Prop :=
  (∃ t, P M t) ∧ (∃ t, F M t).

Definition rule_A (has_new_test_file : bool) (before : gmap string string) : Prop :=
  has_new_test_file = true ∨ ¬ mixed before.
Definition rule_B (has_new_test_file : bool) (before : gmap string string) : Prop :=
  has_new_test_file = false ∧ mixed before.

(** Rule A.  Initial: [F2P := P(after) \ P(base)], [P2P := P(after) ∩ P(base)]. *)
Definition F2P_initial (base after : gmap string string) (t : string) : Prop :=
  P after t ∧ ¬ P base t.
Definition P2P_initial (base after : gmap string string) (t : string) : Prop :=
  P after t ∧ P base t.

(** First pass: the tests of F2P that are in [P(before)] move to P2P. *)
Definition F2P_first (base before after : gmap string string) (t : string) : Prop :=
  F2P_initial base after t ∧ ¬ P before t.
Definition P2P_first (base before after : gmap string string) (t : string) : Prop :=
  P2P_initial base after t ∨ (F2P_initial base after t ∧ P before t).

(** Second pass: the tests then in P2P that are in [F(before)] move to F2P. *)
Definition F2P_final (base before after : gmap string string) (t : string) : Prop :=
  F2P_first base before after t ∨ (P2P_first base before after t ∧ F before t).
Definition P2P_final (base before after : gmap string string) (t : string) : Prop :=
  P2P_first base before after t ∧ ¬ F before t.

(** The validator.  [unstable_name t]: some substring of [t] is in the
    language of one of the unstable patterns. *)
Definition unstable_name (t : string) : Prop :=
  ∃ r, r ∈ Analyzer.UNSTABLE_PATTERNS ∧ Regex.has_match r t.

(** The languages for which identifiers are screened: JavaScript,
    TypeScript and C++, in any letter case, C++ under either of its two
    spellings. *)
Definition screened_language (language : option string) : Prop :=
  ∃ l, language = Some l
       ∧ Regex.lower l ∈ ["javascript"; "typescript"; "c++"; "cpp"].

(** No rule of the table before [test_not_in_all_stages] rejects. *)
Definition earlier_rules_pass (f2p p2p : list string)
    (base before after : gmap string string) (language : option string) : Prop :=
  f2p ≠ [] ∧ p2p ≠ []
  ∧ ¬ (screened_language language ∧ ∃ t, t ∈ (f2p ++ p2p)%list ∧ unstable_name t)
  ∧ NoDup (f2p ++ p2p)%list
  ∧ (∀ t, t ∈ p2p → ¬ F base t)
  ∧ (∀ t, t ∈ (f2p ++ p2p)%list → is_Some (after !! t) ∧ ¬ F after t)
  ∧ (∀ t, t ∈ p2p → base !! t = None → P before t).







(** The registry.  [max_score detect cs m]: [m] is the greatest score that
    [detect] gives on the candidates [cs]. *)
Definition max_score (detect : Registry.RunnerClass → option Z)
    (cs : list Registry.RunnerClass) (m : Z) : Prop :=
  (∃ r, r ∈ cs ∧ detect r = Some m)
  ∧ ∀ r s, r ∈ cs → detect r = Some s → s ≤ m.

(** Decreasing score. *)
Definition score_ge (a b : Registry.RunnerClass * Z) : Prop := b.2 ≤ a.2.

(** A status that classification ignores: the test is missing from the map
    or SKIPPED in it. *)
Definition ignored (M : gmap string string) (t : string) : Prop :=
  M !! t = None ∨ M !! t = Some "SKIPPED".

(** Lexicographic order on strings, by character code. *)
Definition lex_lt (a b : string) : Prop := String.compare a b = Lt.

End Spec.

(** ** Further notions

    Predicates used to state properties of the code beyond the
    specification's own sentences. *)

Module Notions.

(** The three shapes a result of [analyze] can have: success, rejection by
    the validator, early return with an error code. *)
Definition analysis_outcome (res : Base.F2PP2PResult.t) : Prop :=
  (Base.F2PP2PResult.success res = true
   ∧ Base.F2PP2PResult.rejection_reason res = None
   ∧ Base.F2PP2PResult.error_code res = None
   ∧ Base.F2PP2PResult.f2p_tests res ≠ [] ∧ Base.F2PP2PResult.p2p_tests res ≠ [])
  ∨ (Base.F2PP2PResult.success res = false
     ∧ Base.F2PP2PResult.error_code res = None
     ∧ ∃ a c, Base.F2PP2PResult.rejection_reason res = Some (String a c)
              ∧ String a c ∈ ["empty_f2p"; "empty_p2p"; "unstable_test_name";
                              "failed_base_in_p2p"; "test_not_in_all_stages"])
  ∨ (Base.F2PP2PResult.success res = false
     ∧ Base.F2PP2PResult.rejection_reason res = None
     ∧ Base.F2PP2PResult.f2p_tests res = [] ∧ Base.F2PP2PResult.p2p_tests res = []
     ∧ Base.F2PP2PResult.error_code res
       ∈ [Some "BUILD_FAILED"; Some "RUNTIME_VERSION_MISMATCH";
          Some "NO_TEST_RUNNER"; Some "NO_CHANGED_FILES"; Some "NO_TEST_FILES"]).

(** A package at which the loop returns [RUNTIME_VERSION_MISMATCH]: it has
    a runner whose runtime is available in a version that the package does
    not accept. *)
Definition version_mismatch (pkg : Analyzer.PackageRun) : bool :=
  bool_decide (is_Some (Analyzer.pkg_runner pkg))
  && (Analyzer.check_runtime pkg).1
  && negb (Analyzer.check_version_compatible pkg).1.

(** A package whose three runs all take place: it has a runner, its
    runtime is available, and no stage reports a checkout error. *)
Definition completes (pkg : Analyzer.PackageRun) : bool :=
  bool_decide (is_Some (Analyzer.pkg_runner pkg))
  && (Analyzer.check_runtime pkg).1
  && negb (Analyzer.is_checkout_error (Analyzer.base_result pkg))
  && negb (Analyzer.is_checkout_error (Analyzer.before_result pkg))
  && negb (Analyzer.is_checkout_error (Analyzer.after_result pkg)).

(** The runners of [l] on which [detect] returns, each with its score. *)
Definition scores (detect : Registry.RunnerClass → option Z)
    (l : list Registry.RunnerClass) : list (Registry.RunnerClass * Z) :=
  omap (λ r, match detect r with Some s => Some (r, s) | None => None end) l.

(** The first pair of a list among those of greatest score. *)
Fixpoint first_max (l : list (Registry.RunnerClass * Z))
    : option (Registry.RunnerClass * Z) :=
  match l with
  | [] => None
  | x :: l' =>
      match first_max l' with
      | Some y => if x.2 <? y.2 then Some y else Some x
      | None => Some x
      end
  end.

(** Every character of [s] satisfies [f]. *)
Fixpoint all_chars (f : ascii → bool) (s : string) : bool :=
  match s with
  | EmptyString => true
  | String c s' => f c && all_chars f s'
  end.

(** A version component: a string without a dot. *)
Definition dotless (s : string) : bool :=
  all_chars (λ c, negb (Ascii.eqb c ".")) s.

(** What may follow the minor component of a version: nothing, or a dot
    and more. *)
Definition version_tail (t : string) : Prop :=
  t = "" ∨ ∃ u, t = "." ++ u.

(** [needle] occurs in [s]. *)
Definition substring_of (needle s : string) : Prop :=
  ∃ before after, s = before ++ needle ++ after.

End Notions.

(** ** Concrete inputs

    The scenarios of the specification and a few more, used to run the
    definitions above. *)

Module Examples.

(** "New test, fixed code" *)
Definition base1 : gmap string string :=
  <["T1" := "PASSED"]> (<["T2" := "PASSED"]> ∅).
Definition before1 : gmap string string :=
  <["T1" := "PASSED"]> (<["T2" := "PASSED"]> (<["T_new" := "FAILED"]> ∅)).
Definition after1 : gmap string string :=
  <["T1" := "PASSED"]> (<["T2" := "PASSED"]> (<["T_new" := "PASSED"]> ∅)).

(** "Existing test flipped" *)
Definition base2 : gmap string string :=
  <["T1" := "FAILED"]> (<["T2" := "PASSED"]> ∅).
Definition before2 : gmap string string := base2.
Definition after2 : gmap string string :=
  <["T1" := "PASSED"]> (<["T2" := "PASSED"]> ∅).



(** "Unstable identifier" *)
Definition unstable_id : string := "perf-0x7f8a1e34b000".
Definition after5 : gmap string string :=
  <[unstable_id := "PASSED"]> (<["T1" := "PASSED"]> ∅).
Definition base5 : gmap string string := <["T1" := "PASSED"]> ∅.

(** A JavaScript repository: Vitest and Jest both score 80, node:test 35,
    Make is excluded and the Python detectors find nothing. *)
Definition detect1 (r : Registry.RunnerClass) : option Z :=
  match r with
  | Registry.VitestRunner | Registry.JestRunner => Some 80
  | Registry.NodeTestRunner => Some 35
  | Registry.MochaRunner => Some 10
  | _ => Some 0
  end.

(** One package at the repository root whose three runs give the maps of
    "New test, fixed code"; [T_skip] is reported as skipped at every stage. *)
Definition run1 : Analyzer.PackageRun :=
  Analyzer.mkPackageRun None (Some ("jest", "JavaScript"))
    (true, "v20.11.0") (true, None)
    (Base.TestResult.mk ["T1"; "T2"] [] ["T_skip"] None None)
    (Base.TestResult.mk ["T1"; "T2"] ["T_new"] ["T_skip"] None None)
    (Base.TestResult.mk ["T1"; "T2"; "T_new"] [] ["T_skip"] None None).

(** The output of a [node --test] run whose two tests pass, and of one
    with a failing test. *)
Definition tap_passing : string :=
  "✔ adds numbers (1.5ms)" ++ Javascript.newline ++ "ok 2 - subtracts numbers".
Definition tap_failing : string :=
  "✔ adds numbers (1.5ms)" ++ Javascript.newline ++ "not ok 2 - subtracts numbers".


(** A package without a runner, and a root package whose checkout of the
    head commit fails after two good runs; the state after the latter. *)
Definition run_no_runner : Analyzer.PackageRun :=
  Analyzer.mkPackageRun (Some "api") None (true, "") (true, None)
    (Base.TestResult.mk [] [] [] None None)
    (Base.TestResult.mk [] [] [] None None)
    (Base.TestResult.mk [] [] [] None None).

Definition run_bad_checkout : Analyzer.PackageRun :=
  Analyzer.mkPackageRun None (Some ("jest", "JavaScript")) (true, "v20")
    (true, None)
    (Base.TestResult.mk ["T1"] [] [] None None)
    (Base.TestResult.mk ["T1"] [] [] None None)
    (Analyzer._run_at_commit (Some "git checkout failed: bad object")
       (Analyzer.Installed true "")
       (Analyzer.Ran (Base.TestResult.mk ["T1"] [] [] None None))).

Definition state_bad_checkout : Analyzer.LoopState :=
  match Analyzer.analyze_package Analyzer.initial_state run_bad_checkout with
  | inr st => st
  | inl _ => Analyzer.initial_state
  end.

End Examples.

(** * The matcher decides the language of a pattern *)

Module RegexFacts.

Import Regex.

Lemma append_cons (c : ascii) (s1 s2 : string) :
  String c s1 ++ s2 = String c (s1 ++ s2).
Proof. reflexivity. Qed.

Lemma append_nil_r (s : string) : s ++ "" = s.
Proof. induction s as [|c s IH]; [done | by rewrite append_cons, IH]. Qed.

Lemma append_assoc (s1 s2 s3 : string) : (s1 ++ s2) ++ s3 = s1 ++ s2 ++ s3.
Proof. induction s1 as [|c s1 IH]; [done | by rewrite !append_cons, IH]. Qed.

Lemma append_eq_nil (s1 s2 : string) : s1 ++ s2 = "" → s1 = "" ∧ s2 = "".
Proof. destruct s1; simpl; [done | discriminate]. Qed.

Lemma append_eq_cons (s1 s2 s : string) (c : ascii) :
  s1 ++ s2 = String c s →
  (s1 = "" ∧ s2 = String c s) ∨ ∃ s1', s1 = String c s1' ∧ s = s1' ++ s2.
Proof.
  destruct s1 as [|c1 s1]; simpl; intros Heq; [by left |].
  injection Heq as -> <-. right. by exists s1.
Qed.

Lemma nullable_Matches (r : regex) : nullable r = true ↔ Matches r "".
Proof.
  split.
  - induction r as [| | p | r1 IH1 r2 IH2 | r1 IH1 r2 IH2 | r IH]; simpl;
      try discriminate.
    + constructor.
    + intros [H1 H2]%andb_true_iff.
      change "" with ("" ++ ""). constructor; auto.
    + intros [H1 | H2]%orb_true_iff; [apply M_Alt_l | apply M_Alt_r]; auto.
    + constructor.
  - intros Hm. remember "" as s eqn:Hs.
    induction Hm as [| p c Hp | r1 r2 s1 s2 _ IH1 _ IH2
                     | r1 r2 s _ IH | r1 r2 s _ IH | r | r s1 s2 _ _ _ _];
      simpl; try done.
    + apply append_eq_nil in Hs as [-> ->].
      by rewrite IH1, IH2.
    + by rewrite IH.
    + rewrite IH by done. apply orb_true_r.
Qed.

Lemma deriv_sound (c : ascii) (r : regex) (s : string) :
  Matches (deriv c r) s → Matches r (String c s).
Proof.
  revert s.
  induction r as [| | p | r1 IH1 r2 IH2 | r1 IH1 r2 IH2 | r IH]; simpl; intros s Hm.
  - inversion Hm.
  - inversion Hm.
  - destruct (p c) eqn:Hp; inversion Hm; subst. by constructor.
  - destruct (nullable r1) eqn:Hn.
    + inversion Hm as [| | | ? ? ? Hl | ? ? ? Hr | |]; subst.
      * inversion Hl as [| | ? ? s1 s2 H1 H2 | | | |]; subst.
        change (String c (s1 ++ s2)) with (String c s1 ++ s2).
        constructor; auto.
      * change (String c s) with ("" ++ String c s).
        constructor; [by apply nullable_Matches | auto].
    + inversion Hm as [| | ? ? s1 s2 H1 H2 | | | |]; subst.
      change (String c (s1 ++ s2)) with (String c s1 ++ s2).
      constructor; auto.
  - inversion Hm; subst; [apply M_Alt_l | apply M_Alt_r]; auto.
  - inversion Hm as [| | ? ? s1 s2 H1 H2 | | | |]; subst.
    change (String c (s1 ++ s2)) with (String c s1 ++ s2).
    constructor; auto.
Qed.

Lemma deriv_complete (c : ascii) (r : regex) (s : string) :
  Matches r (String c s) → Matches (deriv c r) s.
Proof.
  intros Hm. remember (String c s) as s0 eqn:Hs0. revert s Hs0.
  induction Hm as [| p c' Hp | r1 r2 s1 s2 Hm1 IH1 Hm2 IH2
                   | r1 r2 s' _ IH | r1 r2 s' _ IH | r
                   | r s1 s2 Hm1 IH1 Hm2 IH2];
    intros s Hs0; simpl; try discriminate.
  - injection Hs0 as -> <-. rewrite Hp. constructor.
  - apply append_eq_cons in Hs0 as [[-> ->] | (s1' & -> & ->)].
    + rewrite (proj2 (nullable_Matches r1) Hm1). apply M_Alt_r. auto.
    + destruct (nullable r1); [apply M_Alt_l |]; constructor; auto.
  - apply M_Alt_l. auto.
  - apply M_Alt_r. auto.
  - apply append_eq_cons in Hs0 as [[-> ->] | (s1' & -> & ->)].
    + by apply IH2.
    + constructor; auto.
Qed.

Lemma fullmatch_Matches (r : regex) (s : string) :
  fullmatch r s = true ↔ Matches r s.
Proof.
  revert r. induction s as [|c s IH]; intros r; simpl.
  - apply nullable_Matches.
  - rewrite IH. split; [apply deriv_sound | apply deriv_complete].
Qed.

Lemma match_prefix_Matches (r : regex) (s : string) :
  match_prefix r s = true ↔ ∃ s1 s2, s = s1 ++ s2 ∧ Matches r s1.
Proof.
  revert r. induction s as [|c s IH]; intros r; simpl.
  - rewrite orb_false_r, nullable_Matches. split.
    + intros Hm. by exists "", "".
    + intros (s1 & s2 & Heq & Hm). symmetry in Heq.
      by apply append_eq_nil in Heq as [-> ->].
  - rewrite orb_true_iff, nullable_Matches, IH. split.
    + intros [Hm | (s1 & s2 & -> & Hm)].
      * by exists "", (String c s).
      * exists (String c s1), s2. split; [done | by apply deriv_sound].
    + intros (s1 & s2 & Heq & Hm). symmetry in Heq.
      apply append_eq_cons in Heq as [[-> ->] | (s1' & -> & ->)]; [by left |].
      right. exists s1', s2. split; [done | by apply deriv_complete].
Qed.

(** [search] finds exactly the strings having a substring in the language. *)
Lemma search_has_match (r : regex) (s : string) :
  search r s = true ↔ has_match r s.
Proof.
  unfold has_match. induction s as [|c s IH].
  - change (search r "") with (match_prefix r "" || false).
    rewrite orb_false_r, match_prefix_Matches. split.
    + intros (s1 & s2 & Heq & Hm). by exists "", s1, s2.
    + intros (s0 & s1 & s2 & Heq & Hm). symmetry in Heq.
      apply append_eq_nil in Heq as [-> Heq]. simpl in Heq. eauto.
  - change (search r (String c s))
      with (match_prefix r (String c s) || search r s).
    rewrite orb_true_iff, match_prefix_Matches, IH. split.
    + intros [(s1 & s2 & Heq & Hm) | (s0 & s1 & s2 & -> & Hm)].
      * by exists "", s1, s2.
      * by exists (String c s0), s1, s2.
    + intros (s0 & s1 & s2 & Heq & Hm). symmetry in Heq.
      apply append_eq_cons in Heq as [[-> Heq] | (s0' & -> & ->)].
      * left. eauto.
      * right. eauto.
Qed.

End RegexFacts.

(** * Properties of the classifier *)

Module ClassifierFacts.

Import Analyzer.
Local Open Scope list_scope.

Lemma elem_of_PASSED s : s ∈ PASSED_STATUSES ↔ s = "PASSED" ∨ s = "XFAIL".
Proof. unfold PASSED_STATUSES. set_solver. Qed.

Lemma elem_of_FAILED s : s ∈ FAILED_STATUSES ↔ s = "FAILED" ∨ s = "ERROR".
Proof. unfold FAILED_STATUSES. set_solver. Qed.

Lemma elem_of_tests_with_status statuses (d : gmap string string) t :
  t ∈ tests_with_status statuses d ↔ ∃ s, d !! t = Some s ∧ s ∈ statuses.
Proof.
  unfold tests_with_status. rewrite elem_of_dom. split.
  - intros [s Hs]. apply map_lookup_filter_Some in Hs as [? ?]. eauto.
  - intros (s & Hl & Hs). exists s. by apply map_lookup_filter_Some.
Qed.

Lemma passing_iff (d : gmap string string) t :
  t ∈ tests_with_status PASSED_STATUSES d ↔ Spec.P d t.
Proof.
  rewrite elem_of_tests_with_status. unfold Spec.P. split.
  - intros (s & -> & [-> | ->]%elem_of_PASSED); auto.
  - intros [H | H]; eexists; (split; [exact H |]); apply elem_of_PASSED; auto.
Qed.

Lemma failing_iff (d : gmap string string) t :
  t ∈ tests_with_status FAILED_STATUSES d ↔ Spec.F d t.
Proof.
  rewrite elem_of_tests_with_status. unfold Spec.F. split.
  - intros (s & -> & [-> | ->]%elem_of_FAILED); auto.
  - intros [H | H]; eexists; (split; [exact H |]); apply elem_of_FAILED; auto.
Qed.

Lemma status_in_passed (d : gmap string string) t :
  status_in (d !! t) PASSED_STATUSES = true ↔ Spec.P d t.
Proof.
  unfold status_in, Spec.P. destruct (d !! t) as [s|].
  - rewrite bool_decide_eq_true, elem_of_PASSED.
    split; intros [? | ?]; simplify_eq; auto.
  - split; [discriminate | intros [? | ?]; discriminate].
Qed.

Lemma status_in_failed (d : gmap string string) t :
  status_in (d !! t) FAILED_STATUSES = true ↔ Spec.F d t.
Proof.
  unfold status_in, Spec.F. destruct (d !! t) as [s|].
  - rewrite bool_decide_eq_true, elem_of_FAILED.
    split; intros [? | ?]; simplify_eq; auto.
  - split; [discriminate | intros [? | ?]; discriminate].
Qed.

(** A test has one status in a map: it is not passing and failing at once. *)
Lemma passing_not_failing (d : gmap string string) t :
  Spec.P d t → Spec.F d t → False.
Proof. unfold Spec.P, Spec.F. intros [?|?] [?|?]; congruence. Qed.

Lemma any_value_in_true statuses (d : gmap string string) :
  any_value_in statuses d = true ↔ ∃ t s, d !! t = Some s ∧ s ∈ statuses.
Proof.
  unfold any_value_in. rewrite existsb_exists. split.
  - intros ([t s] & Hin & Hs). exists t, s. split.
    + apply elem_of_map_to_list. by apply list_elem_of_In.
    + by apply bool_decide_eq_true in Hs.
  - intros (t & s & Hl & Hs). exists (t, s). split.
    + apply list_elem_of_In. by apply elem_of_map_to_list.
    + by apply bool_decide_eq_true.
Qed.

Lemma has_mixed_before_true (before : gmap string string) :
  has_mixed_before before = true ↔ Spec.mixed before.
Proof.
  unfold has_mixed_before, Spec.mixed.
  rewrite andb_true_iff, !any_value_in_true. split.
  - intros [(t & s & Ht & Hs) (t' & s' & Ht' & Hs')]. split.
    + exists t. apply passing_iff, elem_of_tests_with_status. eauto.
    + exists t'. apply failing_iff, elem_of_tests_with_status. eauto.
  - intros [[t Ht] [t' Ht']].
    apply passing_iff, elem_of_tests_with_status in Ht.
    apply failing_iff, elem_of_tests_with_status in Ht'.
    destruct Ht as (s & ? & ?), Ht' as (s' & ? & ?). split; eauto.
Qed.

Lemma rule_A_condition has_new (before : gmap string string) :
  has_new || negb (has_mixed_before before) = true ↔ Spec.rule_A has_new before.
Proof.
  unfold Spec.rule_A. rewrite <- has_mixed_before_true.
  destruct has_new, (has_mixed_before before); simpl; intuition congruence.
Qed.

Lemma rule_B_condition has_new (before : gmap string string) :
  has_new || negb (has_mixed_before before) = false ↔ Spec.rule_B has_new before.
Proof.
  unfold Spec.rule_B. rewrite <- has_mixed_before_true.
  destruct has_new, (has_mixed_before before); simpl; intuition congruence.
Qed.

(** *** The re-classification block of Rule A *)

Lemma append_unseen_fresh (moved target : list string) (seen : gset string) :
  NoDup moved → (∀ t, t ∈ moved → t ∉ seen) →
  append_unseen target seen moved = target ++ moved.
Proof.
  revert target seen.
  induction moved as [|t rest IH]; intros target seen Hnd Hfresh; simpl.
  - by rewrite app_nil_r.
  - apply NoDup_cons in Hnd as [Ht Hnd].
    destruct (decide (t ∈ seen)) as [Hin | _].
    + exfalso. apply (Hfresh t); [left | done].
    + rewrite IH; [by rewrite <- app_assoc | done |].
      intros t' Ht' [->%elem_of_singleton | Hs]%elem_of_union; [done |].
      apply (Hfresh t'); [by right | done].
Qed.

Lemma filter_ext_elem_of {A} (P Q : A → Prop)
    `{∀ x, Decision (P x)} `{∀ x, Decision (Q x)} (l : list A) :
  (∀ x, x ∈ l → P x ↔ Q x) → filter P l = filter Q l.
Proof.
  induction l as [|x l IH]; intros Hext; [done |].
  rewrite !filter_cons.
  rewrite IH by (intros y Hy; apply Hext; by right).
  pose proof (Hext x (list_elem_of_here x l)) as Hx.
  destruct (decide (P x)), (decide (Q x)); tauto || done.
Qed.

Lemma filter_all {A} (P : A → Prop) `{∀ x, Decision (P x)} (l : list A) :
  (∀ x, x ∈ l → P x) → filter P l = l.
Proof.
  induction l as [|x l IH]; intros Hall; [done |].
  rewrite filter_cons_True by (apply Hall; by left).
  f_equal. apply IH. intros y Hy. apply Hall. by right.
Qed.

Lemma filter_not_moved (trigger : gset string) (source : list string) :
  filter (λ t, t ∉ filter (λ t, t ∈ trigger) source) source
  = filter (λ t, t ∉ trigger) source.
Proof.
  apply filter_ext_elem_of. intros t Ht.
  rewrite list_elem_of_filter. tauto.
Qed.

(** On a duplicate-free [source] that shares no test with [target], the
    block is a plain partition of [source]: what is in [trigger] is appended
    to [target], in order, and the rest stays. *)
Lemma reclassify_partition (trigger : gset string) (source target : list string) :
  NoDup source → source ## target →
  reclassify trigger source target
  = (filter (λ t, t ∉ trigger) source,
     target ++ filter (λ t, t ∈ trigger) source).
Proof.
  intros Hnd Hdisj. unfold reclassify.
  destruct (filter (λ t, t ∈ trigger) source) as [|m moved] eqn:Hmoved.
  - rewrite app_nil_r. f_equal. symmetry. apply filter_all.
    intros t Ht Hin.
    assert (t ∈ filter (λ t, t ∈ trigger) source) as Hf
      by (by apply list_elem_of_filter).
    rewrite Hmoved in Hf. by apply elem_of_nil in Hf.
  - rewrite <- Hmoved. rewrite filter_not_moved. f_equal.
    apply append_unseen_fresh.
    + by apply NoDup_filter.
    + intros t [_ Ht]%list_elem_of_filter Hseen%elem_of_list_to_set.
      by apply (Hdisj t).
Qed.

(** *** Rule A *)

Section RuleA.

Context (tests_base tests_before tests_after : gmap string string).

Let base_passing := tests_with_status PASSED_STATUSES tests_base.
Let after_passing := tests_with_status PASSED_STATUSES tests_after.
Let before_passing := tests_with_status PASSED_STATUSES tests_before.
Let before_failing := tests_with_status FAILED_STATUSES tests_before.

(** The lists between the steps of Rule A. *)
Let f2p0 := filter (λ t, t ∉ base_passing) (elements after_passing).
Let p2p0 := filter (λ t, t ∈ base_passing) (elements after_passing).
Let f2p1 := filter (λ t, t ∉ before_passing) f2p0.
Let p2p1 := p2p0 ++ filter (λ t, t ∈ before_passing) f2p0.
Let f2p2 := f2p1 ++ filter (λ t, t ∈ before_failing) p2p1.
Let p2p2 := filter (λ t, t ∉ before_failing) p2p1.

Lemma NoDup_f2p0 : NoDup f2p0.
Proof. apply NoDup_filter, NoDup_elements. Qed.

Lemma NoDup_p2p0 : NoDup p2p0.
Proof. apply NoDup_filter, NoDup_elements. Qed.

Lemma elem_of_f2p0 t : t ∈ f2p0 ↔ Spec.F2P_initial tests_base tests_after t.
Proof.
  unfold f2p0, Spec.F2P_initial.
  rewrite list_elem_of_filter, elem_of_elements.
  unfold after_passing, base_passing. rewrite !passing_iff. tauto.
Qed.

Lemma elem_of_p2p0 t : t ∈ p2p0 ↔ Spec.P2P_initial tests_base tests_after t.
Proof.
  unfold p2p0, Spec.P2P_initial.
  rewrite list_elem_of_filter, elem_of_elements.
  unfold after_passing, base_passing. rewrite !passing_iff. tauto.
Qed.

Lemma f2p0_p2p0_disjoint : f2p0 ## p2p0.
Proof.
  intros t [? _]%list_elem_of_filter [? _]%list_elem_of_filter. done.
Qed.

Lemma elem_of_f2p1 t :
  t ∈ f2p1 ↔ Spec.F2P_first tests_base tests_before tests_after t.
Proof.
  unfold f2p1, Spec.F2P_first.
  rewrite list_elem_of_filter, elem_of_f2p0.
  unfold before_passing. rewrite passing_iff. tauto.
Qed.

Lemma elem_of_p2p1 t :
  t ∈ p2p1 ↔ Spec.P2P_first tests_base tests_before tests_after t.
Proof.
  unfold p2p1, Spec.P2P_first.
  rewrite elem_of_app, list_elem_of_filter, elem_of_p2p0, elem_of_f2p0.
  unfold before_passing. rewrite passing_iff. tauto.
Qed.

Lemma NoDup_p2p1 : NoDup p2p1.
Proof.
  apply NoDup_app. split; [apply NoDup_p2p0 |]. split.
  - intros t Hp [_ Hf]%list_elem_of_filter. by apply (f2p0_p2p0_disjoint t).
  - apply NoDup_filter, NoDup_f2p0.
Qed.

Lemma p2p1_f2p1_disjoint : p2p1 ## f2p1.
Proof.
  intros t [Hp | [Hb _]%list_elem_of_filter]%elem_of_app
           [Hnb Hf]%list_elem_of_filter.
  - by apply (f2p0_p2p0_disjoint t).
  - done.
Qed.

(** Under Rule A the report is made of the two lists obtained by two plain
    partitions, first of F2P along [P(before)], then of P2P along
    [F(before)]; the other two lists stay empty. *)
Lemma rule_A_lists has_new_test_file :
  Spec.rule_A has_new_test_file tests_before →
  generate_test_report tests_base tests_before tests_after has_new_test_file
  = mkReport f2p2 p2p2 [] [].
Proof.
  intros HA%rule_A_condition. unfold generate_test_report. rewrite HA.
  fold base_passing after_passing before_passing before_failing.
  fold f2p0 p2p0.
  rewrite (reclassify_partition before_passing f2p0 p2p0)
    by (apply NoDup_f2p0 || apply f2p0_p2p0_disjoint).
  fold f2p1 p2p1.
  rewrite (reclassify_partition before_failing p2p1 f2p1)
    by (apply NoDup_p2p1 || apply p2p1_f2p1_disjoint).
  done.
Qed.

Lemma elem_of_f2p2 t :
  t ∈ f2p2 ↔ Spec.F2P_final tests_base tests_before tests_after t.
Proof.
  unfold f2p2, Spec.F2P_final.
  rewrite elem_of_app, list_elem_of_filter, elem_of_f2p1, elem_of_p2p1.
  unfold before_failing. rewrite failing_iff. tauto.
Qed.

Lemma elem_of_p2p2 t :
  t ∈ p2p2 ↔ Spec.P2P_final tests_base tests_before tests_after t.
Proof.
  unfold p2p2, Spec.P2P_final.
  rewrite list_elem_of_filter, elem_of_p2p1.
  unfold before_failing. rewrite failing_iff. tauto.
Qed.

Lemma NoDup_f2p2 : NoDup f2p2.
Proof.
  apply NoDup_app. split; [apply NoDup_filter, NoDup_f2p0 |]. split.
  - intros t Hf [_ Hp]%list_elem_of_filter. by apply (p2p1_f2p1_disjoint t).
  - apply NoDup_filter, NoDup_p2p1.
Qed.

Lemma NoDup_p2p2 : NoDup p2p2.
Proof. apply NoDup_filter, NoDup_p2p1. Qed.

Lemma f2p2_p2p2_disjoint : f2p2 ## p2p2.
Proof.
  intros t [Hf | [Hbf _]%list_elem_of_filter]%elem_of_app
           [Hnbf Hp]%list_elem_of_filter.
  - by apply (p2p1_f2p1_disjoint t).
  - done.
Qed.

End RuleA.

(** *** Rule B *)

Section RuleB.

Context (tests_before tests_after : gmap string string).

Let step := classify_transition tests_before tests_after.

(** One iteration appends the test to the list of its transition, if any. *)
Lemma classify_transition_lists (r : Report) (t : string) :
  step r t =
  mkReport
    (FAIL_TO_PASS r ++ filter (λ t, Spec.F tests_before t ∧ Spec.P tests_after t) [t])
    (PASS_TO_PASS r ++ filter (λ t, Spec.P tests_before t ∧ Spec.P tests_after t) [t])
    (PASS_TO_FAIL r ++ filter (λ t, Spec.P tests_before t ∧ Spec.F tests_after t) [t])
    (FAIL_TO_FAIL r ++ filter (λ t, Spec.F tests_before t ∧ Spec.F tests_after t) [t]).
Proof.
  unfold step, classify_transition.
  pose proof (status_in_passed tests_before t) as HPb.
  pose proof (status_in_failed tests_before t) as HFb.
  pose proof (status_in_passed tests_after t) as HPa.
  pose proof (status_in_failed tests_after t) as HFa.
  pose proof (passing_not_failing tests_before t) as Hb.
  pose proof (passing_not_failing tests_after t) as Ha.
  rewrite !filter_cons, !filter_nil.
  destruct (status_in (tests_before !! t) PASSED_STATUSES),
           (status_in (tests_before !! t) FAILED_STATUSES),
           (status_in (tests_after !! t) PASSED_STATUSES),
           (status_in (tests_after !! t) FAILED_STATUSES); simpl;
    repeat case_decide; rewrite ?app_nil_r;
    try (destruct r; reflexivity); exfalso; intuition congruence.
Qed.

Lemma foldl_classify_transition (l : list string) (r : Report) :
  foldl step r l =
  mkReport
    (FAIL_TO_PASS r ++ filter (λ t, Spec.F tests_before t ∧ Spec.P tests_after t) l)
    (PASS_TO_PASS r ++ filter (λ t, Spec.P tests_before t ∧ Spec.P tests_after t) l)
    (PASS_TO_FAIL r ++ filter (λ t, Spec.P tests_before t ∧ Spec.F tests_after t) l)
    (FAIL_TO_FAIL r ++ filter (λ t, Spec.F tests_before t ∧ Spec.F tests_after t) l).
Proof.
  revert r. induction l as [|t l IH]; intros r; simpl.
  - rewrite !filter_nil, !app_nil_r. by destruct r.
  - rewrite IH, classify_transition_lists. simpl.
    rewrite <- !app_assoc, <- !filter_app. reflexivity.
Qed.

(** Under Rule B each list is the set of all tests filtered by one of the
    four transitions. *)
Lemma rule_B_lists tests_base has_new_test_file :
  Spec.rule_B has_new_test_file tests_before →
  let all_tests := elements (dom tests_before ∪ dom tests_after) in
  generate_test_report tests_base tests_before tests_after has_new_test_file
  = mkReport
      (filter (λ t, Spec.F tests_before t ∧ Spec.P tests_after t) all_tests)
      (filter (λ t, Spec.P tests_before t ∧ Spec.P tests_after t) all_tests)
      (filter (λ t, Spec.P tests_before t ∧ Spec.F tests_after t) all_tests)
      (filter (λ t, Spec.F tests_before t ∧ Spec.F tests_after t) all_tests).
Proof.
  intros HB%rule_B_condition. unfold generate_test_report. rewrite HB.
  fold step. by rewrite foldl_classify_transition.
Qed.

Lemma elem_of_all_tests t :
  t ∈ elements (dom tests_before ∪ dom tests_after)
  ↔ is_Some (tests_before !! t) ∨ is_Some (tests_after !! t).
Proof. by rewrite elem_of_elements, elem_of_union, !elem_of_dom. Qed.

End RuleB.

Lemma ignored_not_classified (d : gmap string string) t :
  Spec.ignored d t → ¬ Spec.P d t ∧ ¬ Spec.F d t.
Proof.
  unfold Spec.ignored, Spec.P, Spec.F.
  intros [Hi | Hi]; rewrite Hi; split; intros [? | ?]; discriminate.
Qed.

Lemma passing_is_Some (d : gmap string string) t : Spec.P d t → is_Some (d !! t).
Proof. intros [-> | ->]; eauto. Qed.

Lemma failing_is_Some (d : gmap string string) t : Spec.F d t → is_Some (d !! t).
Proof. intros [-> | ->]; eauto. Qed.

Lemma filter_passing (d : gmap string string) (l : list string) :
  filter (λ t, t ∈ tests_with_status PASSED_STATUSES d) l = filter (Spec.P d) l.
Proof. apply filter_ext_elem_of. intros t _. apply passing_iff. Qed.

Lemma filter_not_passing (d : gmap string string) (l : list string) :
  filter (λ t, t ∉ tests_with_status PASSED_STATUSES d) l
  = filter (λ t, ¬ Spec.P d t) l.
Proof. apply filter_ext_elem_of. intros t _. by rewrite passing_iff. Qed.

Lemma filter_failing (d : gmap string string) (l : list string) :
  filter (λ t, t ∈ tests_with_status FAILED_STATUSES d) l = filter (Spec.F d) l.
Proof. apply filter_ext_elem_of. intros t _. apply failing_iff. Qed.

Lemma filter_not_failing (d : gmap string string) (l : list string) :
  filter (λ t, t ∉ tests_with_status FAILED_STATUSES d) l
  = filter (λ t, ¬ Spec.F d t) l.
Proof. apply filter_ext_elem_of. intros t _. by rewrite failing_iff. Qed.

(** *** The claims on the classifier *)

(** C1.  When Rule A applies ([has_new_test_file] is true, or [before] does
    not hold both a passing and a failing entry), [generate_test_report]
    starts from F2P = P(after) \ P(base) and P2P = P(after) ∩ P(base), two
    duplicate-free lists [f2p0] and [p2p0], and runs two passes in this
    order: the F2P tests passing in [before] are appended to P2P, then the
    tests of the resulting P2P failing in [before] are appended to F2P.
    Both results keep the order of their sources and have no duplicates. *)
Theorem rule_A_two_passes (base before after : gmap string string) has_new :
  Spec.rule_A has_new before →
  let r := generate_test_report base before after has_new in
  (∃ f2p0 p2p0 : list string,
     NoDup f2p0 ∧ NoDup p2p0
     ∧ (∀ t, t ∈ f2p0 ↔ Spec.F2P_initial base after t)
     ∧ (∀ t, t ∈ p2p0 ↔ Spec.P2P_initial base after t)
     ∧ let f2p1 := filter (λ t, ¬ Spec.P before t) f2p0 in
       let p2p1 := p2p0 ++ filter (Spec.P before) f2p0 in
       FAIL_TO_PASS r = f2p1 ++ filter (Spec.F before) p2p1
       ∧ PASS_TO_PASS r = filter (λ t, ¬ Spec.F before t) p2p1)
  ∧ (∀ t, t ∈ FAIL_TO_PASS r ↔ Spec.F2P_final base before after t)
  ∧ (∀ t, t ∈ PASS_TO_PASS r ↔ Spec.P2P_final base before after t)
  ∧ NoDup (FAIL_TO_PASS r) ∧ NoDup (PASS_TO_PASS r).
Proof.
  intros HA r. subst r. rewrite rule_A_lists by done. simpl.
  split; [| split; [| split; [| split]]].
  - exists (filter (λ t, t ∉ tests_with_status PASSED_STATUSES base)
                   (elements (tests_with_status PASSED_STATUSES after))),
           (filter (λ t, t ∈ tests_with_status PASSED_STATUSES base)
                   (elements (tests_with_status PASSED_STATUSES after))).
    split; [apply (NoDup_f2p0 base after) |].
    split; [apply (NoDup_p2p0 base after) |].
    split; [apply elem_of_f2p0 |]. split; [apply elem_of_p2p0 |].
    simpl.
    by rewrite !(filter_passing before), !(filter_not_passing before),
      !(filter_failing before), !(filter_not_failing before).
  - apply elem_of_f2p2.
  - apply elem_of_p2p2.
  - apply NoDup_f2p2.
  - apply NoDup_p2p2.
Qed.

Lemma rule_A_two_passes_witness :
  Spec.rule_A true Examples.before1
  ∧ ∀ t, t ∈ FAIL_TO_PASS (generate_test_report Examples.base1
             Examples.before1 Examples.after1 true)
         ↔ Spec.F2P_final Examples.base1 Examples.before1 Examples.after1 t.
Proof.
  split; [by left |].
  apply (rule_A_two_passes Examples.base1 Examples.before1 Examples.after1 true).
  by left.
Defined.

(** C9.  When Rule A applies, the PASS_TO_FAIL and FAIL_TO_FAIL lists of the
    report are empty. *)
Theorem rule_A_no_failures (base before after : gmap string string) has_new :
  Spec.rule_A has_new before →
  PASS_TO_FAIL (generate_test_report base before after has_new) = []
  ∧ FAIL_TO_FAIL (generate_test_report base before after has_new) = [].
Proof. intros HA. by rewrite rule_A_lists. Qed.

Lemma rule_A_no_failures_witness :
  Spec.rule_A true Examples.before1
  ∧ PASS_TO_FAIL (generate_test_report Examples.base1 Examples.before1
                    Examples.after1 true) = []
  ∧ FAIL_TO_FAIL (generate_test_report Examples.base1 Examples.before1
                    Examples.after1 true) = [].
Proof.
  split; [by left |].
  apply (rule_A_no_failures Examples.base1 Examples.before1 Examples.after1 true).
  by left.
Defined.

(** C2.  When Rule B applies (no new test file and a mixed [before]), every
    test is classified by its (before, after) transition alone: failing then
    passing is F2P, passing then passing is P2P, passing then failing is
    P2F, failing then failing is F2F; each such test is a key of [before] or
    of [after]; and a test missing or SKIPPED in either map is in none of
    the four lists. *)
Theorem rule_B_transitions (base before after : gmap string string) has_new :
  Spec.rule_B has_new before →
  let r := generate_test_report base before after has_new in
  ∀ t,
    (t ∈ FAIL_TO_PASS r ↔ Spec.F before t ∧ Spec.P after t)
    ∧ (t ∈ PASS_TO_PASS r ↔ Spec.P before t ∧ Spec.P after t)
    ∧ (t ∈ PASS_TO_FAIL r ↔ Spec.P before t ∧ Spec.F after t)
    ∧ (t ∈ FAIL_TO_FAIL r ↔ Spec.F before t ∧ Spec.F after t)
    ∧ (Spec.ignored before t ∨ Spec.ignored after t →
       (t ∉ FAIL_TO_PASS r) ∧ (t ∉ PASS_TO_PASS r)
       ∧ (t ∉ PASS_TO_FAIL r) ∧ (t ∉ FAIL_TO_FAIL r)).
Proof.
  intros HB r t. subst r. rewrite rule_B_lists by done. simpl.
  rewrite !list_elem_of_filter, elem_of_all_tests.
  pose proof (passing_is_Some before t) as HPs.
  pose proof (failing_is_Some before t) as HFs.
  do 4 (split; [tauto |]).
  intros Hign.
  assert ((¬ Spec.P before t ∧ ¬ Spec.F before t)
          ∨ (¬ Spec.P after t ∧ ¬ Spec.F after t)) as Hnot
    by (destruct Hign as [Hi | Hi]; [left | right];
        by apply ignored_not_classified).
  tauto.
Qed.

Lemma rule_B_transitions_witness :
  Spec.rule_B false Examples.before2
  ∧ ("T1" ∈ FAIL_TO_PASS (generate_test_report Examples.base2
               Examples.before2 Examples.after2 false)
     ↔ Spec.F Examples.before2 "T1" ∧ Spec.P Examples.after2 "T1").
Proof.
  assert (Spec.rule_B false Examples.before2) as HB.
  { split; [done |]. split; [exists "T2" | exists "T1"]; by left. }
  split; [done |].
  apply (rule_B_transitions Examples.base2 Examples.before2 Examples.after2
           false HB "T1").
Defined.

(** The two final classes of Rule A lie inside [P(after)]. *)
Lemma final_classes_pass_after (base before after : gmap string string) t :
  Spec.F2P_final base before after t ∨ Spec.P2P_final base before after t →
  Spec.P after t.
Proof.
  unfold Spec.F2P_final, Spec.P2P_final, Spec.F2P_first, Spec.P2P_first,
    Spec.F2P_initial, Spec.P2P_initial. tauto.
Qed.

(** C4.  Whatever the three maps and the flag, a test that
    [generate_test_report] puts in F2P or in P2P is passing (PASSED or
    XFAIL) in [after]. *)
Theorem classified_tests_pass_after (base before after : gmap string string)
    has_new t :
  t ∈ FAIL_TO_PASS (generate_test_report base before after has_new)
  ∨ t ∈ PASS_TO_PASS (generate_test_report base before after has_new) →
  after !! t = Some "PASSED" ∨ after !! t = Some "XFAIL".
Proof.
  change (after !! t = Some "PASSED" ∨ after !! t = Some "XFAIL")
    with (Spec.P after t).
  destruct (has_new || negb (has_mixed_before before)) eqn:Hrule.
  - apply rule_A_condition in Hrule. rewrite rule_A_lists by done. simpl.
    rewrite elem_of_f2p2, elem_of_p2p2. apply final_classes_pass_after.
  - apply rule_B_condition in Hrule. rewrite rule_B_lists by done. simpl.
    rewrite !list_elem_of_filter. tauto.
Qed.

Lemma classified_tests_pass_after_witness :
  "T_new" ∈ FAIL_TO_PASS (generate_test_report Examples.base1
               Examples.before1 Examples.after1 true)
  ∧ Spec.P Examples.after1 "T_new".
Proof.
  assert ("T_new" ∈ FAIL_TO_PASS (generate_test_report Examples.base1
               Examples.before1 Examples.after1 true)) as Hin.
  { vm_compute. left. }
  split; [done |].
  apply (classified_tests_pass_after Examples.base1 Examples.before1
           Examples.after1 true "T_new").
  by left.
Defined.

End ClassifierFacts.

(** * Python's [sorted] on strings *)

Module SortedFacts.

Import Analyzer.
Local Open Scope list_scope.

Lemma ascii_compare_lt_trans (a b c : ascii) :
  Ascii.compare a b = Lt → Ascii.compare b c = Lt → Ascii.compare a c = Lt.
Proof.
  unfold Ascii.compare. rewrite !N.compare_lt_iff. apply N.lt_trans.
Qed.

Lemma lex_lt_trans (a b c : string) :
  Spec.lex_lt a b → Spec.lex_lt b c → Spec.lex_lt a c.
Proof.
  unfold Spec.lex_lt. revert b c.
  induction a as [|x a IH]; intros [|y b] [|z c]; simpl; try done.
  destruct (Ascii.compare x y) eqn:Hxy; try done;
    destruct (Ascii.compare y z) eqn:Hyz; try done.
  - apply Ascii.compare_eq_iff in Hxy, Hyz. subst.
    rewrite (proj2 (N.compare_eq_iff _ _) eq_refl : Ascii.compare z z = Eq).
    apply IH.
  - apply Ascii.compare_eq_iff in Hxy. subst. by rewrite Hyz.
  - apply Ascii.compare_eq_iff in Hyz. subst. by rewrite Hxy.
  - by rewrite (ascii_compare_lt_trans x y z).
Qed.

Lemma string_le_iff (a b : string) : string_le a b ↔ Spec.lex_lt a b ∨ a = b.
Proof.
  unfold string_le, String.leb, Spec.lex_lt. split.
  - destruct (String.compare a b) eqn:Hc; try done.
    + right. by apply String.compare_eq_iff.
    + by left.
  - intros [-> | ->]; [done |].
    destruct (String.compare b b) eqn:Hc; try done.
    pose proof (String.compare_antisym b b) as Ha. rewrite Hc in Ha. done.
Qed.

#[local] Instance string_le_total : Total string_le.
Proof. intros a b. apply String.leb_total. Qed.

#[local] Instance string_le_trans : Transitive string_le.
Proof.
  intros a b c [Hab | ->]%string_le_iff [Hbc | ->]%string_le_iff;
    apply string_le_iff; eauto using lex_lt_trans.
Qed.

Lemma lex_lt_irrefl (a : string) : ¬ Spec.lex_lt a a.
Proof.
  unfold Spec.lex_lt. intros Hc.
  pose proof (String.compare_antisym a a) as Ha. rewrite Hc in Ha. done.
Qed.

(** A list without duplicates that is sorted for [<=] is sorted for [<]. *)
Lemma StronglySorted_strict (l : list string) :
  NoDup l → StronglySorted string_le l → StronglySorted Spec.lex_lt l.
Proof.
  induction 2 as [|x l Hl IH Hx]; [constructor |].
  apply NoDup_cons in H as [Hxl Hnd].
  constructor; [by apply IH |].
  apply Forall_forall. intros y Hy.
  rewrite Forall_forall in Hx.
  destruct (proj1 (string_le_iff x y) (Hx y Hy)) as [Hlt | ->]; [done |].
  by destruct Hxl.
Qed.

(** [sorted] puts a list in increasing order and keeps its elements; when
    the list has no duplicates the order is strict. *)
Lemma sorted_Permutation (l : list string) : sorted l ≡ₚ l.
Proof. apply merge_sort_Permutation. Qed.

Lemma sorted_StronglySorted (l : list string) :
  StronglySorted string_le (sorted l).
Proof. apply StronglySorted_merge_sort; apply _. Qed.

Lemma sorted_NoDup (l : list string) : NoDup l → NoDup (sorted l).
Proof. intros Hnd. by rewrite sorted_Permutation. Qed.

Lemma sorted_strict (l : list string) :
  NoDup l → StronglySorted Spec.lex_lt (sorted l).
Proof.
  intros Hnd. apply StronglySorted_strict;
    [by apply sorted_NoDup | apply sorted_StronglySorted].
Qed.

Lemma elem_of_sorted (l : list string) t : t ∈ sorted l ↔ t ∈ l.
Proof. by rewrite sorted_Permutation. Qed.

End SortedFacts.

(** * Properties of the analysis result *)

Module AnalysisFacts.

Import Base Analyzer ClassifierFacts SortedFacts.
Local Open Scope list_scope.

Lemma filter_disjoint {A} (P Q : A → Prop)
    `{∀ x, Decision (P x)} `{∀ x, Decision (Q x)} (l : list A) :
  (∀ x, P x → Q x → False) → filter P l ## filter Q l.
Proof.
  intros HPQ x [HP _]%list_elem_of_filter [HQ _]%list_elem_of_filter. eauto.
Qed.

(** The four lists of a report never share a test, under either rule. *)
Lemma report_disjoint (base before after : gmap string string) has_new :
  let r := generate_test_report base before after has_new in
  FAIL_TO_PASS r ## PASS_TO_PASS r ∧ FAIL_TO_PASS r ## PASS_TO_FAIL r
  ∧ FAIL_TO_PASS r ## FAIL_TO_FAIL r ∧ PASS_TO_PASS r ## PASS_TO_FAIL r
  ∧ PASS_TO_PASS r ## FAIL_TO_FAIL r ∧ PASS_TO_FAIL r ## FAIL_TO_FAIL r.
Proof.
  simpl. destruct (has_new || negb (has_mixed_before before)) eqn:Hrule.
  - apply rule_A_condition in Hrule. rewrite rule_A_lists by done. simpl.
    split; [apply f2p2_p2p2_disjoint |].
    repeat split; intros t ? ?; by eapply elem_of_nil.
  - apply rule_B_condition in Hrule. rewrite rule_B_lists by done. simpl.
    pose proof (passing_not_failing before) as Hb.
    pose proof (passing_not_failing after) as Ha.
    repeat split; apply filter_disjoint; intros t [? ?] [? ?]; eauto.
Qed.

(** No list of a report holds a test twice. *)
Lemma report_NoDup (base before after : gmap string string) has_new :
  let r := generate_test_report base before after has_new in
  NoDup (FAIL_TO_PASS r) ∧ NoDup (PASS_TO_PASS r)
  ∧ NoDup (PASS_TO_FAIL r) ∧ NoDup (FAIL_TO_FAIL r).
Proof.
  simpl. destruct (has_new || negb (has_mixed_before before)) eqn:Hrule.
  - apply rule_A_condition in Hrule. rewrite rule_A_lists by done. simpl.
    split; [apply NoDup_f2p2 |]. split; [apply NoDup_p2p2 |].
    split; apply NoDup_nil_2.
  - apply rule_B_condition in Hrule. rewrite rule_B_lists by done. simpl.
    repeat split; apply NoDup_filter, NoDup_elements.
Qed.

(** The lists of an analysis result are either empty (early return) or the
    sorted lists of a report. *)
Lemma analyze_lists has_new pkgs language :
  let res := analyze has_new pkgs language in
  (F2PP2PResult.f2p_tests res = [] ∧ F2PP2PResult.p2p_tests res = []
   ∧ F2PP2PResult.f2f_tests res = [] ∧ F2PP2PResult.p2f_tests res = [])
  ∨ ∃ st, analyze_packages initial_state pkgs = inr st
      ∧ let r := generate_test_report (all_tests_base st) (all_tests_before st)
                   (all_tests_after st) has_new in
        F2PP2PResult.f2p_tests res = sorted (FAIL_TO_PASS r)
        ∧ F2PP2PResult.p2p_tests res = sorted (PASS_TO_PASS r)
        ∧ F2PP2PResult.f2f_tests res = sorted (FAIL_TO_FAIL r)
        ∧ F2PP2PResult.p2f_tests res = sorted (PASS_TO_FAIL r).
Proof.
  simpl. unfold analyze.
  destruct (analyze_packages initial_state pkgs) as [msg | st]; [by left |].
  destruct (packages_tested st =? 0)%nat.
  { left. by destruct (packages_no_runner st), (errors st). }
  destruct (bool_decide (all_tests_after st = ∅)
            && negb (bool_decide (errors st = []))); [by left |].
  right. exists st. split; [done |].
  by destruct (validate_f2p_p2p_result _ _ _ _ _ _) as [[|? ?]|].
Qed.

(** C5.  The four lists of a report are pairwise disjoint when Rule B
    applies; F2P and P2P are disjoint when Rule A applies, after both
    passes; and the four lists stored on the analysis result are in
    strictly increasing lexicographic order, hence without duplicates. *)
Theorem lists_disjoint_and_sorted :
  (∀ (base before after : gmap string string) has_new,
     let r := generate_test_report base before after has_new in
     (Spec.rule_B has_new before →
        FAIL_TO_PASS r ## PASS_TO_PASS r ∧ FAIL_TO_PASS r ## PASS_TO_FAIL r
        ∧ FAIL_TO_PASS r ## FAIL_TO_FAIL r ∧ PASS_TO_PASS r ## PASS_TO_FAIL r
        ∧ PASS_TO_PASS r ## FAIL_TO_FAIL r ∧ PASS_TO_FAIL r ## FAIL_TO_FAIL r)
     ∧ (Spec.rule_A has_new before → FAIL_TO_PASS r ## PASS_TO_PASS r))
  ∧ (∀ has_new pkgs language,
       let res := analyze has_new pkgs language in
       (StronglySorted Spec.lex_lt (F2PP2PResult.f2p_tests res)
        ∧ NoDup (F2PP2PResult.f2p_tests res))
       ∧ (StronglySorted Spec.lex_lt (F2PP2PResult.p2p_tests res)
          ∧ NoDup (F2PP2PResult.p2p_tests res))
       ∧ (StronglySorted Spec.lex_lt (F2PP2PResult.f2f_tests res)
          ∧ NoDup (F2PP2PResult.f2f_tests res))
       ∧ (StronglySorted Spec.lex_lt (F2PP2PResult.p2f_tests res)
          ∧ NoDup (F2PP2PResult.p2f_tests res))).
Proof.
  split.
  - intros base before after has_new r.
    pose proof (report_disjoint base before after has_new) as Hd.
    split; intros _; [exact Hd | exact (proj1 Hd)].
  - intros has_new pkgs language res. subst res.
    destruct (analyze_lists has_new pkgs language)
      as [(-> & -> & -> & ->) | (st & _ & Hl)].
    + repeat split; constructor.
    + simpl in Hl. destruct Hl as (-> & -> & -> & ->).
      pose proof (report_NoDup (all_tests_base st) (all_tests_before st)
                    (all_tests_after st) has_new) as (? & ? & ? & ?).
      repeat split; auto using sorted_strict, sorted_NoDup.
Qed.

Lemma lists_disjoint_and_sorted_witness :
  Spec.rule_A true Examples.before1
  ∧ FAIL_TO_PASS (generate_test_report Examples.base1 Examples.before1
                    Examples.after1 true)
    ## PASS_TO_PASS (generate_test_report Examples.base1 Examples.before1
                       Examples.after1 true)
  ∧ StronglySorted Spec.lex_lt
      (F2PP2PResult.f2p_tests
         (analyze true [Examples.run1] (Some "JavaScript"))).
Proof.
  assert (Spec.rule_A true Examples.before1) as HA by (by left).
  split; [done |]. split.
  - exact (proj2 (proj1 lists_disjoint_and_sorted Examples.base1
                    Examples.before1 Examples.after1 true) HA).
  - exact (proj1 (proj1 (proj2 lists_disjoint_and_sorted true
                           [Examples.run1] (Some "JavaScript")))).
Defined.

End AnalysisFacts.

(** * Properties of the validator *)

Module ValidatorFacts.

Import Analyzer ClassifierFacts.
Local Open Scope nat_scope.
Local Open Scope list_scope.

Lemma reject_if_Some (cond : string → bool) (code : string) (l : list string) c :
  reject_if cond code l = Some c ↔ c = code ∧ ∃ t, t ∈ l ∧ cond t = true.
Proof.
  induction l as [|x l IH]; simpl.
  - split; [discriminate | intros (_ & t & Ht & _); by apply elem_of_nil in Ht].
  - destruct (cond x) eqn:Hx.
    + split.
      * intros [= <-]. split; [done |]. exists x. split; [left | done].
      * by intros [-> _].
    + rewrite IH. split.
      * intros (-> & t & Ht & Hc). split; [done |]. exists t. split; [by right | done].
      * intros (-> & t & [-> | Ht]%elem_of_cons & Hc); [congruence |]. eauto.
Qed.

Lemma reject_if_None (cond : string → bool) (code : string) (l : list string) :
  reject_if cond code l = None ↔ ∀ t, t ∈ l → cond t = false.
Proof.
  induction l as [|x l IH]; simpl.
  - split; [intros _ t Ht; by apply elem_of_nil in Ht | done].
  - destruct (cond x) eqn:Hx.
    + split; [discriminate |]. intros Hall.
      specialize (Hall x (list_elem_of_here _ _)). congruence.
    + rewrite IH. split.
      * intros Hall t [-> | Ht]%elem_of_cons; auto.
      * intros Hall t Ht. apply Hall. by right.
Qed.

Lemma or_else_Some (a b : option string) c :
  or_else a b = Some c ↔ a = Some c ∨ (a = None ∧ b = Some c).
Proof. destruct a; simpl; split; intros; intuition congruence. Qed.

Lemma or_else_None (a b : option string) :
  or_else a b = None ↔ a = None ∧ b = None.
Proof. destruct a; simpl; split; intros; intuition congruence. Qed.

Lemma in_dict_true t (d : gmap string string) :
  in_dict t d = true ↔ is_Some (d !! t).
Proof. unfold in_dict. apply bool_decide_eq_true. Qed.

Lemma in_dict_false t (d : gmap string string) :
  in_dict t d = false ↔ d !! t = None.
Proof.
  unfold in_dict. rewrite bool_decide_eq_false. symmetry. apply eq_None_not_Some.
Qed.

(** *** The blocks *)

Lemma checks_unstable_names_true language :
  checks_unstable_names language = true ↔ Spec.screened_language language.
Proof.
  unfold checks_unstable_names, Spec.screened_language.
  destruct language as [l|].
  - rewrite andb_true_iff, bool_decide_eq_true, negb_true_iff. split.
    + intros [_ Hl]. eauto.
    + intros (l' & [= <-] & Hl). split; [| done].
      destruct l; [| done]. vm_compute in Hl.
      by repeat (apply elem_of_cons in Hl as [Hl | Hl]; [discriminate |]);
         apply elem_of_nil in Hl.
  - split; [discriminate | by intros (l & ? & _)].
Qed.

Lemma has_unstable_pattern_true t :
  _has_unstable_pattern t = true ↔ Spec.unstable_name t.
Proof.
  unfold _has_unstable_pattern, Spec.unstable_name.
  rewrite existsb_exists. split.
  - intros (r & Hr%list_elem_of_In & Hs%RegexFacts.search_has_match). eauto.
  - intros (r & Hr%list_elem_of_In & Hs%RegexFacts.search_has_match). eauto.
Qed.

Lemma check_unstable_names_Some language all c :
  check_unstable_names language all = Some c ↔
  c = "unstable_test_name" ∧ Spec.screened_language language
  ∧ ∃ t, t ∈ all ∧ Spec.unstable_name t.
Proof.
  unfold check_unstable_names.
  rewrite <- checks_unstable_names_true.
  destruct (checks_unstable_names language).
  - rewrite reject_if_Some. setoid_rewrite has_unstable_pattern_true. tauto.
  - split; [discriminate | by intros (_ & ? & _)].
Qed.

Lemma check_unstable_names_None language all :
  check_unstable_names language all = None ↔
  ¬ (Spec.screened_language language ∧ ∃ t, t ∈ all ∧ Spec.unstable_name t).
Proof.
  pose proof (check_unstable_names_Some language all "unstable_test_name") as HS.
  destruct (check_unstable_names language all) as [c|] eqn:Hc.
  - apply check_unstable_names_Some in Hc as (-> & ? & ?).
    split; [discriminate | tauto].
  - split; [| done]. intros _ Hn. by pose proof (proj2 HS (conj eq_refl Hn)).
Qed.

Lemma size_list_to_set_le (l : list string) :
  size (list_to_set l : gset string) ≤ length l.
Proof.
  induction l as [|x l IH]; [done |].
  change (list_to_set (x :: l) : gset string)
    with ({[x]} ∪ list_to_set l : gset string).
  rewrite size_union_alt, size_singleton. simpl.
  assert (size (list_to_set l ∖ {[x]} : gset string)
          ≤ size (list_to_set l : gset string)) as Hs.
  { apply subseteq_size. intros y [Hy _]%elem_of_difference. done. }
  lia.
Qed.

Lemma length_size_NoDup (l : list string) :
  length l = size (list_to_set l : gset string) ↔ NoDup l.
Proof.
  split; [| intros Hnd; by rewrite size_list_to_set].
  induction l as [|x l IH]; [constructor |].
  change (list_to_set (x :: l) : gset string)
    with ({[x]} ∪ list_to_set l : gset string).
  simpl. intros Hlen. pose proof (size_list_to_set_le l) as Hle.
  destruct (decide (x ∈ l)) as [Hin | Hnin].
  - exfalso.
    rewrite (subseteq_union_1_L {[x]} (list_to_set l : gset string)) in Hlen
      by (by apply singleton_subseteq_l, elem_of_list_to_set).
    lia.
  - constructor; [done |]. apply IH.
    rewrite size_union, size_singleton in Hlen
      by (by apply disjoint_singleton_l; rewrite elem_of_list_to_set).
    lia.
Qed.

Lemma check_duplicates_Some all c :
  check_duplicates all = Some c ↔ c = "duplicate_test_names" ∧ ¬ NoDup all.
Proof.
  unfold check_duplicates. rewrite <- length_size_NoDup.
  case_bool_decide; split; intros; intuition congruence.
Qed.

Lemma check_duplicates_None all : check_duplicates all = None ↔ NoDup all.
Proof.
  unfold check_duplicates. rewrite <- length_size_NoDup.
  case_bool_decide as Hd; split; intros; done.
Qed.

Lemma check_failed_base_Some base p2p c :
  check_failed_base base p2p = Some c ↔
  c = "failed_base_in_p2p" ∧ ∃ t, t ∈ p2p ∧ Spec.F base t.
Proof.
  unfold check_failed_base. rewrite reject_if_Some.
  setoid_rewrite bool_decide_eq_true. by setoid_rewrite failing_iff.
Qed.

Lemma check_failed_base_None base p2p :
  check_failed_base base p2p = None ↔ ∀ t, t ∈ p2p → ¬ Spec.F base t.
Proof.
  unfold check_failed_base. rewrite reject_if_None.
  setoid_rewrite bool_decide_eq_false. by setoid_rewrite failing_iff.
Qed.

Lemma check_failed_after_Some after all c :
  check_failed_after after all = Some c ↔
  c = "failed_after_in_f2p_p2p"
  ∧ ∃ t, t ∈ all ∧ (Spec.F after t ∨ after !! t = None).
Proof.
  unfold check_failed_after. rewrite reject_if_Some.
  setoid_rewrite orb_true_iff. setoid_rewrite bool_decide_eq_true.
  setoid_rewrite failing_iff. setoid_rewrite not_elem_of_dom. done.
Qed.

Lemma check_failed_after_None after all :
  check_failed_after after all = None ↔
  ∀ t, t ∈ all → is_Some (after !! t) ∧ ¬ Spec.F after t.
Proof.
  unfold check_failed_after. rewrite reject_if_None.
  split; intros H t Ht; specialize (H t Ht).
  - apply orb_false_iff in H as [H1 H2].
    apply bool_decide_eq_false in H1, H2. rewrite failing_iff in H1.
    split; [| done]. apply elem_of_dom. by apply dec_stable.
  - destruct H as [Hs Hf]. apply orb_false_iff.
    split; apply bool_decide_eq_false.
    + by rewrite failing_iff.
    + intros Hn. apply Hn. by apply elem_of_dom.
Qed.

Lemma check_p2p_missing_base_Some base before p2p c :
  check_p2p_missing_base base before p2p = Some c ↔
  c = "p2p_missing_base_not_passing_before"
  ∧ ∃ t, t ∈ p2p ∧ base !! t = None ∧ ¬ Spec.P before t.
Proof.
  unfold check_p2p_missing_base. rewrite reject_if_Some.
  setoid_rewrite andb_true_iff. setoid_rewrite bool_decide_eq_true.
  setoid_rewrite passing_iff. setoid_rewrite not_elem_of_dom. done.
Qed.

Lemma check_p2p_missing_base_None base before p2p :
  check_p2p_missing_base base before p2p = None ↔
  ∀ t, t ∈ p2p → base !! t = None → Spec.P before t.
Proof.
  unfold check_p2p_missing_base. rewrite reject_if_None.
  split; intros H t Ht; specialize (H t Ht).
  - intros Hb. apply andb_false_iff in H as [H | H];
      apply bool_decide_eq_false in H.
    + destruct H. by apply not_elem_of_dom.
    + rewrite passing_iff in H. by apply dec_stable.
  - apply andb_false_iff.
    destruct (base !! t) eqn:Hb.
    + left. apply bool_decide_eq_false. intros Hn. apply Hn, elem_of_dom. eauto.
    + right. apply bool_decide_eq_false. intros Hn. apply Hn, passing_iff. auto.
Qed.

Lemma reject_not_in_all_stages_Some base before after (l : list string) c :
  reject_not_in_all_stages base before after l = Some c ↔
  c = "test_not_in_all_stages"
  ∧ ∃ t, t ∈ l
      ∧ ((base !! t = None ∧ before !! t = None ∧ after !! t = None)
         ∨ (is_Some (base !! t) ∧ (before !! t = None ∨ after !! t = None))).
Proof.
  induction l as [|x l IH]; simpl.
  - split; [discriminate | intros (_ & t & Ht & _); by apply elem_of_nil in Ht].
  - unfold ran_count.
    pose proof (in_dict_true x base) as Hb1.
    pose proof (in_dict_false x base) as Hb0.
    pose proof (in_dict_true x before) as Hf1.
    pose proof (in_dict_false x before) as Hf0.
    pose proof (in_dict_true x after) as Ha1.
    pose proof (in_dict_false x after) as Ha0.
    assert (∀ o : option string, is_Some o → o = None → False) as Hsn
      by (intros o [? ->]; discriminate).
    destruct (in_dict x base), (in_dict x before), (in_dict x after); simpl;
      rewrite ?IH; (split;
       [ first
           [ intros [= <-]; split; [done |]; exists x;
             split; [left |]; intuition auto
           | intros (-> & t & Ht & Hc); split; [done |]; exists t;
             split; [by right | done] ]
       | intros (-> & t & [-> | Ht]%elem_of_cons & Hc);
         [ try done; exfalso; intuition eauto | try done; eauto ] ]).
Qed.

(** [validate_f2p_p2p_result] on two non-empty lists is the sequence of its
    six blocks. *)
Lemma validate_nonempty f2p p2p base before after language :
  f2p ≠ [] → p2p ≠ [] →
  validate_f2p_p2p_result f2p p2p base before after language
  = or_else (check_unstable_names language (f2p ++ p2p))
      (or_else (check_duplicates (f2p ++ p2p))
         (or_else (check_failed_base base p2p)
            (or_else (check_failed_after after (f2p ++ p2p))
               (or_else (check_p2p_missing_base base before p2p)
                  (reject_not_in_all_stages base before after (f2p ++ p2p)))))).
Proof. by destruct f2p, p2p. Qed.

Lemma validate_empty_f2p p2p base before after language :
  validate_f2p_p2p_result [] p2p base before after language = Some "empty_f2p".
Proof. done. Qed.

Lemma validate_empty_p2p f2p base before after language :
  f2p ≠ [] →
  validate_f2p_p2p_result f2p [] base before after language = Some "empty_p2p".
Proof. by destruct f2p. Qed.

(** Each block returns its own code only. *)
Ltac other_code :=
  match goal with
  | H : check_unstable_names _ _ = Some _ |- _ =>
      apply check_unstable_names_Some in H as [? _]; discriminate
  | H : check_duplicates _ = Some _ |- _ =>
      apply check_duplicates_Some in H as [? _]; discriminate
  | H : check_failed_base _ _ = Some _ |- _ =>
      apply check_failed_base_Some in H as [? _]; discriminate
  | H : check_failed_after _ _ = Some _ |- _ =>
      apply check_failed_after_Some in H as [? _]; discriminate
  | H : check_p2p_missing_base _ _ _ = Some _ |- _ =>
      apply check_p2p_missing_base_Some in H as [? _]; discriminate
  | H : reject_not_in_all_stages _ _ _ _ = Some _ |- _ =>
      apply reject_not_in_all_stages_Some in H as [? _]; discriminate
  end.

(** *** [unstable_test_name] *)




(** *** [test_not_in_all_stages] *)




(** *** A classified test that is missing from [after] *)

Ltac in_list := repeat first [by left | right].


End ValidatorFacts.

(** * Properties of the aggregated stage maps *)

Module OrchestratorFacts.

Import Base Analyzer ClassifierFacts SortedFacts ValidatorFacts AnalysisFacts.
Local Open Scope list_scope.












End OrchestratorFacts.

(** * Properties of the registry *)

Module RegistryFacts.

Import Registry ClassifierFacts.
Local Open Scope list_scope.

Lemma elem_of_ALL_RUNNERS (r : RunnerClass) : r ∈ ALL_RUNNERS.
Proof. destruct r; unfold ALL_RUNNERS; repeat first [by left | right]. Qed.

Lemma NoDup_ALL_RUNNERS : NoDup ALL_RUNNERS.
Proof. refine (bool_decide_unpack _ _). by vm_compute. Qed.

(** The preferred runners of a language are listed once each. *)
Lemma NoDup_LANGUAGE_RUNNERS hint runners :
  LANGUAGE_RUNNERS !! hint = Some runners → NoDup runners.
Proof.
  assert (map_Forall (λ _ l, NoDup l) LANGUAGE_RUNNERS) as Hall
    by (refine (bool_decide_unpack _ _); by vm_compute).
  apply Hall.
Qed.

Lemma NoDup_hint_first (runners : list RunnerClass) :
  NoDup runners → NoDup (runners ++ filter (λ r, r ∉ runners) ALL_RUNNERS).
Proof.
  intros Hnd. apply NoDup_app. split; [done |]. split.
  - intros r Hr [Hn _]%list_elem_of_filter. done.
  - apply NoDup_filter, NoDup_ALL_RUNNERS.
Qed.

Lemma hint_first_Permutation (runners : list RunnerClass) :
  NoDup runners →
  runners ++ filter (λ r, r ∉ runners) ALL_RUNNERS ≡ₚ ALL_RUNNERS.
Proof.
  intros Hnd. apply NoDup_Permutation.
  - by apply NoDup_hint_first.
  - apply NoDup_ALL_RUNNERS.
  - intros r. split; [intros _; apply elem_of_ALL_RUNNERS |].
    intros Hr. apply elem_of_app.
    destruct (decide (r ∈ runners)); [by left |].
    right. by apply list_elem_of_filter.
Qed.

Lemma candidates_cases language_hint :
  (∃ hint runners, language_hint = Some hint
     ∧ LANGUAGE_RUNNERS !! hint = Some runners
     ∧ candidates language_hint
       = runners ++ filter (λ r, r ∉ runners) ALL_RUNNERS)
  ∨ ((∀ hint, language_hint = Some hint → LANGUAGE_RUNNERS !! hint = None)
     ∧ candidates language_hint = ALL_RUNNERS).
Proof.
  unfold candidates. destruct language_hint as [hint|].
  - destruct (LANGUAGE_RUNNERS !! hint) as [runners|] eqn:Hl.
    + left. by exists hint, runners.
    + right. split; [by intros ? [= <-] |].
      simpl. apply filter_all. intros r _. apply not_elem_of_nil.
  - right. split; [done |].
    simpl. apply filter_all. intros r _. apply not_elem_of_nil.
Qed.

(** *** The detection loop *)

(** After the loop over [l] started at [(b, s)]: the best score bounds [s]
    and every score seen, and the pair is the initial one or a runner of
    [l] with its own score, which then exceeds [s]. *)
Lemma foldl_consider detect (l : list RunnerClass) (b : option RunnerClass) (s : Z) :
  let best := foldl (consider detect) (b, s) l in
  s ≤ best.2
  ∧ (∀ r x, r ∈ l → detect r = Some x → x ≤ best.2)
  ∧ (best = (b, s)
     ∨ ∃ r, r ∈ l ∧ best.1 = Some r ∧ detect r = Some best.2 ∧ s < best.2).
Proof.
  revert b s. induction l as [|c l IH]; intros b s; simpl.
  - split; [lia |]. split; [| by left].
    intros r x Hr. by apply elem_of_nil in Hr.
  - assert (consider detect (b, s) c = (b, s) ∧ (∀ x, detect c = Some x → x ≤ s)
            ∨ ∃ score, consider detect (b, s) c = (Some c, score)
                       ∧ detect c = Some score ∧ s < score) as Hstep.
    { unfold consider. simpl. destruct (detect c) as [score|] eqn:Hc.
      - destruct (s <? score) eqn:Hlt.
        + apply Z.ltb_lt in Hlt. right. by exists score.
        + apply Z.ltb_ge in Hlt. left. split; [done |]. by intros x [= <-].
      - left. split; [done |]. by intros x. }
    destruct Hstep as [[-> Hc] | (score & -> & Hc & Hlt)].
    + destruct (IH b s) as (Hle & Hall & Hbest).
      split; [done |]. split.
      * intros r x [-> | Hr]%elem_of_cons Hx; [| by eapply Hall].
        specialize (Hc x Hx). lia.
      * destruct Hbest as [Heq | (r & Hr & H1 & H2 & H3)]; [by left |].
        right. exists r. split; [by right | done].
    + destruct (IH (Some c) score) as (Hle & Hall & Hbest).
      split; [lia |]. split.
      * intros r x [-> | Hr]%elem_of_cons Hx; [| by eapply Hall].
        rewrite Hc in Hx. by injection Hx as <-.
      * right. destruct Hbest as [Heq | (r & Hr & H1 & H2 & H3)].
        -- exists c. rewrite Heq. simpl. split; [left | done].
        -- exists r. split; [by right |]. split; [done |]. split; [done | lia].
Qed.

Lemma get_runner_missing_repo detect language_hint :
  get_runner false detect language_hint = None.
Proof. done. Qed.

(** With a maximum of at least 30 a runner reaching it is returned. *)
Lemma get_runner_max detect language_hint m :
  Spec.max_score detect (candidates language_hint) m → 30 ≤ m →
  ∃ r, get_runner true detect language_hint = Some r
       ∧ r ∈ candidates language_hint ∧ detect r = Some m.
Proof.
  intros [(r0 & Hr0 & Hm) Hmax] H30. unfold get_runner. simpl.
  destruct (foldl_consider detect (candidates language_hint) None 0)
    as (_ & Hall & Hbest).
  destruct (foldl (consider detect) (None, 0) (candidates language_hint))
    as [best_runner best_score].
  simpl in *. pose proof (Hall r0 m Hr0 Hm) as Hle.
  destruct Hbest as [[= -> ->] | (r & Hr & -> & Hs & _)]; [lia |].
  pose proof (Hmax r best_score Hr Hs) as Hge.
  assert (best_score = m) as -> by lia.
  rewrite (proj2 (Z.leb_le 30 m) H30). eauto.
Qed.

(** With a maximum below 30 no runner is returned. *)
Lemma get_runner_below_threshold detect language_hint m :
  Spec.max_score detect (candidates language_hint) m → m < 30 →
  get_runner true detect language_hint = None.
Proof.
  intros [_ Hmax] H30. unfold get_runner. simpl.
  destruct (foldl_consider detect (candidates language_hint) None 0)
    as (_ & _ & Hbest).
  destruct (foldl (consider detect) (None, 0) (candidates language_hint))
    as [best_runner best_score].
  simpl in *.
  destruct Hbest as [[= -> ->] | (r & Hr & -> & Hs & _)]; [done |].
  pose proof (Hmax r best_score Hr Hs) as Hge.
  by rewrite (proj2 (Z.leb_gt 30 best_score)) by lia.
Qed.

(** *** [get_all_detected_runners] *)

Lemma foldl_collect detect (l : list RunnerClass) (acc : list (RunnerClass * Z)) p :
  p ∈ foldl (collect detect) acc l
  ↔ p ∈ acc ∨ (p.1 ∈ l ∧ detect p.1 = Some p.2 ∧ 0 < p.2).
Proof.
  revert acc. induction l as [|c l IH]; intros acc; simpl.
  - split; [by left | intros [? | [Hn _]]; [done | by apply elem_of_nil in Hn]].
  - rewrite IH. unfold collect. rewrite elem_of_cons.
    destruct (detect c) as [score|] eqn:Hc.
    + destruct (0 <? score) eqn:Hpos.
      * apply Z.ltb_lt in Hpos. rewrite elem_of_app, list_elem_of_singleton.
        split.
        -- intros [[? | ->] | ?]; [by left | | tauto].
           right. simpl. auto.
        -- intros [? | [[Heq | ?] [Hd ?]]]; [tauto | | tauto].
           left. right. destruct p as [r x]. simpl in *. subst.
           rewrite Hc in Hd. by injection Hd as ->.
      * apply Z.ltb_ge in Hpos. split; [tauto |].
        intros [? | [[Heq | ?] [Hd ?]]]; [tauto | | tauto].
        subst. rewrite Hc in Hd. injection Hd as Hd. lia.
    + split; [tauto |].
      intros [? | [[Heq | ?] [Hd ?]]]; [tauto | | tauto].
      subst. congruence.
Qed.

Lemma NoDup_foldl_collect detect (l : list RunnerClass) (acc : list (RunnerClass * Z)) :
  NoDup l → NoDup acc → (∀ p, p ∈ acc → p.1 ∉ l) →
  NoDup (foldl (collect detect) acc l).
Proof.
  revert acc. induction l as [|c l IH]; intros acc Hl Hacc Hdisj; [done |].
  apply NoDup_cons in Hl as [Hc Hl]. simpl. apply IH; [done | |].
  - unfold collect. destruct (detect c) as [score|]; [| done].
    destruct (0 <? score); [| done].
    apply NoDup_app. split; [done |]. split; [| apply NoDup_singleton].
    intros p Hp ->%list_elem_of_singleton. apply (Hdisj _ Hp). left.
  - intros p Hp. unfold collect in Hp.
    assert (p ∈ acc ∨ p.1 = c) as [Hin | ->].
    { destruct (detect c) as [score|]; [| by left].
      destruct (0 <? score); [| by left].
      apply elem_of_app in Hp as [? | ->%list_elem_of_singleton]; auto. }
    + intros Hn. apply (Hdisj _ Hin). by right.
    + done.
Qed.

Lemma insert_by_score_Permutation x (l : list (RunnerClass * Z)) :
  insert_by_score x l ≡ₚ x :: l.
Proof.
  induction l as [|y l IH]; simpl; [done |].
  destruct (x.2 <? y.2); [| done].
  rewrite IH. apply Permutation_swap.
Qed.

Lemma sorted_by_score_desc_Permutation (l : list (RunnerClass * Z)) :
  sorted_by_score_desc l ≡ₚ l.
Proof.
  induction l as [|x l IH]; simpl; [done |].
  by rewrite insert_by_score_Permutation, IH.
Qed.

#[local] Instance score_ge_trans : Transitive Spec.score_ge.
Proof. unfold Spec.score_ge. intros a b c ? ?. lia. Qed.

Lemma insert_by_score_Sorted x (l : list (RunnerClass * Z)) :
  Sorted Spec.score_ge l → Sorted Spec.score_ge (insert_by_score x l).
Proof.
  induction 1 as [|y l Hl IH Hy]; simpl; [by repeat constructor |].
  destruct (x.2 <? y.2) eqn:Hxy.
  - apply Z.ltb_lt in Hxy. constructor; [done |].
    destruct Hy as [|z l Hz]; simpl.
    + constructor. unfold Spec.score_ge. lia.
    + destruct (x.2 <? z.2); constructor; [done |]. unfold Spec.score_ge. lia.
  - apply Z.ltb_ge in Hxy. constructor; [by constructor |].
    constructor. unfold Spec.score_ge. lia.
Qed.

Lemma sorted_by_score_desc_Sorted (l : list (RunnerClass * Z)) :
  StronglySorted Spec.score_ge (sorted_by_score_desc l).
Proof.
  apply Sorted_StronglySorted; [apply score_ge_trans |].
  induction l as [|x l IH]; simpl; [constructor |].
  by apply insert_by_score_Sorted.
Qed.

(** C7.  For an existing repository path, [get_runner] evaluates [detect]
    on the candidates: the runners preferred for the hinted language first,
    then every other runner, each runner once; it returns a candidate
    reaching the maximum score when that maximum is at least 30, and [None]
    when it is below 30.  [get_all_detected_runners] returns exactly the
    runners with a score above 0, each once, by decreasing score. *)
Theorem get_runner_selects_best detect language_hint :
  let cs := candidates language_hint in
  ((∃ hint runners, language_hint = Some hint
      ∧ LANGUAGE_RUNNERS !! hint = Some runners
      ∧ cs = runners ++ filter (λ r, r ∉ runners) ALL_RUNNERS)
   ∨ ((∀ hint, language_hint = Some hint → LANGUAGE_RUNNERS !! hint = None)
      ∧ cs = ALL_RUNNERS))
  ∧ NoDup cs ∧ cs ≡ₚ ALL_RUNNERS
  ∧ (∀ m, Spec.max_score detect cs m →
       (30 ≤ m → ∃ r, get_runner true detect language_hint = Some r
                      ∧ r ∈ cs ∧ detect r = Some m)
       ∧ (m < 30 → get_runner true detect language_hint = None))
  ∧ (∀ r s, (r, s) ∈ get_all_detected_runners detect
            ↔ detect r = Some s ∧ 0 < s)
  ∧ StronglySorted Spec.score_ge (get_all_detected_runners detect)
  ∧ NoDup (get_all_detected_runners detect).
Proof.
  intros cs. subst cs.
  split; [apply candidates_cases |].
  assert (NoDup (candidates language_hint)
          ∧ candidates language_hint ≡ₚ ALL_RUNNERS) as [Hnd Hperm].
  { destruct (candidates_cases language_hint)
      as [(hint & runners & _ & Hl & ->) | [_ ->]].
    - apply NoDup_LANGUAGE_RUNNERS in Hl.
      split; [by apply NoDup_hint_first | by apply hint_first_Permutation].
    - split; [apply NoDup_ALL_RUNNERS | done]. }
  split; [done |]. split; [done |]. split.
  { intros m Hm. split; intros H30.
    - by apply get_runner_max.
    - by eapply get_runner_below_threshold. }
  unfold get_all_detected_runners. split; [| split].
  - intros r s. rewrite sorted_by_score_desc_Permutation, foldl_collect. simpl.
    split.
    + intros [Hn | (_ & ? & ?)]; [by apply elem_of_nil in Hn | done].
    + intros [? ?]. right. split; [apply elem_of_ALL_RUNNERS | done].
  - apply sorted_by_score_desc_Sorted.
  - rewrite sorted_by_score_desc_Permutation.
    apply NoDup_foldl_collect; [apply NoDup_ALL_RUNNERS | constructor |].
    intros p Hp. by apply elem_of_nil in Hp.
Qed.

Lemma get_runner_selects_best_witness :
  Spec.max_score Examples.detect1 (candidates (Some "JavaScript")) 80
  ∧ ∃ r, get_runner true Examples.detect1 (Some "JavaScript") = Some r
         ∧ r ∈ candidates (Some "JavaScript")
         ∧ Examples.detect1 r = Some 80.
Proof.
  assert (Spec.max_score Examples.detect1 (candidates (Some "JavaScript")) 80)
    as Hmax.
  { split.
    - exists VitestRunner. split; [left | done].
    - intros r s _. destruct r; intros [= <-]; done. }
  split; [exact Hmax |].
  apply (get_runner_selects_best Examples.detect1 (Some "JavaScript"));
    [exact Hmax | done].
Defined.

End RegistryFacts.

(** * Properties of the runners' error field *)

Module JavascriptFacts.

Import Base Javascript.
Local Open Scope list_scope.

(** [JestRunner.run_tests] sets an error only on a result without tests. *)
Lemma JestRunner_error_only_without_tests json_file parse outcome :
  let result := JestRunner_run_tests json_file parse outcome in
  TestResult.error result ≠ None → TestResult.total_tests result = 0%nat.
Proof.
  simpl. unfold JestRunner_run_tests.
  destruct outcome as [returncode stdout stderr | message]; [| done].
  destruct json_file as [[[p f] k]|]; [done |].
  destruct (parse stdout) as [[[p f] k]|]; [done |].
  by destruct (negb (returncode =? 0)).
Qed.

(** C8 fails on [NodeTestRunner.run_tests]: when the command exits with a
    non-zero code and the parsed output has passed tests and no failed test,
    the result carries both the passed tests and an error string. *)
Theorem NodeTestRunner_error_with_passed_tests returncode stdout stderr
    passed skipped :
  _parse_tap_output (stdout ++ newline ++ stderr)%string = (passed, [], skipped) →
  returncode ≠ 0 →
  let result := NodeTestRunner_run_tests (Completed returncode stdout stderr) in
  TestResult.passed result = passed
  ∧ TestResult.error result
    = Some ("node --test failed with exit code " ++ str_of_int returncode)%string.
Proof.
  intros Hparse Hrc. simpl. unfold NodeTestRunner_run_tests. rewrite Hparse.
  by rewrite (proj2 (Z.eqb_neq returncode 0) Hrc).
Qed.

Lemma NodeTestRunner_error_with_passed_tests_witness :
  TestResult.passed
    (NodeTestRunner_run_tests (Completed 1 Examples.tap_passing ""))
  = ["adds numbers"; "subtracts numbers"]
  ∧ TestResult.error
      (NodeTestRunner_run_tests (Completed 1 Examples.tap_passing ""))
    = Some "node --test failed with exit code 1".
Proof.
  apply (NodeTestRunner_error_with_passed_tests 1 Examples.tap_passing ""
           ["adds numbers"; "subtracts numbers"] []).
  - vm_compute. reflexivity.
  - discriminate.
Defined.

(** With a failed test in the parsed output the exit code sets no error. *)
Lemma NodeTestRunner_no_error_with_failed_tests returncode stdout stderr :
  (_parse_tap_output (stdout ++ newline ++ stderr)%string).1.2 ≠ [] →
  TestResult.error (NodeTestRunner_run_tests
                      (Completed returncode stdout stderr)) = None.
Proof.
  unfold NodeTestRunner_run_tests.
  destruct (_parse_tap_output _) as [[p f] k]. simpl. intros Hf.
  destruct f; [done |]. simpl. by rewrite andb_false_r.
Qed.

Example parse_tap_failing :
  _parse_tap_output Examples.tap_failing
  = (["adds numbers"], ["subtracts numbers"], []).
Proof. vm_compute. reflexivity. Qed.

End JavascriptFacts.

(** * How the classifier decides *)

Module ClassifierDecisions.

Import Analyzer ClassifierFacts.
Local Open Scope list_scope.

(** Membership in F2P and in P2P, under whichever rule applies. *)
Lemma elem_of_report (base before after : gmap string string) has_new :
  let r := generate_test_report base before after has_new in
  (Spec.rule_A has_new before
   ∧ ∀ t, (t ∈ FAIL_TO_PASS r ↔ Spec.F2P_final base before after t)
          ∧ (t ∈ PASS_TO_PASS r ↔ Spec.P2P_final base before after t))
  ∨ (Spec.rule_B has_new before
     ∧ ∀ t, (t ∈ FAIL_TO_PASS r ↔ Spec.F before t ∧ Spec.P after t)
            ∧ (t ∈ PASS_TO_PASS r ↔ Spec.P before t ∧ Spec.P after t)).
Proof.
  simpl. destruct (has_new || negb (has_mixed_before before)) eqn:Hrule.
  - apply rule_A_condition in Hrule. left. split; [done |]. intros t.
    rewrite rule_A_lists by done. simpl. split.
    + apply elem_of_f2p2.
    + apply elem_of_p2p2.
  - apply rule_B_condition in Hrule. right. split; [done |]. intros t.
    rewrite rule_B_lists by done. simpl.
    rewrite !list_elem_of_filter, elem_of_all_tests.
    pose proof (passing_is_Some before t). pose proof (failing_is_Some before t).
    tauto.
Qed.

(** The two final classes of Rule A in closed form. *)
Lemma F2P_final_closed (base before after : gmap string string) t :
  Spec.F2P_final base before after t
  ↔ Spec.P after t
    ∧ (Spec.F before t ∨ (¬ Spec.P before t ∧ ¬ Spec.P base t)).
Proof.
  unfold Spec.F2P_final, Spec.P2P_first, Spec.F2P_first, Spec.F2P_initial,
    Spec.P2P_initial.
  pose proof (passing_not_failing before t).
  destruct (decide (Spec.P before t)), (decide (Spec.P base t)); tauto.
Qed.

Lemma P2P_final_closed (base before after : gmap string string) t :
  Spec.P2P_final base before after t
  ↔ Spec.P after t
    ∧ (Spec.P before t ∨ (¬ Spec.F before t ∧ Spec.P base t)).
Proof.
  unfold Spec.P2P_final, Spec.P2P_first, Spec.F2P_first, Spec.F2P_initial,
    Spec.P2P_initial.
  pose proof (passing_not_failing before t).
  destruct (decide (Spec.P before t)), (decide (Spec.P base t)); tauto.
Qed.

(** X1.  Under Rule A the two passes amount to one decision per test that
    passes in [after]: its outcome in [before] decides when it passed or
    failed there, and [base] decides only otherwise.  F2P holds the tests
    failing in [before], and those with no outcome in [before] that do not
    pass in [base]; P2P holds the tests passing in [before], and those with
    no outcome in [before] that pass in [base].  So every test passing in
    [after] is in F2P or in P2P, and no other test is. *)
Theorem rule_A_decides_by_before (base before after : gmap string string)
    has_new t :
  Spec.rule_A has_new before →
  let r := generate_test_report base before after has_new in
  (t ∈ FAIL_TO_PASS r
   ↔ Spec.P after t
     ∧ (Spec.F before t ∨ (¬ Spec.P before t ∧ ¬ Spec.P base t)))
  ∧ (t ∈ PASS_TO_PASS r
     ↔ Spec.P after t
       ∧ (Spec.P before t ∨ (¬ Spec.F before t ∧ Spec.P base t)))
  ∧ (t ∈ FAIL_TO_PASS r ∨ t ∈ PASS_TO_PASS r ↔ Spec.P after t).
Proof.
  intros HA r. subst r. rewrite rule_A_lists by done. simpl.
  rewrite elem_of_f2p2, elem_of_p2p2, F2P_final_closed, P2P_final_closed.
  pose proof (passing_not_failing before t).
  destruct (decide (Spec.P before t)), (decide (Spec.F before t)),
    (decide (Spec.P base t)); tauto.
Qed.

Lemma rule_A_decides_by_before_witness :
  Spec.rule_A true Examples.before1
  ∧ ("T_new" ∈ FAIL_TO_PASS (generate_test_report Examples.base1
                 Examples.before1 Examples.after1 true)
     ∨ "T_new" ∈ PASS_TO_PASS (generate_test_report Examples.base1
                   Examples.before1 Examples.after1 true)
     ↔ Spec.P Examples.after1 "T_new").
Proof.
  assert (Spec.rule_A true Examples.before1) as HA by (by left).
  split; [exact HA |].
  apply (rule_A_decides_by_before Examples.base1 Examples.before1
           Examples.after1 true "T_new" HA).
Defined.

(** X2.  A test that passed or failed in [before] is classified by its
    (before, after) transition whatever the rule: neither [base] nor the
    [has_new_test_file] flag changes whether it is in F2P or in P2P.  The
    flag and [base] only matter for tests without an outcome in [before]. *)
Theorem before_outcome_fixes_class (base before after : gmap string string)
    has_new t :
  Spec.P before t ∨ Spec.F before t →
  let r := generate_test_report base before after has_new in
  (t ∈ FAIL_TO_PASS r ↔ Spec.F before t ∧ Spec.P after t)
  ∧ (t ∈ PASS_TO_PASS r ↔ Spec.P before t ∧ Spec.P after t).
Proof.
  intros Hran r. subst r.
  pose proof (passing_not_failing before t) as Hx.
  destruct (elem_of_report base before after has_new) as [[_ H] | [_ H]];
    simpl in H; destruct (H t) as [-> ->]; [| tauto].
  rewrite F2P_final_closed, P2P_final_closed. tauto.
Qed.

Lemma before_outcome_fixes_class_witness :
  (Spec.P Examples.before1 "T_new" ∨ Spec.F Examples.before1 "T_new")
  ∧ ("T_new" ∈ FAIL_TO_PASS (generate_test_report Examples.base2
                 Examples.before1 Examples.after1 false)
     ↔ Spec.F Examples.before1 "T_new" ∧ Spec.P Examples.after1 "T_new").
Proof.
  assert (Spec.P Examples.before1 "T_new" ∨ Spec.F Examples.before1 "T_new")
    as Hran by (right; by left).
  split; [exact Hran |].
  apply (before_outcome_fixes_class Examples.base2 Examples.before1
           Examples.after1 false "T_new" Hran).
Defined.

End ClassifierDecisions.

(** * What the validator accepts, and what it can answer on the
      classifier's own lists *)

Module ValidatorDecisions.

Import Analyzer ClassifierFacts SortedFacts AnalysisFacts ValidatorFacts
  ClassifierDecisions.
Local Open Scope list_scope.

Lemma reject_not_in_all_stages_None base before after (l : list string) :
  reject_not_in_all_stages base before after l = None ↔
  ∀ t, t ∈ l →
    ¬ ((base !! t = None ∧ before !! t = None ∧ after !! t = None)
       ∨ (is_Some (base !! t) ∧ (before !! t = None ∨ after !! t = None))).
Proof.
  destruct (reject_not_in_all_stages base before after l) as [c|] eqn:Hr.
  - apply reject_not_in_all_stages_Some in Hr as (_ & t & Ht & Hc).
    split; [discriminate |]. intros Hall. by destruct (Hall t Ht).
  - split; [| done]. intros _ t Ht Hc.
    assert (reject_not_in_all_stages base before after l
            = Some "test_not_in_all_stages") as Hs
      by (apply reject_not_in_all_stages_Some; eauto).
    congruence.
Qed.

(** The codes the validator can return. *)
Lemma validate_codes f2p p2p base before after language c :
  validate_f2p_p2p_result f2p p2p base before after language = Some c →
  c ∈ ["empty_f2p"; "empty_p2p"; "unstable_test_name"; "duplicate_test_names";
       "failed_base_in_p2p"; "failed_after_in_f2p_p2p";
       "p2p_missing_base_not_passing_before"; "test_not_in_all_stages"].
Proof.
  destruct (decide (f2p = [])) as [-> | Hf].
  { rewrite validate_empty_f2p. intros [= <-]. in_list. }
  destruct (decide (p2p = [])) as [-> | Hp].
  { rewrite validate_empty_p2p by done. intros [= <-]. in_list. }
  rewrite validate_nonempty by done. intros H.
  apply or_else_Some in H as [H | [_ H]].
  { apply check_unstable_names_Some in H as [-> _]. in_list. }
  apply or_else_Some in H as [H | [_ H]].
  { apply check_duplicates_Some in H as [-> _]. in_list. }
  apply or_else_Some in H as [H | [_ H]].
  { apply check_failed_base_Some in H as [-> _]. in_list. }
  apply or_else_Some in H as [H | [_ H]].
  { apply check_failed_after_Some in H as [-> _]. in_list. }
  apply or_else_Some in H as [H | [_ H]].
  { apply check_p2p_missing_base_Some in H as [-> _]. in_list. }
  apply reject_not_in_all_stages_Some in H as [-> _]. in_list.
Qed.

(** X3.  The validator accepts (returns [None]) exactly when both lists are
    non-empty, no identifier is unstable for a screened language, F2P + P2P
    has no duplicate, no P2P test fails in [base], every listed test is a
    key of [after] and does not fail there, every P2P test missing from
    [base] passes in [before], and every listed test that is a key of
    [base] is a key of [before]. *)
Theorem validator_accepts_iff f2p p2p base before after language :
  validate_f2p_p2p_result f2p p2p base before after language = None
  ↔ Spec.earlier_rules_pass f2p p2p base before after language
    ∧ ∀ t, t ∈ f2p ++ p2p → is_Some (base !! t) → is_Some (before !! t).
Proof.
  unfold Spec.earlier_rules_pass.
  destruct (decide (f2p = [])) as [-> | Hf].
  { rewrite validate_empty_f2p. split; [discriminate | by intros [[? _] _]]. }
  destruct (decide (p2p = [])) as [-> | Hp].
  { rewrite validate_empty_p2p by done.
    split; [discriminate | by intros [(_ & ? & _) _]]. }
  rewrite validate_nonempty by done.
  rewrite !or_else_None.
  rewrite check_unstable_names_None, check_duplicates_None,
    check_failed_base_None, check_failed_after_None,
    check_p2p_missing_base_None, reject_not_in_all_stages_None.
  split.
  - intros (H1 & H2 & H3 & H4 & H5 & H6).
    repeat (split; [done |]).
    intros t Ht Hb. destruct (before !! t) eqn:Hbf; [eauto |].
    destruct (H6 t Ht). right. auto.
  - intros [(_ & _ & H1 & H2 & H3 & H4 & H5) H6].
    repeat (split; [done |]).
    intros t Ht [(Hb & Hbf & Ha) | (Hb & [Hbf | Ha])].
    + destruct (H4 t Ht) as [[? Hs] _]. congruence.
    + destruct (H6 t Ht Hb) as [? Hs]. congruence.
    + destruct (H4 t Ht) as [[? Hs] _]. congruence.
Qed.

(** On the sorted lists of a report three checks of the validator never
    fire. *)
Lemma report_checks_pass (base before after : gmap string string) has_new :
  let r := generate_test_report base before after has_new in
  let f2p := sorted (FAIL_TO_PASS r) in
  let p2p := sorted (PASS_TO_PASS r) in
  check_duplicates (f2p ++ p2p) = None
  ∧ check_failed_after after (f2p ++ p2p) = None
  ∧ check_p2p_missing_base base before p2p = None
  ∧ (Spec.rule_B has_new before →
     reject_not_in_all_stages base before after (f2p ++ p2p) = None).
Proof.
  intros r f2p p2p.
  assert (∀ t, t ∈ f2p ++ p2p → Spec.P after t) as Hafter.
  { intros t Ht. apply elem_of_app in Ht. unfold f2p, p2p in Ht.
    rewrite !elem_of_sorted in Ht.
    destruct (elem_of_report base before after has_new) as [[_ H] | [_ H]];
      simpl in H; fold r in H; destruct (H t) as [H1 H2];
      rewrite H1, H2 in Ht.
    - by apply (final_classes_pass_after base before after).
    - tauto. }
  split; [| split; [| split]].
  - apply check_duplicates_None.
    destruct (report_NoDup base before after has_new) as (Hf & Hp & _).
    destruct (report_disjoint base before after has_new) as (Hd & _).
    apply NoDup_app. split; [by apply sorted_NoDup |].
    split; [| by apply sorted_NoDup].
    intros t Ht1 Ht2. unfold f2p in Ht1. unfold p2p in Ht2.
    rewrite elem_of_sorted in Ht1, Ht2. by apply (Hd t).
  - apply check_failed_after_None. intros t Ht.
    pose proof (Hafter t Ht) as HP.
    split; [by apply passing_is_Some |].
    intros HF. by apply (passing_not_failing after t).
  - apply check_p2p_missing_base_None. intros t Ht Hb.
    unfold p2p in Ht. rewrite elem_of_sorted in Ht.
    destruct (elem_of_report base before after has_new) as [[_ H] | [_ H]];
      simpl in H; fold r in H; apply (H t) in Ht.
    + apply P2P_final_closed in Ht as [_ [? | [_ [HP | HP]]]];
        [done | congruence | congruence].
    + tauto.
  - intros HB. apply reject_not_in_all_stages_None. intros t Ht Hc.
    pose proof (Hafter t Ht) as [? Ha]%passing_is_Some.
    assert (is_Some (before !! t)) as [? Hbf].
    { apply elem_of_app in Ht. unfold f2p, p2p in Ht.
      rewrite !elem_of_sorted in Ht. subst r.
      rewrite rule_B_lists in Ht by done. simpl in Ht.
      rewrite !list_elem_of_filter in Ht.
      destruct Ht as [[[HF _] _] | [[HP _] _]];
        [by apply failing_is_Some | by apply passing_is_Some]. }
    intuition congruence.
Qed.

(** On the non-empty sorted lists of a report the validator amounts to
    three of its six checks. *)
Lemma report_validation (base before after : gmap string string) has_new
    language :
  let r := generate_test_report base before after has_new in
  let f2p := sorted (FAIL_TO_PASS r) in
  let p2p := sorted (PASS_TO_PASS r) in
  f2p ≠ [] → p2p ≠ [] →
  validate_f2p_p2p_result f2p p2p base before after language
  = or_else (check_unstable_names language (f2p ++ p2p))
      (or_else (check_failed_base base p2p)
         (reject_not_in_all_stages base before after (f2p ++ p2p))).
Proof.
  intros r f2p p2p Hf Hp.
  destruct (report_checks_pass base before after has_new)
    as (H2 & H4 & H5 & _). fold r in H2, H4, H5. fold f2p p2p in H2, H4, H5.
  rewrite validate_nonempty by done. by rewrite H2, H4, H5.
Qed.

(** X4.  Whatever the three maps, the flag and the language, the validator
    run on the sorted F2P and P2P lists that [generate_test_report] builds
    from the same maps never answers [duplicate_test_names],
    [failed_after_in_f2p_p2p] or [p2p_missing_base_not_passing_before]: a
    rejection is one of the five other codes; and when Rule B built the
    lists it is not [test_not_in_all_stages] either. *)
Theorem classifier_output_rejections (base before after : gmap string string)
    has_new language c :
  let r := generate_test_report base before after has_new in
  validate_f2p_p2p_result (sorted (FAIL_TO_PASS r)) (sorted (PASS_TO_PASS r))
    base before after language = Some c →
  c ∈ ["empty_f2p"; "empty_p2p"; "unstable_test_name"; "failed_base_in_p2p";
       "test_not_in_all_stages"]
  ∧ (Spec.rule_B has_new before → c ≠ "test_not_in_all_stages").
Proof.
  intros r.
  destruct (decide (sorted (FAIL_TO_PASS r) = [])) as [Hf | Hf].
  { rewrite Hf, validate_empty_f2p. intros [= <-]. split; [in_list | done]. }
  destruct (decide (sorted (PASS_TO_PASS r) = [])) as [Hp | Hp].
  { rewrite Hp, validate_empty_p2p by done. intros [= <-].
    split; [in_list | done]. }
  unfold r. rewrite report_validation by done. fold r. intros H.
  apply or_else_Some in H as [H | [_ H]].
  { apply check_unstable_names_Some in H as [-> _]. split; [in_list | done]. }
  apply or_else_Some in H as [H | [_ H]].
  { apply check_failed_base_Some in H as [-> _]. split; [in_list | done]. }
  split.
  - apply reject_not_in_all_stages_Some in H as [-> _]. in_list.
  - intros HB.
    destruct (report_checks_pass base before after has_new) as (_ & _ & _ & H6).
    fold r in H6. rewrite (H6 HB) in H. discriminate.
Qed.

Lemma classifier_output_rejections_witness :
  validate_f2p_p2p_result
    (sorted (FAIL_TO_PASS (generate_test_report Examples.base5 Examples.base5
                             Examples.after5 true)))
    (sorted (PASS_TO_PASS (generate_test_report Examples.base5 Examples.base5
                             Examples.after5 true)))
    Examples.base5 Examples.base5 Examples.after5 (Some "C++")
  = Some "unstable_test_name"
  ∧ "unstable_test_name"
    ∈ ["empty_f2p"; "empty_p2p"; "unstable_test_name"; "failed_base_in_p2p";
       "test_not_in_all_stages"].
Proof.
  assert (validate_f2p_p2p_result
    (sorted (FAIL_TO_PASS (generate_test_report Examples.base5 Examples.base5
                             Examples.after5 true)))
    (sorted (PASS_TO_PASS (generate_test_report Examples.base5 Examples.base5
                             Examples.after5 true)))
    Examples.base5 Examples.base5 Examples.after5 (Some "C++")
  = Some "unstable_test_name") as Hv by (vm_compute; reflexivity).
  split; [exact Hv |].
  exact (proj1 (classifier_output_rejections Examples.base5 Examples.base5
                  Examples.after5 true (Some "C++") "unstable_test_name" Hv)).
Defined.

End ValidatorDecisions.

(** * The result of an analysis: status fields, verdict, exit status *)

Module VerdictFacts.

Import Base Analyzer ClassifierFacts SortedFacts ValidatorFacts
  ValidatorDecisions.
Local Open Scope list_scope.

Lemma analyze_outcome has_new pkgs language :
  Notions.analysis_outcome (analyze has_new pkgs language).
Proof.
  unfold Notions.analysis_outcome, analyze.
  destruct (analyze_packages initial_state pkgs) as [msg | st].
  { right. right. simpl. repeat (split; [done |]). in_list. }
  destruct (packages_tested st =? 0)%nat.
  { right. right.
    destruct (packages_no_runner st), (errors st); simpl;
      repeat (split; [done |]); in_list. }
  destruct (bool_decide (all_tests_after st = ∅)
            && negb (bool_decide (errors st = []))).
  { right. right. simpl. repeat (split; [done |]). in_list. }
  set (r := generate_test_report _ _ _ _).
  destruct (validate_f2p_p2p_result (sorted (FAIL_TO_PASS r))
              (sorted (PASS_TO_PASS r)) (all_tests_base st)
              (all_tests_before st) (all_tests_after st) language)
    as [[|a c]|] eqn:Hv.
  - exfalso. apply validate_codes in Hv.
    repeat (apply elem_of_cons in Hv as [Hv | Hv]; [discriminate |]).
    by apply elem_of_nil in Hv.
  - right. left. simpl. repeat (split; [done |]). exists a, c.
    split; [done |]. generalize dependent (String a c). intros code Hv.
    destruct (decide (sorted (FAIL_TO_PASS r) = [])) as [Hf | Hf].
    { rewrite Hf, validate_empty_f2p in Hv. injection Hv as <-. in_list. }
    destruct (decide (sorted (PASS_TO_PASS r) = [])) as [Hp | Hp].
    { rewrite Hp, validate_empty_p2p in Hv by done.
      injection Hv as <-. in_list. }
    unfold r in Hv. rewrite report_validation in Hv by done.
    apply or_else_Some in Hv as [Hv | [_ Hv]].
    { apply check_unstable_names_Some in Hv as [-> _]. in_list. }
    apply or_else_Some in Hv as [Hv | [_ Hv]].
    { apply check_failed_base_Some in Hv as [-> _]. in_list. }
    apply reject_not_in_all_stages_Some in Hv as [-> _]. in_list.
  - left. simpl. repeat (split; [done |]).
    apply validator_accepts_iff in Hv as [(? & ? & _) _]. done.
Qed.

Lemma F2PP2PAnalyzer_analyze_outcome changed_files language_config added
    pkgs language :
  Notions.analysis_outcome (F2PP2PAnalyzer_analyze changed_files language_config added pkgs
             language).
Proof.
  unfold F2PP2PAnalyzer_analyze.
  destruct changed_files as [|f fs].
  { right. right. simpl. repeat (split; [done |]). in_list. }
  destruct (_filter_test_files language_config (f :: fs)).
  { right. right. simpl. repeat (split; [done |]). in_list. }
  apply analyze_outcome.
Qed.

Lemma has_valid_nonempty (l : list string) :
  l ≠ [] → (0 <? length l)%nat = true.
Proof. by destruct l. Qed.

(** The verdict of each shape. *)
Lemma outcome_verdict (res : F2PP2PResult.t) :
  Notions.analysis_outcome res →
  (F2PP2PResult.success res = true ∧ F2PP2PResult.verdict res = "VALID")
  ∨ (F2PP2PResult.success res = false
     ∧ ∃ c, F2PP2PResult.rejection_reason res = Some c
            ∧ c ∈ ["empty_f2p"; "empty_p2p"; "unstable_test_name";
                   "failed_base_in_p2p"; "test_not_in_all_stages"]
            ∧ F2PP2PResult.verdict res = ("REJECTED:" ++ c)%string)
  ∨ (F2PP2PResult.success res = false
     ∧ F2PP2PResult.error_code res = Some "BUILD_FAILED"
     ∧ F2PP2PResult.verdict res = "BUILD_FAILED")
  ∨ (F2PP2PResult.success res = false
     ∧ F2PP2PResult.error_code res
       ∈ [Some "RUNTIME_VERSION_MISMATCH"; Some "NO_TEST_RUNNER";
          Some "NO_CHANGED_FILES"; Some "NO_TEST_FILES"]
     ∧ F2PP2PResult.verdict res = "UNKNOWN").
Proof.
  destruct res as [f2p p2p f2f p2f success error error_code rejection has_new].
  unfold Notions.analysis_outcome, F2PP2PResult.verdict, F2PP2PResult.has_valid_f2p,
    F2PP2PResult.has_valid_p2p, F2PP2PResult.error_code_is. simpl.
  intros [(-> & -> & -> & Hf & Hp)
         | [(-> & -> & a & c & -> & Hc)
           | (-> & -> & -> & -> & Hcode)]].
  - left. by rewrite !has_valid_nonempty.
  - right. left. split; [done |]. by exists (String a c).
  - right. right.
    apply elem_of_cons in Hcode as [-> | Hcode]; [left; done | right].
    split; [done |]. split; [done |].
    repeat (apply elem_of_cons in Hcode as [-> | Hcode]; [done |]).
    by apply elem_of_nil in Hcode.
Qed.

(** X5.  An analysis ends in one of four ways: it succeeds, with both lists
    non-empty, and its verdict is VALID; or the validator rejects with one
    of five codes and the verdict is REJECTED: followed by the code; or the
    error code is BUILD_FAILED and so is the verdict; or the error code is
    RUNTIME_VERSION_MISMATCH, NO_TEST_RUNNER, NO_CHANGED_FILES or
    NO_TEST_FILES and the verdict is UNKNOWN.  The verdicts TIMEOUT,
    NO_TESTS, NO_F2P and NO_P2P never come out of an analysis. *)
Theorem analysis_verdicts changed_files language_config added pkgs language :
  let res := F2PP2PAnalyzer_analyze changed_files language_config added pkgs
               language in
  ((F2PP2PResult.success res = true ∧ F2PP2PResult.verdict res = "VALID")
   ∨ (F2PP2PResult.success res = false
      ∧ ∃ c, F2PP2PResult.rejection_reason res = Some c
             ∧ c ∈ ["empty_f2p"; "empty_p2p"; "unstable_test_name";
                    "failed_base_in_p2p"; "test_not_in_all_stages"]
             ∧ F2PP2PResult.verdict res = ("REJECTED:" ++ c)%string)
   ∨ (F2PP2PResult.success res = false
      ∧ F2PP2PResult.error_code res = Some "BUILD_FAILED"
      ∧ F2PP2PResult.verdict res = "BUILD_FAILED")
   ∨ (F2PP2PResult.success res = false
      ∧ F2PP2PResult.error_code res
        ∈ [Some "RUNTIME_VERSION_MISMATCH"; Some "NO_TEST_RUNNER";
           Some "NO_CHANGED_FILES"; Some "NO_TEST_FILES"]
      ∧ F2PP2PResult.verdict res = "UNKNOWN"))
  ∧ F2PP2PResult.verdict res
    ∉ ["TIMEOUT"; "NO_TESTS"; "NO_F2P"; "NO_P2P"].
Proof.
  intros res.
  pose proof (outcome_verdict res
    (F2PP2PAnalyzer_analyze_outcome changed_files language_config added pkgs
       language)) as Hv.
  split; [exact Hv |].
  intros Hin.
  destruct Hv as [[_ Hv] | [(_ & c & _ & _ & Hv) | [(_ & _ & Hv) | (_ & _ & Hv)]]];
    rewrite Hv in Hin;
    repeat (apply elem_of_cons in Hin as [Hin | Hin]; [discriminate |]);
    by apply elem_of_nil in Hin.
Qed.

(** X6.  The exit status of the command line after an analysis: 0 when the
    verdict is VALID, in both output modes.  Otherwise the JSON mode
    returns 1, and the text mode never reaches its return statement: the
    report of a failed analysis reads an attribute that the result does not
    have, which raises AttributeError. *)
Theorem exit_status_follows_verdict changed_files language_config added pkgs
    language :
  let res := F2PP2PAnalyzer_analyze changed_files language_config added pkgs
               language in
  (F2PP2PResult.verdict res = "VALID" →
     ∀ json, Cli.main_analysis json res = Cli.Return 0)
  ∧ (F2PP2PResult.verdict res ≠ "VALID" →
       Cli.main_analysis true res = Cli.Return 1
       ∧ Cli.main_analysis false res = Cli.AttributeError).
Proof.
  intros res.
  pose proof (F2PP2PAnalyzer_analyze_outcome changed_files language_config
                added pkgs language) as Ho.
  fold res in Ho. pose proof (outcome_verdict res Ho) as Hv.
  unfold Cli.main_analysis, Cli.exit_status, F2PP2PResult.has_valid_f2p,
    F2PP2PResult.has_valid_p2p.
  destruct Ho as [(Hs & _ & _ & Hf & Hp) | Ho].
  - rewrite Hs, !has_valid_nonempty by done. simpl. split.
    + by intros _ [].
    + destruct Hv as [[_ Hv] | [[Hs' _] | [[Hs' _] | [Hs' _]]]]; congruence.
  - assert (F2PP2PResult.success res = false) as Hs
      by (destruct Ho as [[? _] | [? _]]; done).
    rewrite Hs. simpl. split; [| done].
    destruct Hv as [[Hs' _] | Hv]; [congruence |].
    destruct Hv as [(_ & c & _ & _ & Hv) | [(_ & _ & Hv) | (_ & _ & Hv)]];
      rewrite Hv; discriminate.
Qed.

Lemma exit_status_follows_verdict_witness :
  F2PP2PResult.verdict
    (F2PP2PAnalyzer_analyze ["tests/test_a.py"] None (Some {[ "tests/test_a.py" ]})
       [Examples.run1] (Some "JavaScript")) = "VALID"
  ∧ Cli.main_analysis false
      (F2PP2PAnalyzer_analyze ["tests/test_a.py"] None
         (Some {[ "tests/test_a.py" ]}) [Examples.run1] (Some "JavaScript"))
    = Cli.Return 0.
Proof.
  assert (F2PP2PResult.verdict
    (F2PP2PAnalyzer_analyze ["tests/test_a.py"] None (Some {[ "tests/test_a.py" ]})
       [Examples.run1] (Some "JavaScript")) = "VALID") as Hv
    by (vm_compute; reflexivity).
  split; [exact Hv |].
  exact (proj1 (exit_status_follows_verdict ["tests/test_a.py"] None
                  (Some {[ "tests/test_a.py" ]}) [Examples.run1]
                  (Some "JavaScript")) Hv false).
Defined.

End VerdictFacts.

(** * The status map of one run, and the package loop *)

Module LoopFacts.

Import Base Analyzer ClassifierFacts ValidatorFacts.
Local Open Scope list_scope.

Lemma foldl_assign_lookup (status : string) (l : list string)
    (d : gmap string string) t :
  foldl (λ d t, <[t := status]> d) d l !! t
  = if decide (t ∈ l) then Some status else d !! t.
Proof.
  revert d. induction l as [|x l IH]; intros d; cbn [foldl].
  - by rewrite decide_False by apply not_elem_of_nil.
  - rewrite IH. destruct (decide (t ∈ l)) as [Hin | Hnin].
    + by rewrite decide_True by (by right).
    + destruct (decide (t = x)) as [-> | Hne].
      * rewrite lookup_insert_eq. by rewrite decide_True by left.
      * rewrite lookup_insert_ne by done.
        rewrite decide_False; [done |].
        intros [-> | ?]%elem_of_cons; done.
Qed.

Lemma result_to_status_map_lookup (r : TestResult.t) t :
  _result_to_status_map r !! t
  = if decide (t ∈ TestResult.skipped r) then Some "SKIPPED"
    else if decide (t ∈ TestResult.failed r) then Some "FAILED"
    else if decide (t ∈ TestResult.passed r) then Some "PASSED"
    else None.
Proof.
  unfold _result_to_status_map. rewrite !foldl_assign_lookup.
  by rewrite lookup_empty.
Qed.

(** X7.  [_result_to_status_map] gives a test the status of the last list
    that names it: SKIPPED if it is listed as skipped, else FAILED if listed
    as failed, else PASSED if listed as passed; a test in no list is not a
    key.  On that map [_test_passed] holds for the tests listed as passed
    and neither as failed nor as skipped, and [_test_failed] for the tests
    not listed as skipped that are listed as failed or not listed as passed.
    For a test that is not listed as skipped, the map agrees with what the
    package loop records for a package at the repository root. *)
Theorem status_map_precedence (r : TestResult.t) t :
  let m := _result_to_status_map r in
  m !! t = (if decide (t ∈ TestResult.skipped r) then Some "SKIPPED"
            else if decide (t ∈ TestResult.failed r) then Some "FAILED"
            else if decide (t ∈ TestResult.passed r) then Some "PASSED"
            else None)
  ∧ (_test_passed t m = true
     ↔ t ∈ TestResult.passed r ∧ (t ∉ TestResult.failed r)
       ∧ (t ∉ TestResult.skipped r))
  ∧ (_test_failed t m = true
     ↔ (t ∉ TestResult.skipped r)
       ∧ (t ∈ TestResult.failed r ∨ t ∉ TestResult.passed r))
  ∧ (t ∉ TestResult.skipped r → record_outcomes "" r ∅ !! t = m !! t).
Proof.
  intros m. subst m. split; [apply result_to_status_map_lookup |].
  unfold _test_passed, _test_failed. rewrite result_to_status_map_lookup.
  split; [| split].
  - repeat case_decide; rewrite ?bool_decide_eq_true, ?elem_of_PASSED;
      split; intros; try tauto; try (intuition discriminate);
      intuition auto.
  - repeat case_decide; rewrite ?bool_decide_eq_true, ?elem_of_FAILED;
      split; intros; try tauto; try (intuition discriminate);
      intuition auto.
  - intros Hk. rewrite decide_False by done.
    unfold record_outcomes.
    change (λ (d : gmap string string) (t0 : string), <[("" ++ t0)%string := "PASSED"]> d)
      with (λ (d : gmap string string) (t0 : string), <[t0 := "PASSED"]> d).
    change (λ (d : gmap string string) (t0 : string), <[("" ++ t0)%string := "FAILED"]> d)
      with (λ (d : gmap string string) (t0 : string), <[t0 := "FAILED"]> d).
    rewrite !foldl_assign_lookup. by rewrite lookup_empty.
Qed.

(** *** The package loop *)

Lemma version_mismatch_true pkg :
  Notions.version_mismatch pkg = true
  ↔ is_Some (pkg_runner pkg) ∧ (check_runtime pkg).1 = true
    ∧ (check_version_compatible pkg).1 = false.
Proof.
  unfold Notions.version_mismatch.
  rewrite !andb_true_iff, bool_decide_eq_true, negb_true_iff. tauto.
Qed.

(** An iteration returns early exactly on a version mismatch. *)
Lemma analyze_package_inl st pkg msg :
  analyze_package st pkg = inl msg
  ↔ Notions.version_mismatch pkg = true
    ∧ msg = (check_version_compatible pkg).2.
Proof.
  rewrite version_mismatch_true. unfold analyze_package, add_error.
  destruct (pkg_runner pkg) as [rn|].
  2: { split; [discriminate | by intros [[[? ?] _] _]]. }
  destruct (check_runtime pkg) as [runtime_ok runtime_msg].
  destruct (check_version_compatible pkg) as [version_ok version_msg].
  destruct runtime_ok; simpl.
  2: { split; [discriminate | by intros [(_ & ? & _) _]]. }
  destruct version_ok; simpl.
  - split; [| by intros [(_ & _ & ?) _]].
    repeat case_match; discriminate.
  - split; [intros [= <-]; eauto | by intros [_ ->]].
Qed.

Lemma analyze_package_inr st pkg st' :
  analyze_package st pkg = inr st' → Notions.version_mismatch pkg = false.
Proof.
  intros Hr. destruct (Notions.version_mismatch pkg) eqn:Hm; [| done].
  assert (analyze_package st pkg = inl (check_version_compatible pkg).2) as Hl
    by (by apply analyze_package_inl).
  congruence.
Qed.

Lemma analyze_packages_inr pkgs st st' :
  analyze_packages st pkgs = inr st' →
  ∀ pkg, pkg ∈ pkgs → Notions.version_mismatch pkg = false.
Proof.
  revert st. induction pkgs as [|p pkgs IH]; intros st; simpl.
  - intros _ pkg Hp. by apply elem_of_nil in Hp.
  - destruct (analyze_package st p) as [msg | st1] eqn:Hp; [done |].
    intros Hrest pkg [-> | Hin]%elem_of_cons.
    + by eapply analyze_package_inr.
    + by eapply IH.
Qed.

Lemma analyze_packages_inl pkgs st msg :
  analyze_packages st pkgs = inl msg →
  ∃ l1 pkg l2,
    pkgs = l1 ++ pkg :: l2
    ∧ (∀ p, p ∈ l1 → Notions.version_mismatch p = false)
    ∧ Notions.version_mismatch pkg = true
    ∧ msg = (check_version_compatible pkg).2.
Proof.
  revert st. induction pkgs as [|p pkgs IH]; intros st; simpl; [done |].
  destruct (analyze_package st p) as [msg' | st1] eqn:Hp.
  - intros [= ->]. apply analyze_package_inl in Hp as [Hm ->].
    exists [], p, pkgs. split; [done |]. split; [| done].
    intros q Hq. by apply elem_of_nil in Hq.
  - intros (l1 & pkg & l2 & -> & Hl1 & Hm & ->)%IH.
    exists (p :: l1), pkg, l2. split; [done |]. split; [| done].
    intros q [-> | Hq]%elem_of_cons; [by eapply analyze_package_inr | auto].
Qed.

(** The error code of [analyze] when the loop runs to its end. *)
Lemma analyze_inr_error_code has_new pkgs language st :
  analyze_packages initial_state pkgs = inr st →
  F2PP2PResult.error_code (analyze has_new pkgs language)
  ∈ [None; Some "NO_TEST_RUNNER"; Some "BUILD_FAILED"].
Proof.
  intros Hloop. unfold analyze. rewrite Hloop.
  destruct (packages_tested st =? 0)%nat.
  { destruct (packages_no_runner st), (errors st); simpl; in_list. }
  destruct (bool_decide (all_tests_after st = ∅)
            && negb (bool_decide (errors st = []))); [simpl; in_list |].
  destruct (validate_f2p_p2p_result _ _ _ _ _ _) as [[|? ?]|]; simpl; in_list.
Qed.

(** X8.  [analyze] answers RUNTIME_VERSION_MISMATCH exactly when some
    affected package has a runner whose runtime is available in a version
    the package does not accept.  Then the analysis stops at the first such
    package: the result is not a success, its four lists are empty whatever
    the packages before it reported, and its error is the message of that
    package's version check. *)
Theorem version_mismatch_aborts has_new pkgs language :
  let res := analyze has_new pkgs language in
  (F2PP2PResult.error_code res = Some "RUNTIME_VERSION_MISMATCH"
   ↔ ∃ pkg, pkg ∈ pkgs ∧ Notions.version_mismatch pkg = true)
  ∧ (F2PP2PResult.error_code res = Some "RUNTIME_VERSION_MISMATCH" →
     F2PP2PResult.success res = false
     ∧ F2PP2PResult.f2p_tests res = [] ∧ F2PP2PResult.p2p_tests res = []
     ∧ F2PP2PResult.f2f_tests res = [] ∧ F2PP2PResult.p2f_tests res = []
     ∧ ∃ l1 pkg l2,
         pkgs = l1 ++ pkg :: l2
         ∧ (∀ p, p ∈ l1 → Notions.version_mismatch p = false)
         ∧ Notions.version_mismatch pkg = true
         ∧ F2PP2PResult.error res = (check_version_compatible pkg).2).
Proof.
  intros res.
  destruct (analyze_packages initial_state pkgs) as [msg | st] eqn:Hloop.
  - pose proof (analyze_packages_inl _ _ _ Hloop)
      as (l1 & pkg & l2 & Hpkgs & Hl1 & Hm & Hmsg).
    assert (res = F2PP2PResult.with_error (F2PP2PResult.initial has_new) msg
                    "RUNTIME_VERSION_MISMATCH") as ->
      by (unfold res, analyze; by rewrite Hloop).
    simpl. split.
    + split; [| done]. intros _. exists pkg. split; [| done].
      rewrite Hpkgs. apply elem_of_app. right. left.
    + intros _. repeat (split; [done |]). by exists l1, pkg, l2.
  - pose proof (analyze_inr_error_code has_new pkgs language st Hloop) as Hc.
    fold res in Hc.
    assert (F2PP2PResult.error_code res ≠ Some "RUNTIME_VERSION_MISMATCH")
      as Hne.
    { intros Heq. rewrite Heq in Hc.
      repeat (apply elem_of_cons in Hc as [Hc | Hc]; [discriminate |]).
      by apply elem_of_nil in Hc. }
    split; [| done]. split; [done |].
    intros (pkg & Hin & Hm).
    pose proof (analyze_packages_inr _ _ _ Hloop pkg Hin). congruence.
Qed.

(** The counter of tested packages counts the packages that complete. *)
Lemma analyze_package_tested st pkg st' :
  analyze_package st pkg = inr st' →
  packages_tested st'
  = (packages_tested st + if Notions.completes pkg then 1 else 0)%nat.
Proof.
  unfold analyze_package, add_error, Notions.completes.
  destruct (pkg_runner pkg) as [rn|]; simpl.
  2: { intros [= <-]. simpl. lia. }
  destruct (check_runtime pkg) as [runtime_ok runtime_msg].
  destruct (check_version_compatible pkg) as [version_ok version_msg].
  destruct runtime_ok; simpl; [| intros [= <-]; simpl; lia].
  destruct version_ok; simpl; [| done].
  destruct (is_checkout_error (base_result pkg)); simpl;
    [intros [= <-]; simpl; lia |].
  destruct (is_checkout_error (before_result pkg)); simpl;
    [intros [= <-]; simpl; lia |].
  destruct (is_checkout_error (after_result pkg)); simpl;
    [intros [= <-]; simpl; lia |].
  destruct (has_error (base_result pkg) && has_error (before_result pkg)
            && has_error (after_result pkg));
    intros [= <-]; simpl; lia.
Qed.

Lemma analyze_packages_tested pkgs st st' :
  analyze_packages st pkgs = inr st' →
  packages_tested st'
  = (packages_tested st + length (List.filter Notions.completes pkgs))%nat.
Proof.
  revert st. induction pkgs as [|p pkgs IH]; intros st; simpl.
  - intros [= <-]. lia.
  - destruct (analyze_package st p) as [msg | st1] eqn:Hp; [done |].
    intros Hrest. rewrite (IH _ Hrest), (analyze_package_tested _ _ _ Hp).
    destruct (Notions.completes p); simpl; lia.
Qed.

Lemma filter_none {A} (f : A → bool) (l : list A) :
  (∀ x, x ∈ l → f x = false) → List.filter f l = [].
Proof.
  induction l as [|x l IH]; intros Hall; simpl; [done |].
  rewrite (Hall x) by left. apply IH. intros y Hy. apply Hall. by right.
Qed.

Lemma filter_some {A} (f : A → bool) (l : list A) x :
  x ∈ l → f x = true → (0 < length (List.filter f l))%nat.
Proof.
  induction l as [|y l IH]; intros Hin Hx.
  - by apply elem_of_nil in Hin.
  - simpl. apply elem_of_cons in Hin as [<- | Hin].
    + rewrite Hx. simpl. lia.
    + destruct (f y); simpl; [lia | by apply IH].
Qed.

(** X9.  When no affected package completes its three runs, the analysis
    classifies nothing: it is not a success, its four lists are empty, and
    its error code is NO_TEST_RUNNER, BUILD_FAILED or
    RUNTIME_VERSION_MISMATCH.  Conversely NO_TEST_RUNNER is only answered
    when no package completes: one package that completes is enough for the
    packages without a runner to go unreported. *)
Theorem analysis_needs_completed_package has_new pkgs language :
  let res := analyze has_new pkgs language in
  ((∀ pkg, pkg ∈ pkgs → Notions.completes pkg = false) →
   F2PP2PResult.success res = false
   ∧ F2PP2PResult.rejection_reason res = None
   ∧ F2PP2PResult.f2p_tests res = [] ∧ F2PP2PResult.p2p_tests res = []
   ∧ F2PP2PResult.f2f_tests res = [] ∧ F2PP2PResult.p2f_tests res = []
   ∧ F2PP2PResult.error_code res
     ∈ [Some "NO_TEST_RUNNER"; Some "BUILD_FAILED";
        Some "RUNTIME_VERSION_MISMATCH"])
  ∧ (F2PP2PResult.error_code res = Some "NO_TEST_RUNNER" →
     ∀ pkg, pkg ∈ pkgs → Notions.completes pkg = false).
Proof.
  intros res. subst res. unfold analyze.
  destruct (analyze_packages initial_state pkgs) as [msg | st] eqn:Hloop.
  { simpl. split; [| done]. intros _. repeat (split; [done |]). in_list. }
  pose proof (analyze_packages_tested _ _ _ Hloop) as Hn. simpl in Hn.
  split.
  - intros Hnone. rewrite (filter_none _ _ Hnone) in Hn. simpl in Hn.
    rewrite Hn. simpl.
    destruct (packages_no_runner st), (errors st); simpl;
      repeat (split; [done |]); in_list.
  - destruct (packages_tested st =? 0)%nat eqn:H0.
    + intros _ pkg Hin. apply Nat.eqb_eq in H0.
      destruct (Notions.completes pkg) eqn:Hc; [| done].
      pose proof (filter_some _ _ _ Hin Hc). lia.
    + destruct (bool_decide (all_tests_after st = ∅)
                && negb (bool_decide (errors st = []))); [done |].
      by destruct (validate_f2p_p2p_result _ _ _ _ _ _) as [[|? ?]|].
Qed.

Lemma analysis_needs_completed_package_witness :
  F2PP2PResult.error_code (analyze false [Examples.run_no_runner] None)
  = Some "NO_TEST_RUNNER"
  ∧ ∀ p, p ∈ [Examples.run_no_runner] → Notions.completes p = false.
Proof.
  assert (F2PP2PResult.error_code (analyze false [Examples.run_no_runner] None)
          = Some "NO_TEST_RUNNER") as Hc by (vm_compute; reflexivity).
  split; [exact Hc |].
  exact (proj2 (analysis_needs_completed_package false
                  [Examples.run_no_runner] None) Hc).
Defined.

(** *** A failed checkout *)

Lemma is_checkout_error_checkout_failed e install run :
  is_checkout_error (_run_at_commit (Some e) install run) = true.
Proof.
  unfold _run_at_commit, is_checkout_error, TestResult.of_error. simpl.
  reflexivity.
Qed.

(** X10.  When [_git_checkout] raises at one of the three stages of a
    package, [_run_at_commit] returns a result without tests whose error the
    loop recognises as a checkout error; the loop then appends one error
    message, adds nothing to the after map and does not count the package
    as tested. *)
Theorem checkout_failure_skips_package st pkg st' e install run :
  analyze_package st pkg = inr st' →
  is_Some (pkg_runner pkg) → (check_runtime pkg).1 = true →
  base_result pkg = _run_at_commit (Some e) install run
  ∨ before_result pkg = _run_at_commit (Some e) install run
  ∨ after_result pkg = _run_at_commit (Some e) install run →
  TestResult.total_tests (_run_at_commit (Some e) install run) = 0%nat
  ∧ packages_tested st' = packages_tested st
  ∧ all_tests_after st' = all_tests_after st
  ∧ ∃ msg, errors st' = errors st ++ [msg].
Proof.
  intros Hst [rn Hrn] Hrt Hstage. split; [done |].
  pose proof (is_checkout_error_checkout_failed e install run) as Hck.
  revert Hst. unfold analyze_package, add_error. rewrite Hrn.
  destruct (check_runtime pkg) as [runtime_ok runtime_msg].
  simpl in Hrt. subst runtime_ok. simpl.
  destruct (check_version_compatible pkg) as [[] version_msg]; simpl; [| done].
  destruct (is_checkout_error (base_result pkg)) eqn:H1; simpl;
    [intros [= <-]; simpl; eauto |].
  destruct (is_checkout_error (before_result pkg)) eqn:H2; simpl;
    [intros [= <-]; simpl; eauto |].
  destruct (is_checkout_error (after_result pkg)) eqn:H3; simpl;
    [intros [= <-]; simpl; eauto |].
  exfalso. destruct Hstage as [Hs | [Hs | Hs]]; rewrite Hs in *; congruence.
Qed.

Lemma checkout_failure_skips_package_witness :
  analyze_package initial_state Examples.run_bad_checkout
  = inr Examples.state_bad_checkout
  ∧ packages_tested Examples.state_bad_checkout = 0%nat
  ∧ all_tests_after Examples.state_bad_checkout = ∅.
Proof.
  assert (analyze_package initial_state Examples.run_bad_checkout
          = inr Examples.state_bad_checkout) as Hst
    by (vm_compute; reflexivity).
  split; [exact Hst |].
  destruct (checkout_failure_skips_package initial_state
              Examples.run_bad_checkout Examples.state_bad_checkout
              "git checkout failed: bad object" (Installed true "")
              (Ran (TestResult.mk ["T1"] [] [] None None)) Hst)
    as (_ & Ht & Ha & _).
  - by exists ("jest", "JavaScript").
  - reflexivity.
  - right. right. reflexivity.
  - done.
Defined.

End LoopFacts.

(** * Looking runners up: by name, by score, with and without a hint *)

Module RegistryLookup.

Import Registry RegistryFacts.
Local Open Scope list_scope.


(** *** The best runner and the head of the detected runners *)

Lemma head_insert_by_score x (l : list (RunnerClass * Z)) :
  head (insert_by_score x l)
  = match head l with
    | Some y => if x.2 <? y.2 then Some y else Some x
    | None => Some x
    end.
Proof. destruct l as [|y l]; simpl; [done |]. by destruct (x.2 <? y.2). Qed.

Lemma head_sorted_by_score_desc (l : list (RunnerClass * Z)) :
  head (sorted_by_score_desc l) = Notions.first_max l.
Proof.
  induction l as [|x l IH]; simpl; [done |].
  by rewrite head_insert_by_score, IH.
Qed.

Lemma first_max_positive (l : list (RunnerClass * Z)) :
  Notions.first_max (List.filter (λ p, 0 <? p.2) l)
  = match Notions.first_max l with
    | Some p => if 0 <? p.2 then Some p else None
    | None => None
    end.
Proof.
  induction l as [|x l IH]; simpl; [done |].
  destruct (0 <? x.2) eqn:Hx; simpl; rewrite IH;
    destruct (Notions.first_max l) as [y|]; rewrite ?Hx; try done.
  - destruct (0 <? y.2) eqn:Hy; destruct (x.2 <? y.2) eqn:Hxy;
      rewrite ?Hx, ?Hy; try done. lia.
  - destruct (0 <? y.2) eqn:Hy; destruct (x.2 <? y.2) eqn:Hxy;
      rewrite ?Hx, ?Hy; try done. lia.
Qed.

Lemma foldl_collect_scores detect (l : list RunnerClass)
    (acc : list (RunnerClass * Z)) :
  foldl (collect detect) acc l
  = acc ++ List.filter (λ p, 0 <? p.2) (Notions.scores detect l).
Proof.
  revert acc. induction l as [|c l IH]; intros acc; simpl.
  - by rewrite app_nil_r.
  - rewrite IH. unfold collect, Notions.scores. simpl.
    destruct (detect c) as [s|]; simpl; [| done].
    destruct (0 <? s); simpl; [by rewrite <- app_assoc | done].
Qed.

Lemma foldl_consider_first_max detect (l : list RunnerClass)
    (b : option RunnerClass) (s : Z) :
  foldl (consider detect) (b, s) l
  = match Notions.first_max (Notions.scores detect l) with
    | Some p => if s <? p.2 then (Some p.1, p.2) else (b, s)
    | None => (b, s)
    end.
Proof.
  revert b s. induction l as [|c l IH]; intros b s; simpl; [done |].
  unfold consider at 2, Notions.scores. simpl.
  destruct (detect c) as [x|]; simpl; [| apply IH].
  fold (Notions.scores detect l).
  destruct (s <? x) eqn:Hsx; rewrite IH;
    destruct (Notions.first_max (Notions.scores detect l)) as [[r m]|]; simpl;
    rewrite ?Hsx; try done.
  - destruct (x <? m) eqn:Hxm; simpl; rewrite ?Hsx; [| done].
    by rewrite (proj2 (Z.ltb_lt s m)) by lia.
  - destruct (x <? m) eqn:Hxm; simpl; rewrite ?Hsx; [done |].
    by rewrite (proj2 (Z.ltb_ge s m)) by lia.
Qed.

(** The detection loop and the stable sort by decreasing score agree on
    the first runner of greatest score, whatever the list of candidates. *)
Lemma best_is_head detect (l : list RunnerClass) :
  foldl (consider detect) (None, 0) l
  = match head (sorted_by_score_desc (foldl (collect detect) [] l)) with
    | Some (r, s) => (Some r, s)
    | None => (None, 0)
    end.
Proof.
  rewrite foldl_consider_first_max, head_sorted_by_score_desc,
    foldl_collect_scores. simpl. rewrite first_max_positive.
  destruct (Notions.first_max (Notions.scores detect l)) as [[r m]|];
    [| done].
  simpl. by destruct (0 <? m).
Qed.

Lemma candidates_None : candidates None = ALL_RUNNERS.
Proof.
  destruct (candidates_cases None) as [(h & ? & ? & _) | [_ ->]]; done.
Qed.

(** X12.  Without a language hint [get_runner] returns the runner that
    heads [get_all_detected_runners] when the score of that runner is at
    least 30, and nothing otherwise: the strict comparison of the detection
    loop and the stable sort by decreasing score break ties the same way, in
    favour of the runner listed first in [ALL_RUNNERS]. *)
Theorem get_runner_is_head_of_detected detect :
  get_runner true detect None
  = match get_all_detected_runners detect with
    | (r, s) :: _ => if 30 <=? s then Some r else None
    | [] => None
    end.
Proof.
  unfold get_runner, get_all_detected_runners. cbn [negb].
  rewrite candidates_None, best_is_head.
  by destruct (sorted_by_score_desc _) as [|[r s] rest].
Qed.

(** The best score of the detection loop depends on the members of the
    candidate list only. *)
Lemma best_score_members detect (l1 l2 : list RunnerClass) :
  (∀ r, r ∈ l1 → r ∈ l2) →
  (foldl (consider detect) (None, 0) l1).2
  ≤ (foldl (consider detect) (None, 0) l2).2.
Proof.
  intros Hsub.
  destruct (foldl_consider detect l1 None 0) as (_ & _ & Hbest1).
  destruct (foldl_consider detect l2 None 0) as (H0 & Hall2 & _).
  destruct Hbest1 as [-> | (r & Hr & _ & Hd & _)]; [done |].
  apply (Hall2 r); [by apply Hsub | done].
Qed.

Lemma get_runner_best_score detect language_hint :
  let best := foldl (consider detect) (None, 0) (candidates language_hint) in
  match get_runner true detect language_hint with
  | Some r => detect r = Some best.2 ∧ 30 ≤ best.2
  | None => best.2 < 30
  end.
Proof.
  simpl. unfold get_runner. simpl.
  destruct (foldl_consider detect (candidates language_hint) None 0)
    as (_ & _ & Hbest).
  destruct (foldl (consider detect) (None, 0) (candidates language_hint))
    as [best_runner best_score].
  simpl in *.
  destruct Hbest as [[= -> ->] | (r & _ & -> & Hd & _)]; [done |].
  destruct (30 <=? best_score) eqn:H30.
  - by apply Z.leb_le in H30.
  - by apply Z.leb_gt in H30.
Qed.

Lemma candidates_members language_hint r : r ∈ candidates language_hint.
Proof.
  destruct (candidates_cases language_hint)
    as [(hint & runners & _ & Hl & ->) | [_ ->]];
    [| apply elem_of_ALL_RUNNERS].
  apply NoDup_LANGUAGE_RUNNERS in Hl.
  rewrite (hint_first_Permutation runners Hl). apply elem_of_ALL_RUNNERS.
Qed.

(** X13.  A language hint only breaks ties.  Whatever the hint, [get_runner]
    finds a runner exactly when it finds one without a hint, and the runner
    found with the hint has the same score as the one found without it. *)
Theorem hint_only_breaks_ties detect language_hint :
  (get_runner true detect language_hint = None
   ↔ get_runner true detect None = None)
  ∧ ∀ r r', get_runner true detect language_hint = Some r →
            get_runner true detect None = Some r' →
            detect r = detect r'.
Proof.
  pose proof (get_runner_best_score detect language_hint) as H1.
  pose proof (get_runner_best_score detect None) as H2.
  cbv zeta in H1, H2.
  assert ((foldl (consider detect) (None, 0) (candidates language_hint)).2
          = (foldl (consider detect) (None, 0) (candidates None)).2) as Heq.
  { apply Z.le_antisymm; apply best_score_members;
      intros r _; apply candidates_members. }
  rewrite Heq in H1.
  destruct (get_runner true detect language_hint) as [r|],
           (get_runner true detect None) as [r'|].
  - split; [done |]. intros ? ? [= <-] [= <-].
    destruct H1 as [-> _], H2 as [-> _]. done.
  - destruct H1 as [_ H1]. lia.
  - destruct H2 as [_ H2]. lia.
  - done.
Qed.

End RegistryLookup.

(** * The pre-flight check against the registry *)

Module PreflightFacts.

Import Registry RegistryFacts RegistryLookup Preflight.
Local Open Scope list_scope.

Lemma elem_of_detected detect r s :
  (r, s) ∈ get_all_detected_runners detect ↔ detect r = Some s ∧ 0 < s.
Proof.
  unfold get_all_detected_runners.
  rewrite sorted_by_score_desc_Permutation, foldl_collect. simpl. split.
  - intros [Hn | (_ & ? & ?)]; [by apply elem_of_nil in Hn | done].
  - intros [? ?]. right. split; [apply elem_of_ALL_RUNNERS | done].
Qed.

(** The result of the detection loop over all runners, read off the
    detected runners. *)
Lemma best_of_detected detect :
  foldl (consider detect) (None, 0) ALL_RUNNERS
  = match get_all_detected_runners detect with
    | (r, s) :: _ => (Some r, s)
    | [] => (None, 0)
    end.
Proof.
  unfold get_all_detected_runners. rewrite best_is_head.
  by destruct (sorted_by_score_desc _) as [|[r s] rest].
Qed.

(** What the check reports when a runner heads the detected runners. *)
Lemma preflight_detected repo_path detect check_runtime file_exists hint
    r s rest :
  get_all_detected_runners detect = (r, s) :: rest →
  let pf := preflight_check repo_path true detect check_runtime file_exists
              hint in
  framework (detected pf) = Some (name r)
  ∧ detected_language (detected pf) = Some (language r)
  ∧ confidence (detected pf) = Some s
  ∧ can_run pf = (check_runtime r).1.
Proof.
  intros Hd. unfold preflight_check. cbn [negb]. rewrite Hd.
  by destruct (check_runtime r) as [[] msg].
Qed.

Lemma preflight_no_framework repo_path detect check_runtime file_exists hint :
  get_all_detected_runners detect = [] →
  can_run (preflight_check repo_path true detect check_runtime file_exists
             hint) = false.
Proof. intros Hd. unfold preflight_check. cbn [negb]. by rewrite Hd. Qed.

(** X14.  For an existing repository [preflight_check] reports that the
    analysis can run exactly when some runner scores above 0 and the runtime
    of the runner heading [get_all_detected_runners] is available; lock
    files, docker-compose files and .env samples only add warnings.  When
    [get_runner] selects a runner without a hint, the check names that runner
    as the framework.  The check is weaker than [get_runner]: when the best
    score lies between 1 and 29 and every runtime is available, the check
    says the analysis can run although [get_runner] finds no runner,
    whatever the hint. *)
Theorem preflight_weaker_than_get_runner repo_path detect check_runtime
    file_exists hint :
  let pf := preflight_check repo_path true detect check_runtime file_exists
              hint in
  (can_run pf = true
   ↔ ∃ r s rest, get_all_detected_runners detect = (r, s) :: rest
                 ∧ (check_runtime r).1 = true)
  ∧ (∀ r, get_runner true detect None = Some r →
          framework (detected pf) = Some (name r)
          ∧ can_run pf = (check_runtime r).1)
  ∧ (∀ m hint', Spec.max_score detect ALL_RUNNERS m → 0 < m → m < 30 →
                (∀ r, (check_runtime r).1 = true) →
                can_run pf = true ∧ get_runner true detect hint' = None).
Proof.
  intros pf. split; [| split].
  - destruct (get_all_detected_runners detect) as [|[r s] rest] eqn:Hd.
    + unfold pf. rewrite preflight_no_framework by done.
      split; [done | by intros (? & ? & ? & ? & _)].
    + destruct (preflight_detected repo_path detect check_runtime file_exists
                  hint r s rest Hd) as (_ & _ & _ & Hc).
      fold pf in Hc. rewrite Hc. split.
      * intros Hr. by exists r, s, rest.
      * by intros (r' & s' & rest' & [= <- <- <-] & Hr).
  - intros r Hr. unfold get_runner in Hr. cbn [negb] in Hr.
    rewrite candidates_None, best_of_detected in Hr.
    destruct (get_all_detected_runners detect) as [|[r' s] rest] eqn:Hd;
      [discriminate Hr |].
    destruct (30 <=? s); [| discriminate Hr]. injection Hr as ->.
    destruct (preflight_detected repo_path detect check_runtime file_exists
                hint r s rest Hd) as (Hf & _ & _ & Hc).
    done.
  - intros m hint' [(r0 & _ & Hr0) Hmax] Hpos Hlt Hrt. split.
    + assert ((r0, m) ∈ get_all_detected_runners detect) as Hin
        by (by apply elem_of_detected).
      destruct (get_all_detected_runners detect) as [|[r s] rest] eqn:Hd;
        [by apply elem_of_nil in Hin |].
      destruct (preflight_detected repo_path detect check_runtime file_exists
                  hint r s rest Hd) as (_ & _ & _ & Hc).
      fold pf in Hc. by rewrite Hc, Hrt.
    + apply get_runner_below_threshold with m; [| done]. split.
      * exists r0. split; [apply candidates_members | done].
      * intros r s _ Hs. apply (Hmax r s); [apply elem_of_ALL_RUNNERS | done].
Qed.

(** X15.  [INSTALL_INSTRUCTIONS] is keyed by runner name, and three runners
    have no entry under their name: node:test, gtest and dotnet.  For these
    three, and only for them, the MISSING_RUNTIME blocker of
    [preflight_check] carries the generic hint "Please install <language>
    runtime" rather than an entry of the table.  The table's keys googletest
    and dotnet test are the names of no runner. *)
Theorem install_hint_fallback :
  (∀ r, Analyzer.INSTALL_INSTRUCTIONS !! name r = None
        ↔ r ∈ [NodeTestRunner; GoogleTestRunner; DotNetRunner])
  ∧ (∀ repo_path detect check_runtime file_exists hint r s rest msg,
       get_all_detected_runners detect = (r, s) :: rest →
       check_runtime r = (false, msg) →
       blockers (preflight_check repo_path true detect check_runtime
                   file_exists hint)
       = [mkBlocker "MISSING_RUNTIME"
            (language r ++ " runtime not found: " ++ msg)%string
            (Some (default ("Please install " ++ language r ++ " runtime")%string
                           (Analyzer.INSTALL_INSTRUCTIONS !! name r)))])
  ∧ get_runner_by_name "googletest" = None
  ∧ get_runner_by_name "dotnet test" = None.
Proof.
  split; [| split; [| split]].
  - intros r. split.
    + destruct r; intros H; vm_compute in H;
        first [discriminate H | repeat first [by left | right]].
    + intros H.
      repeat (apply elem_of_cons in H as [-> | H]; [reflexivity |]).
      by apply elem_of_nil in H.
  - intros repo_path detect check_runtime file_exists hint r s rest msg Hd Hrt.
    unfold preflight_check. cbn [negb]. rewrite Hd, Hrt.
    cbn [negb blockers]. reflexivity.
  - reflexivity.
  - reflexivity.
Qed.

End PreflightFacts.

(** * The runners: error field and line-wise parsing *)

Module RunnerFacts.

Import Base Javascript Rust RegexFacts.
Local Open Scope list_scope.

(** X16.  [JestRunner], [VitestRunner], [MochaRunner] and [CargoRunner] set
    the error field of a result only when the result holds no test at all:
    a result of their [run_tests] with an error has neither passed, failed
    nor skipped tests. *)
Theorem runners_error_only_without_tests :
  (∀ json_file parse outcome,
     TestResult.error (JestRunner_run_tests json_file parse outcome) ≠ None →
     TestResult.total_tests (JestRunner_run_tests json_file parse outcome)
     = 0%nat)
  ∧ (∀ parse outcome,
       TestResult.error (VitestRunner_run_tests parse outcome) ≠ None →
       TestResult.total_tests (VitestRunner_run_tests parse outcome) = 0%nat)
  ∧ (∀ json_file parse outcome,
       TestResult.error (MochaRunner_run_tests json_file parse outcome) ≠ None →
       TestResult.total_tests (MochaRunner_run_tests json_file parse outcome)
       = 0%nat)
  ∧ (∀ outcome,
       TestResult.error (CargoRunner_run_tests outcome) ≠ None →
       TestResult.total_tests (CargoRunner_run_tests outcome) = 0%nat).
Proof.
  split; [| split; [| split]].
  - intros json_file parse [returncode stdout stderr | message]; [| done].
    unfold JestRunner_run_tests.
    destruct json_file as [[[p f] k]|]; [done |].
    destruct (parse stdout) as [[[p f] k]|]; [done |].
    by destruct (negb (returncode =? 0)).
  - intros parse [returncode stdout stderr | message]; [| done].
    unfold VitestRunner_run_tests.
    destruct (parse stdout) as [[[p f] k]|]; [done |].
    by destruct (negb (returncode =? 0)).
  - intros json_file parse [returncode stdout stderr | message]; [| done].
    unfold MochaRunner_run_tests.
    destruct json_file as [[[p f] k]|]; [done |].
    destruct (parse stdout) as [[[p f] k]|]; [done |].
    by destruct (negb (returncode =? 0)).
  - intros [returncode stdout stderr | message]; [| done].
    unfold CargoRunner_run_tests.
    destruct (parse_cargo_test_output _) as [[p f] k].
    destruct (TestResult.total_tests _ =? 0)%nat eqn:Hn; [| done].
    apply Nat.eqb_eq in Hn. intros _.
    by destruct (_ && _), (negb (returncode =? 0)).
Qed.

(** *** Lines *)

Lemma split_lines_nonempty (s : string) : split_lines s ≠ [].
Proof.
  destruct s as [|c s]; simpl; [done |].
  destruct (Ascii.eqb c (ascii_of_nat 10)); [done |].
  by destruct (split_lines s).
Qed.

(** The lines of two texts joined by a newline are the lines of the first
    followed by the lines of the second. *)
Lemma split_lines_newline (a b : string) :
  split_lines (a ++ newline ++ b)%string = split_lines a ++ split_lines b.
Proof.
  induction a as [|c a IH].
  - reflexivity.
  - rewrite append_cons.
    change (split_lines (String c (a ++ newline ++ b)%string))
      with (if Ascii.eqb c (ascii_of_nat 10)
            then EmptyString :: split_lines (a ++ newline ++ b)%string
            else match split_lines (a ++ newline ++ b)%string with
                 | [] => [String c EmptyString]
                 | line :: lines => String c line :: lines
                 end).
    change (split_lines (String c a))
      with (if Ascii.eqb c (ascii_of_nat 10)
            then EmptyString :: split_lines a
            else match split_lines a with
                 | [] => [String c EmptyString]
                 | line :: lines => String c line :: lines
                 end).
    rewrite IH. destruct (Ascii.eqb c (ascii_of_nat 10)); [done |].
    pose proof (split_lines_nonempty a).
    by destruct (split_lines a).
Qed.

(** A line only appends to the lists read so far. *)
Lemma parse_tap_line_acc p f k line :
  parse_tap_line (p, f, k) line
  = (p ++ (parse_tap_line ([], [], []) line).1.1,
     f ++ (parse_tap_line ([], [], []) line).1.2,
     k ++ (parse_tap_line ([], [], []) line).2).
Proof.
  unfold parse_tap_line.
  repeat case_match; simpl; by rewrite ?app_nil_r.
Qed.

Lemma foldl_parse_tap_line p f k (lines : list string) :
  foldl parse_tap_line (p, f, k) lines
  = (p ++ (foldl parse_tap_line ([], [], []) lines).1.1,
     f ++ (foldl parse_tap_line ([], [], []) lines).1.2,
     k ++ (foldl parse_tap_line ([], [], []) lines).2).
Proof.
  revert p f k. induction lines as [|line lines IH]; intros p f k;
    cbn [foldl].
  - by rewrite !app_nil_r.
  - rewrite (parse_tap_line_acc p f k).
    destruct (parse_tap_line ([], [], []) line) as [[p1 f1] k1].
    cbn [fst snd]. rewrite IH, (IH p1 f1 k1). cbn [fst snd].
    by rewrite !app_assoc.
Qed.

Lemma parse_cargo_line_acc p f k line :
  parse_cargo_line (p, f, k) line
  = (p ++ (parse_cargo_line ([], [], []) line).1.1,
     f ++ (parse_cargo_line ([], [], []) line).1.2,
     k ++ (parse_cargo_line ([], [], []) line).2).
Proof.
  unfold parse_cargo_line.
  repeat case_match; simpl; by rewrite ?app_nil_r.
Qed.

Lemma foldl_parse_cargo_line p f k (lines : list string) :
  foldl parse_cargo_line (p, f, k) lines
  = (p ++ (foldl parse_cargo_line ([], [], []) lines).1.1,
     f ++ (foldl parse_cargo_line ([], [], []) lines).1.2,
     k ++ (foldl parse_cargo_line ([], [], []) lines).2).
Proof.
  revert p f k. induction lines as [|line lines IH]; intros p f k;
    cbn [foldl].
  - by rewrite !app_nil_r.
  - rewrite (parse_cargo_line_acc p f k).
    destruct (parse_cargo_line ([], [], []) line) as [[p1 f1] k1].
    cbn [fst snd]. rewrite IH, (IH p1 f1 k1). cbn [fst snd].
    by rewrite !app_assoc.
Qed.

(** X17.  The TAP parser of [NodeTestRunner] and the parser of [cargo test]
    output read their input line by line, so on the text that [run_tests]
    builds, [stdout + "\n" + stderr], each of the three lists is the list
    parsed from stdout followed by the list parsed from stderr: a result
    line printed on stderr counts like one printed on stdout. *)
Theorem output_parsed_per_stream (stdout stderr : string) :
  _parse_tap_output (stdout ++ newline ++ stderr)%string
  = ((_parse_tap_output stdout).1.1 ++ (_parse_tap_output stderr).1.1,
     (_parse_tap_output stdout).1.2 ++ (_parse_tap_output stderr).1.2,
     (_parse_tap_output stdout).2 ++ (_parse_tap_output stderr).2)
  ∧ parse_cargo_test_output (stdout ++ newline ++ stderr)%string
    = ((parse_cargo_test_output stdout).1.1
       ++ (parse_cargo_test_output stderr).1.1,
       (parse_cargo_test_output stdout).1.2
       ++ (parse_cargo_test_output stderr).1.2,
       (parse_cargo_test_output stdout).2
       ++ (parse_cargo_test_output stderr).2).
Proof.
  unfold _parse_tap_output, parse_cargo_test_output.
  rewrite split_lines_newline, !foldl_app. split.
  - destruct (foldl parse_tap_line ([], [], []) (split_lines stdout))
      as [[p f] k].
    apply foldl_parse_tap_line.
  - destruct (foldl parse_cargo_line ([], [], []) (split_lines stdout))
      as [[p f] k].
    apply foldl_parse_cargo_line.
Qed.

End RunnerFacts.

(** * Versions, changed files and unstable names: properties of the string
      tests *)

Module StringFacts.

Import Base Analyzer Regex RegexFacts ValidatorFacts.
Local Open Scope list_scope.

(** *** [_versions_compatible] *)

Lemma split_dotless (a : string) :
  Notions.dotless a = true → TestRunner.split "." a = [a].
Proof.
  induction a as [|c a IH]; [done |].
  unfold Notions.dotless. simpl.
  intros [Hc Ha]%andb_true_iff. apply negb_true_iff in Hc.
  rewrite Hc. fold (Notions.dotless a) in Ha. by rewrite IH.
Qed.

Lemma split_dot (a rest : string) :
  Notions.dotless a = true →
  TestRunner.split "." (a ++ "." ++ rest)%string
  = a :: TestRunner.split "." rest.
Proof.
  induction a as [|c a IH]; [done |].
  unfold Notions.dotless. simpl.
  intros [Hc Ha]%andb_true_iff. apply negb_true_iff in Hc.
  rewrite Hc. fold (Notions.dotless a) in Ha.
  change (TestRunner.split "." (a ++ String "." rest)%string)
    with (TestRunner.split "." (a ++ "." ++ rest)%string).
  by rewrite IH.
Qed.

(** The first component of a version that starts with a dot-less part. *)
Lemma split_head (a t : string) :
  Notions.dotless a = true → Notions.version_tail t →
  ∃ parts, TestRunner.split "." (a ++ t)%string = a :: parts.
Proof.
  intros Ha [-> | [u ->]].
  - exists []. rewrite append_nil_r. by apply split_dotless.
  - exists (TestRunner.split "." u). by apply split_dot.
Qed.

(** X18.  [_versions_compatible] compares the first two dot-separated
    components as strings.  Two versions that both have a minor component
    are compatible exactly when their major components are equal and their
    minor components are equal; what follows the minor component is
    ignored, and no order is involved (1.70 and 1.75 are not compatible).
    When one of the two has no minor component, they are compatible exactly
    when their major components are equal. *)
Theorem versions_compatible_major_minor (a b a' b' t t' : string) :
  Notions.dotless a = true → Notions.dotless b = true →
  Notions.dotless a' = true → Notions.dotless b' = true →
  Notions.version_tail t → Notions.version_tail t' →
  (TestRunner._versions_compatible (a ++ "." ++ b ++ t) (a' ++ "." ++ b' ++ t')
   = true ↔ a = a' ∧ b = b')
  ∧ (TestRunner._versions_compatible a (a' ++ "." ++ b' ++ t') = true
     ↔ a = a')
  ∧ (TestRunner._versions_compatible (a ++ "." ++ b ++ t) a' = true
     ↔ a = a').
Proof.
  intros Ha Hb Ha' Hb' Ht Ht'.
  destruct (split_head b t Hb Ht) as [parts Hparts].
  destruct (split_head b' t' Hb' Ht') as [parts' Hparts'].
  unfold TestRunner._versions_compatible.
  rewrite (split_dot a), (split_dot a'), (split_dotless a),
    (split_dotless a'), Hparts, Hparts' by done.
  simpl.
  split; [| split].
  - destruct (String.eqb a a') eqn:Haa.
    + apply String.eqb_eq in Haa. rewrite String.eqb_eq. tauto.
    + apply String.eqb_neq in Haa. split; [done | tauto].
  - destruct (String.eqb a a') eqn:Haa.
    + by apply String.eqb_eq in Haa.
    + by apply String.eqb_neq in Haa.
  - destruct (String.eqb a a') eqn:Haa.
    + by apply String.eqb_eq in Haa.
    + by apply String.eqb_neq in Haa.
Qed.

Lemma versions_compatible_major_minor_witness :
  TestRunner._versions_compatible "1.70.0" "1.75" = false
  ∧ TestRunner._versions_compatible "3" "3.12" = true.
Proof.
  destruct (versions_compatible_major_minor "1" "70" "1" "75" ".0" ""
              eq_refl eq_refl eq_refl eq_refl
              (or_intror (ex_intro _ "0" eq_refl)) (or_introl eq_refl))
    as (H1 & _ & _).
  destruct (versions_compatible_major_minor "3" "" "3" "12" "" ""
              eq_refl eq_refl eq_refl eq_refl
              (or_introl eq_refl) (or_introl eq_refl))
    as (_ & H2 & _).
  split.
  - destruct (TestRunner._versions_compatible "1.70.0" "1.75") eqn:Hc;
      [| done].
    destruct (proj1 H1 Hc) as [_ Hne]. discriminate Hne.
  - by apply H2.
Defined.

(** *** [needle in s] *)

Lemma prefix_true (n s : string) :
  String.prefix n s = true ↔ ∃ post, s = (n ++ post)%string.
Proof.
  revert s. induction n as [|a n IH]; intros s; simpl.
  - destruct s; simpl; (split; [eauto | done]).
  - destruct s as [|b s]; simpl.
    + split; [done | by intros [? ?]].
    + destruct (ascii_dec a b) as [-> | Hne].
      * rewrite IH. split; intros [post Hp]; exists post.
        -- by rewrite Hp.
        -- by injection Hp.
      * split; [done |]. intros [post [= ? _]]. done.
Qed.

Lemma contains_true (n s : string) :
  contains n s = true ↔ Notions.substring_of n s.
Proof.
  unfold Notions.substring_of. induction s as [|c s IH].
  - change (contains n "") with (String.prefix n "" || false).
    rewrite orb_false_r, prefix_true. split.
    + intros [post Hp]. by exists "", post.
    + intros (pre & post & Hp). symmetry in Hp.
      apply append_eq_nil in Hp as [-> Hp]. simpl in Hp. eauto.
  - change (contains n (String c s))
      with (String.prefix n (String c s) || contains n s).
    rewrite orb_true_iff, prefix_true, IH. split.
    + intros [[post Hp] | (pre & post & ->)].
      * by exists "", post.
      * by exists (String c pre), post.
    + intros (pre & post & Hp). symmetry in Hp.
      apply append_eq_cons in Hp as [[-> Hp] | (pre' & -> & ->)].
      * left. eauto.
      * right. eauto.
Qed.

Lemma substring_of_inner (pre n post s : string) :
  Notions.substring_of (pre ++ n ++ post)%string s → Notions.substring_of n s.
Proof.
  intros (a & b & ->). exists (a ++ pre)%string, (post ++ b)%string.
  by rewrite !append_assoc.
Qed.

(** X19.  Without a language configuration, [_filter_test_files] keeps a
    changed file exactly when its path, lower-cased, contains test or spec
    somewhere; the third needle, __tests__, never decides, since a path
    containing it contains test.  With or without a configuration the result
    lists kept files in the order of the input, each as often as the input
    does. *)
Theorem heuristic_test_files (changed_files : list string) :
  (∀ f, f ∈ _filter_test_files None changed_files
        ↔ f ∈ changed_files
          ∧ (Notions.substring_of "test" (Regex.lower f)
             ∨ Notions.substring_of "spec" (Regex.lower f)))
  ∧ ∀ language_config,
      sublist (_filter_test_files language_config changed_files) changed_files.
Proof.
  split.
  - intros f. unfold _filter_test_files.
    rewrite list_elem_of_In, filter_In, <- list_elem_of_In. simpl.
    rewrite orb_false_r, !orb_true_iff, !contains_true.
    pose proof (substring_of_inner "__" "test" "s__" (Regex.lower f)).
    tauto.
  - intros language_config. unfold _filter_test_files.
    induction changed_files as [|f l IH]; simpl; [constructor |].
    destruct (match language_config with Some _ => _ | None => _ end);
      by constructor.
Qed.

(** *** Unstable names *)

Lemma has_match_context (r : regex) (pre t post : string) :
  has_match r t → has_match r (pre ++ t ++ post)%string.
Proof.
  intros (a & m & b & -> & Hm).
  exists (pre ++ a)%string, m, (b ++ post)%string.
  split; [by rewrite !append_assoc | done].
Qed.

(** X20.  The unstable patterns are searched anywhere in a name, so a name
    that holds an unstable name is unstable: text put before or after an
    unstable name never hides it.  In particular the package prefix that the
    analysis of a monorepo puts before a test name keeps an unstable name
    unstable. *)
Theorem unstable_name_in_context (pre t post : string) :
  _has_unstable_pattern t = true →
  _has_unstable_pattern (pre ++ t ++ post) = true
  ∧ ∀ pkg, _has_unstable_pattern (pkg_prefix pkg ++ t) = true.
Proof.
  intros (r & Hr & Hm)%has_unstable_pattern_true.
  split.
  - apply has_unstable_pattern_true. exists r. split; [done |].
    by apply has_match_context.
  - intros pkg. apply has_unstable_pattern_true. exists r. split; [done |].
    rewrite <- (append_nil_r t). by apply has_match_context.
Qed.

Lemma unstable_name_in_context_witness :
  _has_unstable_pattern Examples.unstable_id = true
  ∧ _has_unstable_pattern ("[api] " ++ Examples.unstable_id ++ "") = true.
Proof.
  assert (_has_unstable_pattern Examples.unstable_id = true) as Hu
    by (vm_compute; reflexivity).
  split; [exact Hu |].
  exact (proj1 (unstable_name_in_context "[api] " Examples.unstable_id "" Hu)).
Defined.

End StringFacts.

(** * Which names and which runners the screening of names concerns *)

Module ScreeningFacts.

Import Base Analyzer Regex RegexFacts ValidatorFacts StringFacts.
Local Open Scope list_scope.






(** X22.  The language that [analyze] hands to the validator is the
    [language] attribute of a runner, and the names are screened for
    unstable patterns exactly for seven of the seventeen runners: Vitest,
    Jest, Mocha and node:test (JavaScript), GoogleTest, CMake and Make
    (C++).  For the ten other runners the validator never answers
    [unstable_test_name]. *)
Theorem screening_by_runner (r : Registry.RunnerClass) :
  (checks_unstable_names (Some (Registry.language r)) = true
   ↔ r ∈ [Registry.VitestRunner; Registry.JestRunner; Registry.MochaRunner;
          Registry.NodeTestRunner; Registry.GoogleTestRunner;
          Registry.CMakeRunner; Registry.MakeRunner])
  ∧ ∀ f2p p2p base before after,
      validate_f2p_p2p_result f2p p2p base before after
        (Some (Registry.language r)) = Some "unstable_test_name" →
      r ∈ [Registry.VitestRunner; Registry.JestRunner; Registry.MochaRunner;
           Registry.NodeTestRunner; Registry.GoogleTestRunner;
           Registry.CMakeRunner; Registry.MakeRunner].
Proof.
  assert (checks_unstable_names (Some (Registry.language r)) = true
   ↔ r ∈ [Registry.VitestRunner; Registry.JestRunner; Registry.MochaRunner;
          Registry.NodeTestRunner; Registry.GoogleTestRunner;
          Registry.CMakeRunner; Registry.MakeRunner]) as Hiff.
  { split.
    - destruct r; intros H; first [discriminate H | in_list].
    - intros H.
      repeat (apply elem_of_cons in H as [-> | H]; [reflexivity |]).
      by apply elem_of_nil in H. }
  split; [exact Hiff |].
  intros f2p p2p base before after Hv. apply Hiff.
  destruct (decide (f2p = [])) as [-> | Hf]; [done |].
  destruct (decide (p2p = [])) as [-> | Hp].
  { by rewrite validate_empty_p2p in Hv. }
  rewrite validate_nonempty in Hv by done.
  apply or_else_Some in Hv as [Hv | [_ Hv]].
  - apply check_unstable_names_Some in Hv as (_ & Hl & _).
    by apply checks_unstable_names_true.
  - repeat (apply or_else_Some in Hv as [Hv | [_ Hv]]; [other_code |]).
    other_code.
Qed.

End ScreeningFacts.

(** * The new-test-file flag *)

Module FlagFacts.

Import Base Analyzer.
Local Open Scope list_scope.

Lemma analyze_has_new_test_file has_new pkgs language :
  F2PP2PResult.has_new_test_file (analyze has_new pkgs language) = has_new.
Proof.
  unfold analyze.
  destruct (analyze_packages initial_state pkgs) as [msg | st]; [done |].
  destruct (packages_tested st =? 0)%nat.
  { by destruct (packages_no_runner st), (errors st). }
  destruct (bool_decide (all_tests_after st = ∅)
            && negb (bool_decide (errors st = []))); [done |].
  by destruct (validate_f2p_p2p_result _ _ _ _ _ _) as [[|? ?]|].
Qed.

(** X23.  The [has_new_test_file] flag of an analysis result, which selects
    Rule A, is set exactly when some changed file that counts as a test file
    is among the files the head commit adds.  When the list of added files
    cannot be obtained the flag stays unset, and so it does on the two early
    returns for no changed file and no changed test file. *)
Theorem new_test_file_flag changed_files language_config added pkgs language :
  F2PP2PResult.has_new_test_file
    (F2PP2PAnalyzer_analyze changed_files language_config added pkgs language)
  = true
  ↔ ∃ f files, added = Some files ∧ f ∈ files
               ∧ f ∈ _filter_test_files language_config changed_files.
Proof.
  unfold F2PP2PAnalyzer_analyze.
  destruct changed_files as [|f0 fs].
  { simpl. split; [done |]. intros (f & files & _ & _ & Hf).
    by apply elem_of_nil in Hf. }
  destruct (_filter_test_files language_config (f0 :: fs)) as [|t ts] eqn:Ht.
  { simpl. split; [done |]. intros (f & files & _ & _ & Hf).
    by apply elem_of_nil in Hf. }
  rewrite analyze_has_new_test_file. unfold _get_new_files.
  destruct added as [files|].
  2: { simpl. split; [done | by intros (? & ? & ? & _)]. }
  split.
  - intros Hlen.
    destruct (List.filter (λ f, bool_decide (f ∈ files)) (t :: ts))
      as [|f l] eqn:Hfl; [done |].
    assert (In f (List.filter (λ f, bool_decide (f ∈ files)) (t :: ts)))
      as Hin by (rewrite Hfl; by left).
    apply filter_In in Hin as [Hin Hf%bool_decide_eq_true].
    exists f, files. split; [done |]. split; [done |].
    by apply list_elem_of_In.
  - intros (f & files' & [= <-] & Hf & Hin).
    assert (In f (List.filter (λ f, bool_decide (f ∈ files)) (t :: ts)))
      as Hfl.
    { apply filter_In. split; [by apply list_elem_of_In |].
      by apply bool_decide_eq_true. }
    by destruct (List.filter _ _).
Qed.

End FlagFacts.

(** * The scenarios of the specification, run on the embedding *)

Module Scenarios.

Import Base Analyzer.
Local Open Scope list_scope.

(** "New test, fixed code": one root package, a new test file. *)
Example new_test_fixed_code :
  let result := analyze true [Examples.run1] (Some "JavaScript") in
  F2PP2PResult.f2p_tests result = ["T_new"]
  ∧ F2PP2PResult.p2p_tests result = ["T1"; "T2"]
  ∧ F2PP2PResult.success result = true
  ∧ F2PP2PResult.rejection_reason result = None.
Proof. vm_compute. done. Qed.

(** "Existing test flipped": Rule B. *)
Example existing_test_flipped :
  generate_test_report Examples.base2 Examples.before2 Examples.after2 false
  = mkReport ["T1"] ["T2"] [] [].
Proof. vm_compute. reflexivity. Qed.

(** "Regression introduced": Rule A leaves F2P empty, hence [empty_f2p]. *)
Example regression_introduced :
  let base : gmap string string := <["T1" := "PASSED"]> ∅ in
  let after : gmap string string := <["T1" := "FAILED"]> ∅ in
  let report := generate_test_report base base after false in
  report = mkReport [] [] [] []
  ∧ validate_f2p_p2p_result (FAIL_TO_PASS report) (PASS_TO_PASS report)
      base base after None = Some "empty_f2p".
Proof. vm_compute. done. Qed.

(** "Unstable identifier": a hex address in a C++ test name. *)
Example unstable_identifier :
  let report := generate_test_report Examples.base5 Examples.base5
                  Examples.after5 true in
  report = mkReport [Examples.unstable_id] ["T1"] [] []
  ∧ validate_f2p_p2p_result (FAIL_TO_PASS report) (PASS_TO_PASS report)
      Examples.base5 Examples.base5 Examples.after5 (Some "C++")
    = Some "unstable_test_name"
  ∧ validate_f2p_p2p_result (FAIL_TO_PASS report) (PASS_TO_PASS report)
      Examples.base5 Examples.base5 Examples.after5 (Some "Python") = None.
Proof. vm_compute. done. Qed.

(** "P2P ghost": a P2P test known to neither [base] nor [before]. *)
Example p2p_ghost :
  let base : gmap string string := <["T_new" := "FAILED"]> ∅ in
  let after : gmap string string :=
    <["T_new" := "PASSED"]> (<["ghost" := "PASSED"]> ∅) in
  validate_f2p_p2p_result ["T_new"] ["ghost"] base base after None
  = Some "p2p_missing_base_not_passing_before".
Proof. vm_compute. reflexivity. Qed.

(** "Monorepo": the same name in two packages gives two keys. *)
Example monorepo_prefixes :
  let run (rel : string) :=
    mkPackageRun (Some rel) (Some ("jest", "JavaScript")) (true, "v20")
      (true, None) (TestResult.mk ["T1"] [] [] None None)
      (TestResult.mk ["T1"] [] [] None None)
      (TestResult.mk ["T1"] [] [] None None) in
  match analyze_packages initial_state [run "api"; run "web"] with
  | inr st => map_to_list (all_tests_after st)
              ≡ₚ [("[api] T1", "PASSED"); ("[web] T1", "PASSED")]
  | inl _ => False
  end.
Proof. vm_compute. apply Permutation_swap || reflexivity. Qed.

(** The unstable patterns, one identifier each, and four near misses. *)
Example unstable_patterns_match :
  map _has_unstable_pattern
    ["run 1700000000"; "at 2024-01-02T10:11:12"; "Built in 3.5s";
     "done IN 12 MS"; "id 123e4567-E89B-12d3-a456-426614174000";
     "perf-0X7F8A1E34"]
  = [true; true; true; true; true; true].
Proof. vm_compute. reflexivity. Qed.

Example stable_names_do_not_match :
  map _has_unstable_pattern
    ["run 170000000"; "at 2024-01-02 10:11:12"; "run in 5 minutes";
     "perf-0x7f8a1e3"; "test_login"]
  = [false; false; false; false; false].
Proof. vm_compute. reflexivity. Qed.

(** Registry: the hint puts Vitest before Jest, and the first candidate
    reaching the maximum wins; without evidence above 30 there is no runner. *)
Example best_runner_with_hint :
  Registry.get_runner true Examples.detect1 (Some "JavaScript")
  = Some Registry.VitestRunner.
Proof. vm_compute. reflexivity. Qed.

Example no_runner_below_threshold :
  Registry.get_runner true (λ _, Some 29) None = None.
Proof. vm_compute. reflexivity. Qed.

Example all_detected_runners :
  Registry.get_all_detected_runners Examples.detect1
  = [(Registry.VitestRunner, 80); (Registry.JestRunner, 80);
     (Registry.NodeTestRunner, 35); (Registry.MochaRunner, 10)].
Proof. vm_compute. reflexivity. Qed.

End Scenarios.
